(** * Normalization layers of keras/layers/normalization.py

    A shallow embedding of [BatchNormalizationBase] (constructor, [build],
    the moving-average helpers, the renorm corrector, [_moments], [call])
    and of the statistics tracker of the preprocessing [Normalization]
    layer.  Tensor entries are ideal real numbers: rounding of the float
    dtypes is not part of the model.  Tensors are dense, row-major, with an
    explicit shape, as the tensor engine stores them. *)

From Stdlib Require Import Reals Lra Lia List ZArith Bool Arith PeanoNat String.
From Stdlib Require Import Permutation Sorted.
Import ListNotations.

Set Implicit Arguments.

(** ** Errors raised by the Python code *)

Inductive exn : Type :=
| ValueError
| TypeError
| IndexError
| AttributeError
| AssertionError
| InvalidArgumentError.

Inductive result (A : Type) : Type :=
| Ok (a : A)
| Raise (e : exn).

Arguments Ok {A} a.
Arguments Raise {A} e.

Definition bind {A B : Type} (r : result A) (k : A -> result B) : result B :=
  match r with
  | Ok a => k a
  | Raise e => Raise e
  end.

Notation "x <- r ;; k" := (bind r (fun x => k))
  (at level 61, r at next level, right associativity).
Notation "' p <- r ;; k" := (bind r (fun x => let p := x in k))
  (at level 61, p pattern, r at next level, right associativity).

(** ** Dense row-major tensors *)

Module Tensor.

Record tensor (A : Type) : Type := mkTensor {
  shape : list nat;
  data : list A
}.

Arguments mkTensor {A} shape data.

Fixpoint size (s : list nat) : nat :=
  match s with
  | [] => 1
  | d :: s' => d * size s'
  end.

Definition wf {A : Type} (t : tensor A) : Prop :=
  List.length (data t) = size (shape t).

(** Flat position of a multi-index, and back. *)
Fixpoint ravel (s idx : list nat) : nat :=
  match s, idx with
  | _ :: s', i :: idx' => i * size s' + ravel s' idx'
  | _, _ => 0
  end.

Fixpoint unravel (s : list nat) (k : nat) : list nat :=
  match s with
  | [] => []
  | _ :: s' => (k / size s') :: unravel s' (k mod size s')
  end.

Definition in_bounds (s idx : list nat) : Prop := Forall2 lt idx s.

Definition get (t : tensor R) (idx : list nat) : R :=
  nth (ravel (shape t) idx) (data t) 0%R.

Definition tabulate (s : list nat) (f : list nat -> R) : tensor R :=
  mkTensor s (map (fun k => f (unravel s k)) (seq 0 (size s))).

Definition fill {A : Type} (s : list nat) (c : A) : tensor A :=
  mkTensor s (repeat c (size s)).

Definition tmap {A B : Type} (f : A -> B) (t : tensor A) : tensor B :=
  mkTensor (shape t) (map f (data t)).

(** [backend.zeros_like], [tf.ones_like]. *)
Definition zeros_like {A : Type} (zero : A) (t : tensor A) : tensor A :=
  fill (shape t) zero.

Definition ones_like (t : tensor R) : tensor R := fill (shape t) 1%R.

(** [tf.where] with a scalar condition picks one operand whole. *)
Definition where_ {A : Type} (c : bool) (x y : tensor A) : tensor A :=
  if c then x else y.

(** *** Broadcasting (shapes are aligned on the right; a dimension of size 1
    stretches) *)

Definition bdim (a b : nat) : option nat :=
  if a =? b then Some a
  else if a =? 1 then Some b
  else if b =? 1 then Some a
  else None.

Definition align (n : nat) (s : list nat) : list nat :=
  repeat 1 (n - List.length s) ++ s.

Fixpoint bzip (s1 s2 : list nat) : option (list nat) :=
  match s1, s2 with
  | [], [] => Some []
  | a :: s1', b :: s2' =>
      match bdim a b, bzip s1' s2' with
      | Some d, Some s => Some (d :: s)
      | _, _ => None
      end
  | _, _ => None
  end.

Definition bshape (s1 s2 : list nat) : option (list nat) :=
  let n := Nat.max (List.length s1) (List.length s2) in
  bzip (align n s1) (align n s2).

Fixpoint bpick (s idx : list nat) : list nat :=
  match s, idx with
  | d :: s', i :: idx' => (if d =? 1 then 0 else i) :: bpick s' idx'
  | _, _ => []
  end.

(** The multi-index of the operand of shape [s] that feeds position [idx]
    of the broadcast result. *)
Definition bidx (s idx : list nat) : list nat :=
  bpick s (skipn (List.length idx - List.length s) idx).

(** A shape of the same rank that stretches to [s]: every dimension is 1 or
    the dimension of [s]. *)
Definition fits (sm s : list nat) : Prop :=
  Forall2 (fun a d => a = 1 \/ a = d) sm s.

Definition binop (f : R -> R -> R) (t1 t2 : tensor R) : result (tensor R) :=
  match bshape (shape t1) (shape t2) with
  | Some s =>
      Ok (tabulate s (fun idx =>
            f (get t1 (bidx (shape t1) idx)) (get t2 (bidx (shape t2) idx))))
  | None => Raise InvalidArgumentError
  end.

End Tensor.

Module Reduce.
Import Tensor.

Definition in_axes (axes : list nat) (i : nat) : bool :=
  existsb (Nat.eqb i) axes.

(** Coordinates of the reduced dimensions are set to 0 ([mask]); their
    sizes become 1 ([keep_shape], keepdims=True) or disappear
    ([squeeze_shape]). [i] is the number of the first dimension of the
    list. *)
Fixpoint mask (i : nat) (axes idx : list nat) : list nat :=
  match idx with
  | [] => []
  | x :: idx' => (if in_axes axes i then 0 else x) :: mask (S i) axes idx'
  end.

Fixpoint keep_shape (i : nat) (axes s : list nat) : list nat :=
  match s with
  | [] => []
  | d :: s' => (if in_axes axes i then 1 else d) :: keep_shape (S i) axes s'
  end.

Fixpoint squeeze_shape (i : nat) (axes s : list nat) : list nat :=
  match s with
  | [] => []
  | d :: s' =>
      if in_axes axes i then squeeze_shape (S i) axes s'
      else d :: squeeze_shape (S i) axes s'
  end.

Fixpoint idx_eqb (a b : list nat) : bool :=
  match a, b with
  | [], [] => true
  | x :: a', y :: b' => (x =? y) && idx_eqb a' b'
  | _, _ => false
  end.

(** The entries of [t] that are reduced into the cell [idx] of the result. *)
Definition cell (t : tensor R) (axes idx : list nat) : list R :=
  map (fun k => nth k (data t) 0%R)
      (filter (fun k => idx_eqb (mask 0 axes (unravel (shape t) k)) idx)
              (seq 0 (size (shape t)))).

Definition rsum (l : list R) : R := fold_right Rplus 0%R l.

(** The mean, in exact arithmetic: the rounding of a float sum is not
    modelled, and the mean of no entry at all, NaN for the engine, is 0
    here. *)
Definition mean_of (l : list R) : R := (rsum l / INR (List.length l))%R.

Definition in_range (rank : nat) (axes : list nat) : bool :=
  forallb (fun a => a <? rank) axes.

(** [tf.reduce_mean(t, axes, keepdims)]: an axis outside the rank is an
    error of the tensor engine. *)
Definition reduce_mean (t : tensor R) (axes : list nat) (keepdims : bool)
  : result (tensor R) :=
  if in_range (List.length (shape t)) axes then
    let r := tabulate (keep_shape 0 axes (shape t))
                      (fun idx => mean_of (cell t axes idx)) in
    Ok (if keepdims then r
        else mkTensor (squeeze_shape 0 axes (shape t)) (data r))
  else Raise InvalidArgumentError.

Definition squared_difference (x y : R) : R := ((x - y) * (x - y))%R.

(** [tf.nn.moments(x, axes, keep_dims)]: both statistics are computed with
    kept dimensions and squeezed afterwards. *)
Definition nn_moments (x : tensor R) (axes : list nat) (keep_dims : bool)
  : result (tensor R * tensor R) :=
  m <- reduce_mean x axes true ;;
  sq <- binop squared_difference x m ;;
  v <- reduce_mean sq axes true ;;
  if keep_dims then Ok (m, v)
  else
    let s := squeeze_shape 0 axes (shape x) in
    Ok (mkTensor s (data m), mkTensor s (data v)).

(** [tf.reshape(t, target)]: one entry of [target] may be [-1] and is then
    inferred from the number of elements. *)
Definition known_dims (target : list Z) : list Z :=
  filter (fun d => negb (d =? -1)%Z) target.

Definition zprod (l : list Z) : Z := fold_right Z.mul 1%Z l.

Definition reshape {A : Type} (t : tensor A) (target : list Z)
  : result (tensor A) :=
  let n := Z.of_nat (List.length (data t)) in
  let known := zprod (known_dims target) in
  if existsb (fun d => (d <? -1)%Z) target then Raise InvalidArgumentError
  else if (List.length (known_dims target) =? List.length target)%nat then
    if (known =? n)%Z then Ok (mkTensor (map Z.to_nat target) (data t))
    else Raise InvalidArgumentError
  else if (S (List.length (known_dims target)) =? List.length target)%nat then
    if ((0 <? known) && (n mod known =? 0))%Z then
      Ok (mkTensor
            (map (fun d => if (d =? -1)%Z then Z.to_nat (n / known)
                           else Z.to_nat d) target)
            (data t))
    else Raise InvalidArgumentError
  else Raise InvalidArgumentError.

End Reduce.

(** ** [BatchNormalizationBase]: attributes, constructor and [build] *)

Module BatchNorm.
Import Tensor Reduce.
Local Open Scope Z_scope.

Inductive dtype : Type := float16 | bfloat16 | float32 | float64 | int32.

(** The compute dtypes of the fused kernel. *)
Definition fusable_dtype (d : dtype) : bool :=
  match d with
  | float16 | bfloat16 | float32 => true
  | _ => false
  end.

Inductive data_format : Type := NCHW | NCDHW | NHWC | NDHWC.

(** The [axis] argument: an int, a list of ints, a tuple of ints, or
    anything else. The constructor keeps a tuple as a tuple; [build] turns
    an int into a one-element list and writes into a list, which a tuple
    does not allow. *)
Inductive axis_t : Type :=
| AxisInt (a : Z)
| AxisList (l : list Z)
| AxisTuple (l : list Z)
| AxisOther.

Definition is_tuple (a : axis_t) : bool :=
  match a with AxisTuple _ => true | _ => false end.

(** [self.axis] once [build] has gone through the axes [l]: a list, or
    the tuple that was given. *)
Definition stored_axes (a : axis_t) (l : list Z) : axis_t :=
  match a with
  | AxisTuple _ => AxisTuple l
  | _ => AxisList l
  end.

(** [adjustment]: from the dynamic shape of the input to (scale, bias). *)
Definition adjustment_t : Type := list nat -> tensor R * tensor R.

Definition initializer : Type := list nat -> tensor R.

(** The arguments of [__init__]. [c_momentum_is_number] tells whether
    [momentum] is a Python float or int, rather than a NumPy scalar or a
    tensor of the same value. *)
Record config : Type := mkConfig {
  c_axis : axis_t;
  c_momentum : R;
  c_momentum_is_number : bool;
  c_epsilon : R;
  c_center : bool;
  c_scale : bool;
  c_beta_initializer : initializer;
  c_gamma_initializer : initializer;
  c_moving_mean_initializer : initializer;
  c_moving_variance_initializer : initializer;
  c_renorm : bool;
  c_renorm_clipping : option (list (string * R));
  c_renorm_momentum : R;
  c_fused : option bool;
  c_trainable : bool;
  c_virtual_batch_size : option Z;
  c_adjustment : option adjustment_t;
  c_compute_dtype : option dtype
}.

(** The attributes of the layer object. [momentum_is_number] is
    [isinstance(self.momentum, (float, int))]. *)
Record layer : Type := mkLayer {
  USE_V2_BEHAVIOR : bool;
  axis : axis_t;
  momentum : R;
  momentum_is_number : bool;
  epsilon : R;
  center : bool;
  scale : bool;
  beta_initializer : initializer;
  gamma_initializer : initializer;
  moving_mean_initializer : initializer;
  moving_variance_initializer : initializer;
  renorm : bool;
  renorm_clipping : list (string * R);
  renorm_momentum : R;
  fused : option bool;
  trainable : bool;
  virtual_batch_size : option Z;
  adjustment : option adjustment_t;
  compute_dtype : option dtype;
  _data_format : option data_format;
  param_shape : list nat
}.

Definition set_fused (f : option bool) (l : layer) : layer :=
  mkLayer (USE_V2_BEHAVIOR l) (axis l) (momentum l) (momentum_is_number l)
    (epsilon l) (center l)
    (scale l) (beta_initializer l) (gamma_initializer l)
    (moving_mean_initializer l) (moving_variance_initializer l) (renorm l)
    (renorm_clipping l) (renorm_momentum l) f (trainable l)
    (virtual_batch_size l) (adjustment l) (compute_dtype l) (_data_format l)
    (param_shape l).

Definition set_axis (a : axis_t) (l : layer) : layer :=
  mkLayer (USE_V2_BEHAVIOR l) a (momentum l) (momentum_is_number l)
    (epsilon l) (center l)
    (scale l) (beta_initializer l) (gamma_initializer l)
    (moving_mean_initializer l) (moving_variance_initializer l) (renorm l)
    (renorm_clipping l) (renorm_momentum l) (fused l) (trainable l)
    (virtual_batch_size l) (adjustment l) (compute_dtype l) (_data_format l)
    (param_shape l).

Definition set_data_format (d : option data_format) (l : layer) : layer :=
  mkLayer (USE_V2_BEHAVIOR l) (axis l) (momentum l) (momentum_is_number l)
    (epsilon l) (center l)
    (scale l) (beta_initializer l) (gamma_initializer l)
    (moving_mean_initializer l) (moving_variance_initializer l) (renorm l)
    (renorm_clipping l) (renorm_momentum l) (fused l) (trainable l)
    (virtual_batch_size l) (adjustment l) (compute_dtype l) d (param_shape l).

Definition set_renorm_clipping (c : list (string * R)) (l : layer) : layer :=
  mkLayer (USE_V2_BEHAVIOR l) (axis l) (momentum l) (momentum_is_number l)
    (epsilon l) (center l)
    (scale l) (beta_initializer l) (gamma_initializer l)
    (moving_mean_initializer l) (moving_variance_initializer l) (renorm l)
    c (renorm_momentum l) (fused l) (trainable l)
    (virtual_batch_size l) (adjustment l) (compute_dtype l) (_data_format l)
    (param_shape l).

Definition set_param_shape (p : list nat) (l : layer) : layer :=
  mkLayer (USE_V2_BEHAVIOR l) (axis l) (momentum l) (momentum_is_number l)
    (epsilon l) (center l)
    (scale l) (beta_initializer l) (gamma_initializer l)
    (moving_mean_initializer l) (moving_variance_initializer l) (renorm l)
    (renorm_clipping l) (renorm_momentum l) (fused l) (trainable l)
    (virtual_batch_size l) (adjustment l) (compute_dtype l) (_data_format l)
    p.

Definition is_some {A : Type} (o : option A) : bool :=
  match o with Some _ => true | None => false end.

Definition zmem (x : Z) (l : list Z) : bool := existsb (Z.eqb x) l.

(** [_raise_if_fused_cannot_be_used]. [axis[0]] of an empty list or tuple
    is an IndexError; an [axis] that is neither int, list nor tuple never
    gets past the constructor. *)
Definition _raise_if_fused_cannot_be_used (self : layer) : result unit :=
  if renorm self then Raise ValueError
  else
    ax <- match axis self with
          | AxisInt a => Ok [a]
          | AxisList l | AxisTuple l => Ok l
          | AxisOther => Raise TypeError
          end ;;
    ok <- (if (1 <? List.length ax)%nat then Ok false
           else match ax with
                | [] => Raise IndexError
                | a0 :: _ => Ok (zmem a0 [-4; -3; -1; 1; 3; 4])
                end) ;;
    if negb ok then Raise ValueError
    else if is_some (virtual_batch_size self) then Raise ValueError
    else if is_some (adjustment self) then Raise ValueError
    else match compute_dtype self with
         | Some d => if fusable_dtype d then Ok tt else Raise ValueError
         | None => Ok tt
         end.

Definition _fused_can_be_used (self : layer) : result bool :=
  match _raise_if_fused_cannot_be_used self with
  | Ok _ => Ok true
  | Raise ValueError => Ok false
  | Raise e => Raise e
  end.

Definition clipping_keys : list string :=
  ["rmax"%string; "rmin"%string; "dmax"%string].

(** The attributes as the constructor has set them when it turns to
    [fused]. *)
Definition initial_attributes (use_v2 : bool) (c : config) (ax : axis_t)
  : layer :=
  mkLayer use_v2 ax (c_momentum c) (c_momentum_is_number c) (c_epsilon c)
    (c_center c) (c_scale c)
    (c_beta_initializer c) (c_gamma_initializer c)
    (c_moving_mean_initializer c) (c_moving_variance_initializer c)
    (c_renorm c) [] (c_renorm_momentum c) None (c_trainable c)
    (c_virtual_batch_size c) (c_adjustment c) (c_compute_dtype c)
    None [].

Definition __init__ (use_v2 : bool) (c : config) : result layer :=
  ax <- match c_axis c with
        | AxisList l => Ok (AxisList l)
        | AxisTuple l => Ok (AxisTuple l)
        | AxisInt a => Ok (AxisInt a)
        | AxisOther => Raise TypeError
        end ;;
  let self := initial_attributes use_v2 c ax in
  fused' <-
    (if use_v2 then
       match c_fused c with
       | Some true => _ <- _raise_if_fused_cannot_be_used self ;; Ok (Some true)
       | None =>
           can <- _fused_can_be_used self ;;
           Ok (if can then None else Some false)
       | Some false => Ok (Some false)
       end
     else
       match c_fused c with
       | None => Ok (Some true)
       | f => Ok f
       end) ;;
  let self := set_fused fused' self in
  if c_renorm c then
    let clipping := match c_renorm_clipping c with
                    | Some d => d
                    | None => []
                    end in
    if forallb (fun kv => existsb (String.eqb (fst kv)) clipping_keys) clipping
    then Ok (set_renorm_clipping clipping self)
    else Raise ValueError
  else Ok self.

(** The variables created by [build] ([add_weight]) and the two constants
    of the fused path. *)
Record variables : Type := mkVars {
  gamma : option (tensor R);
  beta : option (tensor R);
  _gamma_const : option (tensor R);
  _beta_const : option (tensor R);
  moving_mean : tensor R;
  moving_variance : tensor R;
  moving_stddev : option (tensor R);
  renorm_mean : option (tensor R);
  renorm_stddev : option (tensor R)
}.

Definition resolve_axis (ndims : Z) (ax : list Z) : list Z :=
  map (fun x => if x <? 0 then ndims + x else x) ax.

Fixpoint has_dup (l : list Z) : bool :=
  match l with
  | [] => false
  | x :: l' => zmem x l' || has_dup l'
  end.

(** The axes of the layer, as [build] and [call] go through them. *)
Definition axis_list (self : layer) : result (list Z) :=
  match axis self with
  | AxisInt a => Ok [a]
  | AxisList l | AxisTuple l => Ok l
  | AxisOther => Raise TypeError
  end.

(** The dimension sizes at the axes, [None] where one is undefined. *)
Fixpoint axis_dims (dims : list (option nat)) (ax : list Z)
  : option (list nat) :=
  match ax with
  | [] => Some []
  | x :: ax' =>
      match nth (Z.to_nat x) dims None, axis_dims dims ax' with
      | Some d, Some ds => Some (d :: ds)
      | _, _ => None
      end
  end.

Definition list_insert {A : Type} (i : nat) (x : A) (l : list A) : list A :=
  firstn i l ++ x :: skipn i l.

(** The block of [build] that settles [self.fused] once the rank is known. *)
Definition select_fused (self : layer) (ndims : Z) : result bool :=
  let in45 := zmem ndims [4; 5] in
  match fused self with
  | Some false => Ok false
  | f =>
      if USE_V2_BEHAVIOR self then
        match f with
        | None => Ok in45
        | _ => if negb in45 then Raise ValueError else Ok true
        end
      else
        match f with
        | None => Raise AssertionError
        | _ => if in45 then _fused_can_be_used self else Ok false
        end
  end.

(** The block of [build] that picks the data format of the fused kernel,
    or falls back, or raises. [self.axis == [1]] compares with a list: it
    is False for the tuple [(1,)]. *)
Definition select_data_format (a : axis_t) (ndims : Z) (f1 : bool)
  : result (bool * option data_format) :=
  if f1 then
    match a with
    | AxisList ax =>
        match ax, ndims with
        | [1], 4 => Ok (true, Some NCHW)
        | [1], 5 => Ok (true, Some NCDHW)
        | [3], 4 => Ok (true, Some NHWC)
        | [4], 5 => Ok (true, Some NDHWC)
        | _, 5 => Ok (false, None)
        | _, _ => Raise ValueError
        end
    | _ => if ndims =? 5 then Ok (false, None) else Raise ValueError
    end
  else Ok (false, None).

Definition truthy (f : option bool) : bool :=
  match f with Some true => true | _ => false end.

(** The last block of [build]: the shape of the parameters, the shift of
    the axes for virtual batches ([self.axis[idx] = x + 1], a TypeError
    on a tuple), and the variables. *)
Definition add_weights (self : layer) (dims : list (option nat))
    (ax : list Z) : result (layer * variables) :=
  ds <- match axis_dims dims ax with
        | Some ds => Ok ds
        | None => Raise ValueError
        end ;;
  let single := (List.length ax =? 1)%nat
                && negb (is_some (virtual_batch_size self)) in
  let full := map (fun i => if zmem (Z.of_nat i) ax
                            then match nth i dims None with
                                 | Some d => d
                                 | None => 1%nat
                                 end
                            else 1%nat)
                  (seq 0 (List.length dims)) in
  let pshape :=
    if single then ds
    else if is_some (virtual_batch_size self) then list_insert 1 1%nat full
    else full in
  let shifted := negb single && is_some (virtual_batch_size self) in
  if shifted && is_tuple (axis self) && negb (List.length ax =? 0)%nat
  then Raise TypeError
  else
  let ax' := if shifted then map (fun x => x + 1) ax else ax in
  let self :=
    set_param_shape pshape (set_axis (stored_axes (axis self) ax') self) in
  let stddev_init := tmap sqrt (moving_variance_initializer self pshape) in
  Ok (self,
      mkVars
        (if scale self then Some (gamma_initializer self pshape) else None)
        (if center self then Some (beta_initializer self pshape) else None)
        (if negb (scale self) && truthy (fused self)
         then Some (fill pshape 1%R) else None)
        (if negb (center self) && truthy (fused self)
         then Some (fill pshape 0%R) else None)
        (moving_mean_initializer self pshape)
        (moving_variance_initializer self pshape)
        (if renorm self then Some stddev_init else None)
        (if renorm self
         then Some (moving_mean_initializer self pshape) else None)
        (if renorm self then Some stddev_init else None)).

Definition build (self : layer) (input_shape : option (list (option nat)))
  : result (layer * variables) :=
  dims <- match input_shape with
          | None | Some [] => Raise ValueError
          | Some d => Ok d
          end ;;
  let ndims := Z.of_nat (List.length dims) in
  ax0 <- axis_list self ;;
  if is_tuple (axis self) && existsb (fun x => x <? 0) ax0
  then Raise TypeError
  else
  let ax := resolve_axis ndims ax0 in
  let self := set_axis (stored_axes (axis self) ax) self in
  if existsb (fun x => (x <? 0) || (ndims <=? x)) ax then Raise ValueError
  else if has_dup ax then Raise ValueError
  else
  _ <- match virtual_batch_size self with
       | Some v =>
           if v <=? 0 then Raise ValueError
           else if zmem 0 ax then Raise ValueError
           else if is_some (adjustment self) then Raise ValueError
           else Ok tt
       | None => Ok tt
       end ;;
  f1 <- select_fused self ndims ;;
  ' (f2, fmt) <- select_data_format (axis self) ndims f1 ;;
  add_weights (set_data_format fmt (set_fused (Some f2) self)) dims ax.

Definition construct_and_build (use_v2 : bool) (c : config)
    (input_shape : option (list (option nat)))
  : result (layer * variables) :=
  self <- __init__ use_v2 c ;;
  build self input_shape.



Definition with_virtual_batch_size (v : option Z) (c : config) : config :=
  mkConfig (c_axis c) (c_momentum c) (c_momentum_is_number c) (c_epsilon c)
    (c_center c) (c_scale c)
    (c_beta_initializer c) (c_gamma_initializer c)
    (c_moving_mean_initializer c) (c_moving_variance_initializer c)
    (c_renorm c) (c_renorm_clipping c) (c_renorm_momentum c) (c_fused c)
    (c_trainable c) v (c_adjustment c) (c_compute_dtype c).


Definition zeros : initializer := fun s => fill s 0%R.
Definition ones : initializer := fun s => fill s 1%R.

(** The defaults of the constructor. *)
Definition default_config : config :=
  mkConfig (AxisInt (-1)) (99 / 100)%R true (1 / 1000)%R true true zeros ones
    zeros ones false None (99 / 100)%R None true None None (Some float32).






Definition rank_of (input_shape : option (list (option nat))) : Z :=
  match input_shape with
  | Some dims => Z.of_nat (List.length dims)
  | None => 0
  end.

(** ** The moving-statistics helpers *)

Local Open Scope R_scope.

Definition same_shape (s1 s2 : list nat) : bool := idx_eqb s1 s2.

(** [variable.assign_sub(delta)] and [variable.assign(value)]: the operand
    must have the shape of the variable. [assign] checks the shape itself
    and raises a ValueError; [assign_sub] leaves it to the kernel. *)
Definition assign_sub (variable delta : tensor R) : result (tensor R) :=
  if same_shape (shape variable) (shape delta)
  then binop Rminus variable delta
  else Raise InvalidArgumentError.

Definition assign (variable value : tensor R) : result (tensor R) :=
  if same_shape (shape variable) (shape value)
  then Ok value
  else Raise ValueError.

(** The nested [calculate_update_delta]. *)
Definition calculate_update_delta (variable value : tensor R) (momentum : R)
    (inputs_size : option Z) : result (tensor R) :=
  let decay := 1 - momentum in
  diff <- binop Rminus variable value ;;
  let update_delta := tmap (fun x => x * decay) diff in
  match inputs_size with
  | Some n => Ok (where_ (0 <? n)%Z update_delta (zeros_like 0 update_delta))
  | None => Ok update_delta
  end.

Definition _assign_moving_average (variable value : tensor R) (momentum : R)
    (inputs_size : option Z) : result (tensor R) :=
  update_delta <- calculate_update_delta variable value momentum inputs_size ;;
  assign_sub variable update_delta.

Definition _assign_new_value (variable value : tensor R)
  : result (tensor R) :=
  assign variable value.

(** ** The [training] argument *)

(** A Python bool, a Python int, or a tensor whose value is only known
    when the graph runs (the value it will have is carried along). *)
Inductive training_t : Type :=
| TrainBool (b : bool)
| TrainInt (z : Z)
| TrainTensor (b : bool).

(** What the layer reads from its surroundings: the global learning phase,
    the distribution strategy, the execution mode, and the fused kernel
    [tf.compat.v1.nn.fused_batch_norm] (inputs, gamma, beta, mean,
    variance, epsilon, is_training, data_format, exponential_avg_factor). *)
Record env : Type := mkEnv {
  learning_phase : training_t;
  support_zero_size_input : bool;
  executing_eagerly_outside_functions : bool;
  enclosing_xla_context : bool;
  fused_batch_norm :
    tensor R -> tensor R -> tensor R -> tensor R -> tensor R -> R -> bool ->
    data_format -> option R -> result (tensor R * tensor R * tensor R)
}.

(** Modelled from the spec: [control_flow_util.constant_value] is not among
    the sources; the spec's three states of [training] are True, False and
    unknown at trace time. A Python bool, or an int that is 0 or 1, has a
    constant value; a tensor has none. *)
Definition constant_value (pred : training_t) : result (option bool) :=
  match pred with
  | TrainBool b => Ok (Some b)
  | TrainInt z =>
      if (z =? 0)%Z then Ok (Some false)
      else if (z =? 1)%Z then Ok (Some true)
      else Raise TypeError
  | TrainTensor _ => Ok None
  end.

(** Modelled from the spec: [control_flow_util.smart_cond] is not among the
    sources; it runs the first branch when the predicate holds (now, or when
    the graph runs) and the second otherwise. The result says which. *)
Definition smart_cond (pred : training_t) : result bool :=
  match pred with
  | TrainBool b => Ok b
  | TrainInt z =>
      if (z =? 0)%Z then Ok false
      else if (z =? 1)%Z then Ok true
      else Raise TypeError
  | TrainTensor b => Ok b
  end.

Definition _get_training_value (e : env) (self : layer)
    (training : option training_t) : training_t :=
  let training := match training with
                  | None => learning_phase e
                  | Some t => t
                  end in
  if USE_V2_BEHAVIOR self then
    let training := match training with
                    | TrainInt z => TrainBool (negb (z =? 0)%Z)
                    | t => t
                    end in
    if negb (trainable self) then TrainBool false else training
  else training.

(** ** The renormalization corrector *)

Fixpoint dict_get (d : list (string * R)) (key : string) : option R :=
  match d with
  | [] => None
  | (k, v) :: d' => if String.eqb k key then Some v else dict_get d' key
  end.

Definition set_renorm_vars (m s : tensor R) (v : variables) : variables :=
  mkVars (gamma v) (beta v) (_gamma_const v) (_beta_const v) (moving_mean v)
    (moving_variance v) (moving_stddev v) (Some m) (Some s).

Definition set_moving_mean (m : tensor R) (v : variables) : variables :=
  mkVars (gamma v) (beta v) (_gamma_const v) (_beta_const v) m
    (moving_variance v) (moving_stddev v) (renorm_mean v) (renorm_stddev v).

Definition set_moving_variance (m : tensor R) (v : variables) : variables :=
  mkVars (gamma v) (beta v) (_gamma_const v) (_beta_const v) (moving_mean v)
    m (moving_stddev v) (renorm_mean v) (renorm_stddev v).

Definition set_moving_stddev (m : tensor R) (v : variables) : variables :=
  mkVars (gamma v) (beta v) (_gamma_const v) (_beta_const v) (moving_mean v)
    (moving_variance v) (Some m) (renorm_mean v) (renorm_stddev v).

Definition attr {A : Type} (o : option A) : result A :=
  match o with
  | Some a => Ok a
  | None => Raise AttributeError
  end.

Definition clip_r (rmin rmax : option R) (r : R) : R :=
  let r := match rmin with Some lo => Rmax r lo | None => r end in
  match rmax with Some hi => Rmin r hi | None => r end.

Definition clip_d (dmax : option R) (d : R) : R :=
  match dmax with
  | Some m => Rmin (Rmax d (- m)) m
  | None => d
  end.

(** The spec's clipping to an interval; an end that is not configured is
    absent. Stated apart from [clip_r] and [clip_d], to compare them. *)
Definition clip_to (lo hi : option R) (x : R) : R :=
  let upper := match hi with
               | Some h => if Rlt_dec h x then h else x
               | None => x
               end in
  match lo with
  | Some l => if Rlt_dec x l then l else upper
  | None => upper
  end.

Definition ordered (lo hi : option R) : Prop :=
  match lo, hi with
  | Some l, Some h => l <= h
  | _, _ => True
  end.

Definition _renorm_correction_and_moments (self : layer) (vars : variables)
    (mean variance : tensor R) (training : training_t)
    (inputs_size : option Z)
  : result (tensor R * tensor R * tensor R * tensor R * variables) :=
  let stddev := tmap (fun v => sqrt (v + epsilon self)) variance in
  renorm_mean0 <- attr (renorm_mean vars) ;;
  renorm_stddev_var <- attr (renorm_stddev vars) ;;
  let renorm_stddev0 :=
    tmap (fun s => Rmax s (sqrt (epsilon self))) renorm_stddev_var in
  r <- binop Rdiv stddev renorm_stddev0 ;;
  centered <- binop Rminus mean renorm_mean0 ;;
  d <- binop Rdiv centered renorm_stddev0 ;;
  let rmin := dict_get (renorm_clipping self) "rmin" in
  let rmax := dict_get (renorm_clipping self) "rmax" in
  let dmax := dict_get (renorm_clipping self) "dmax" in
  let r := tmap (clip_r rmin rmax) r in
  let d := tmap (clip_d dmax) d in
  t <- smart_cond training ;;
  let r := if t then r else ones_like r in
  let d := if t then d else zeros_like 0 d in
  new_mean <- (if t
               then _assign_moving_average renorm_mean0 mean
                      (renorm_momentum self) inputs_size
               else Ok renorm_mean0) ;;
  new_stddev <- (if t
                 then _assign_moving_average renorm_stddev_var stddev
                        (renorm_momentum self) inputs_size
                 else Ok renorm_stddev_var) ;;
  Ok (r, d, mean, variance, set_renorm_vars new_mean new_stddev vars).

(** ** The moment calculator *)

Section Moments.
Variable A : Type.
Variable zero : A.
(** [_calculate_mean_and_var], which subclasses override. *)
Variable _calculate_mean_and_var :
  tensor A -> list nat -> bool -> result (tensor A * tensor A).

Definition _moments (e : env) (inputs : tensor A)
    (reduction_axes : list nat) (keep_dims : bool)
  : result (tensor A * tensor A) :=
  ' (mean, variance) <-
      _calculate_mean_and_var inputs reduction_axes keep_dims ;;
  if support_zero_size_input e then
    match shape inputs with
    | [] => Raise InvalidArgumentError
    | input_batch_size :: _ =>
        Ok (where_ (0 <? input_batch_size)%nat mean (zeros_like zero mean),
            where_ (0 <? input_batch_size)%nat variance
                   (zeros_like zero variance))
    end
  else Ok (mean, variance).
End Moments.

(** ** The normalization transform and [call] *)

(** The updates handed to [add_update]: the variable and the statistic fed
    to it. *)
Inductive var_id : Type := MovingMean | MovingVariance.

Definition update_log : Type := list (var_id * tensor R).

(** [tf.nn.batch_normalization]: [x * inv + (offset - mean * inv)] with
    [inv = rsqrt(variance + epsilon) * scale]. *)
Definition batch_normalization (x mean variance : tensor R)
    (offset scale : option (tensor R)) (variance_epsilon : R)
  : result (tensor R) :=
  let inv := tmap (fun v => / sqrt (v + variance_epsilon)) variance in
  inv <- match scale with
         | Some s => binop Rmult inv s
         | None => Ok inv
         end ;;
  xs <- binop Rmult x inv ;;
  mi <- binop Rmult mean inv ;;
  shift <- match offset with
           | Some o => binop Rminus o mi
           | None => Ok (tmap Ropp mi)
           end ;;
  binop Rplus xs shift.

Definition _compose_transforms (scale offset : tensor R)
    (then_scale then_offset : option (tensor R))
  : result (tensor R * tensor R) :=
  ' (scale, offset) <-
      match then_scale with
      | Some ts =>
          s <- binop Rmult scale ts ;;
          o <- binop Rmult offset ts ;;
          Ok (s, o)
      | None => Ok (scale, offset)
      end ;;
  offset <- match then_offset with
            | Some t => binop Rplus offset t
            | None => Ok offset
            end ;;
  Ok (scale, offset).

Definition _broadcast (ndims : nat) (reduction_axes broadcast_shape : list nat)
    (v : tensor R) : result (tensor R) :=
  if negb (List.length (shape v) =? ndims)%nat
     && negb (same_shape reduction_axes (seq 0 (ndims - 1)))
  then reshape v (map Z.of_nat broadcast_shape)
  else Ok v.

Definition _broadcast_opt (ndims : nat)
    (reduction_axes broadcast_shape : list nat) (v : option (tensor R))
  : result (option (tensor R)) :=
  match v with
  | Some t => t' <- _broadcast ndims reduction_axes broadcast_shape t ;;
              Ok (Some t')
  | None => Ok None
  end.

Definition list_set {A : Type} (i : nat) (x : A) (l : list A) : list A :=
  firstn i l ++ x :: skipn (S i) l.

Definition relu (x : R) : R := Rmax x 0.

Definition batch_size_of {A : Type} (e : env) (inputs : tensor A)
  : result (option Z) :=
  if support_zero_size_input e then
    match shape inputs with
    | [] => Raise InvalidArgumentError
    | b :: _ => Ok (Some (Z.of_nat b))
    end
  else Ok None.

Definition _fused_batch_norm (e : env) (self : layer) (vars : variables)
    (inputs : tensor R) (training : training_t)
  : result (tensor R * variables * update_log) :=
  beta0 <- attr (if center self then beta vars else _beta_const vars) ;;
  gamma0 <- attr (if scale self then gamma vars else _gamma_const vars) ;;
  input_batch_size <- batch_size_of e inputs ;;
  let use_fused_avg_updates :=
    executing_eagerly_outside_functions e
    && momentum_is_number self
    && negb (enclosing_xla_context e) in
  let exponential_avg_factor :=
    if use_fused_avg_updates then Some (1 - momentum self) else None in
  fmt <- attr (_data_format self) ;;
  t <- smart_cond training ;;
  ' (output, mean, variance) <-
      (if t then
         match use_fused_avg_updates, input_batch_size with
         | true, Some n =>
             if (0 <? n)%Z
             then fused_batch_norm e inputs gamma0 beta0 (moving_mean vars)
                    (moving_variance vars) (epsilon self) true fmt
                    exponential_avg_factor
             else Ok (inputs, moving_mean vars, moving_variance vars)
         | _, _ =>
             fused_batch_norm e inputs gamma0 beta0 (moving_mean vars)
               (moving_variance vars) (epsilon self) true fmt
               exponential_avg_factor
         end
       else fused_batch_norm e inputs gamma0 beta0 (moving_mean vars)
              (moving_variance vars) (epsilon self) false fmt (Some 1)) ;;
  training_value <- constant_value training ;;
  match training_value with
  | Some false => Ok (output, vars, [])
  | _ =>
      let momentum0 :=
        match training_value with
        | None => if t then momentum self else 1
        | _ => momentum self
        end in
      mm <- (if use_fused_avg_updates
             then _assign_new_value (moving_mean vars) mean
             else _assign_moving_average (moving_mean vars) mean momentum0
                    input_batch_size) ;;
      mv <- (if use_fused_avg_updates
             then _assign_new_value (moving_variance vars) variance
             else _assign_moving_average (moving_variance vars) variance
                    momentum0 input_batch_size) ;;
      Ok (output, set_moving_variance mv (set_moving_mean mm vars),
          [(MovingMean, mean); (MovingVariance, variance)])
  end.

(** The axes [call] reduces over. *)
Definition reduction_axes_of (self : layer) (ax : list Z) (ndims : nat)
  : result (list nat) :=
  let reduction_axes :=
    filter (fun i => negb (zmem (Z.of_nat i) ax)) (seq 0 ndims) in
  if is_some (virtual_batch_size self) then
    if (List.length reduction_axes <? 2)%nat then Raise IndexError
    else Ok (firstn 1 reduction_axes ++ skipn 2 reduction_axes)
  else Ok reduction_axes.

Definition broadcast_shape_of (ax : list Z) (input_shape : list nat)
  : result (list nat) :=
  let ndims := Z.of_nat (List.length input_shape) in
  match ax with
  | [] => Raise IndexError
  | a0 :: _ =>
      let i := if (a0 <? 0)%Z then (a0 + ndims)%Z else a0 in
      if ((i <? 0) || (ndims <=? i))%Z then Raise IndexError
      else Ok (list_set (Z.to_nat i) (nth (Z.to_nat i) input_shape O)
                 (repeat 1%nat (List.length input_shape)))
  end.

(** The shapes of the ghost-batch splitter: [original_shape] with the batch
    dimension left open, and the reshape of the batch dimension into
    [virtual_batch_size, -1]. *)
Definition original_shape_of (inputs0 : tensor R) : list Z :=
  (-1)%Z :: map Z.of_nat (skipn 1 (shape inputs0)).

Definition virtual_batching (self : layer) (inputs0 : tensor R)
  : result (tensor R) :=
  match virtual_batch_size self with
  | Some v =>
      reshape inputs0 (v :: (-1)%Z :: skipn 1 (original_shape_of inputs0))
  | None => Ok inputs0
  end.

(** The nested [undo_virtual_batching]. *)
Definition undo_virtual_batching (self : layer) (inputs0 outputs : tensor R)
  : result (tensor R) :=
  if is_some (virtual_batch_size self)
  then reshape outputs (original_shape_of inputs0) else Ok outputs.

Definition call (e : env) (self : layer) (vars : variables)
    (inputs0 : tensor R) (training0 : option training_t)
  : result (tensor R * variables * update_log) :=
  let training := _get_training_value e self training0 in
  inputs <- virtual_batching self inputs0 ;;
  if truthy (fused self) then
    ' (outputs, vars, log) <- _fused_batch_norm e self vars inputs training ;;
    outputs <- undo_virtual_batching self inputs0 outputs ;;
    Ok (outputs, vars, log)
  else
  let input_shape := shape inputs in
  let ndims := List.length input_shape in
  ax <- axis_list self ;;
  reduction_axes <- reduction_axes_of self ax ndims ;;
  broadcast_shape <- broadcast_shape_of ax input_shape ;;
  let bc := _broadcast ndims reduction_axes broadcast_shape in
  scale0 <- _broadcast_opt ndims reduction_axes broadcast_shape (gamma vars) ;;
  offset0 <- _broadcast_opt ndims reduction_axes broadcast_shape (beta vars) ;;
  training_value <- constant_value training ;;
  ' (mean, variance, scale1, offset1, vars, log) <-
    match training_value with
    | Some false =>
        Ok (moving_mean vars, moving_variance vars, scale0, offset0, vars, [])
    | _ =>
        t <- smart_cond training ;;
        ' (scale1, offset1) <-
          match adjustment self with
          | Some adj =>
              let (adj_scale, adj_bias) := adj (shape inputs) in
              let adj_scale := if t then adj_scale else ones_like adj_scale in
              let adj_bias :=
                if t then adj_bias else zeros_like 0 adj_bias in
              ' (s, o) <- _compose_transforms adj_scale adj_bias
                            scale0 offset0 ;;
              Ok (Some s, Some o)
          | None => Ok (scale0, offset0)
          end ;;
        let keep_dims := is_some (virtual_batch_size self)
                         || (1 <? List.length ax)%nat in
        ' (mean, variance) <-
          _moments 0 nn_moments e inputs reduction_axes keep_dims ;;
        let mean := if t then mean else moving_mean vars in
        let variance := if t then variance else moving_variance vars in
        ' (new_mean, new_variance) <-
          (if is_some (virtual_batch_size self) then
             nm <- reduce_mean mean [1%nat] true ;;
             nv <- reduce_mean variance [1%nat] true ;;
             Ok (nm, nv)
           else Ok (mean, variance)) ;;
        input_batch_size <- batch_size_of e inputs ;;
        ' (scale2, offset2, new_mean, new_variance, vars) <-
          (if renorm self then
             ' (r, d, nm, nv, vars') <-
               _renorm_correction_and_moments self vars new_mean
                 new_variance training input_batch_size ;;
             r <- bc r ;;
             d <- bc d ;;
             ' (s, o) <- _compose_transforms r d scale1 offset1 ;;
             Ok (Some s, Some o, nm, nv, vars')
           else Ok (scale1, offset1, new_mean, new_variance, vars)) ;;
        mm <- (if t
               then _assign_moving_average (moving_mean vars) new_mean
                      (momentum self) input_batch_size
               else Ok (moving_mean vars)) ;;
        let vars := set_moving_mean mm vars in
        vars <-
          (if t then
             if renorm self then
               sd0 <- attr (moving_stddev vars) ;;
               sd <- _assign_moving_average sd0
                       (tmap (fun v => sqrt (v + epsilon self)) new_variance)
                       (momentum self) input_batch_size ;;
               mv <- _assign_new_value (moving_variance vars)
                       (tmap (fun s => relu (s * s - epsilon self)) sd) ;;
               Ok (set_moving_variance mv (set_moving_stddev sd vars))
             else
               mv <- _assign_moving_average (moving_variance vars)
                       new_variance (momentum self) input_batch_size ;;
               Ok (set_moving_variance mv vars)
           else Ok vars) ;;
        Ok (mean, variance, scale2, offset2, vars,
            [(MovingMean, new_mean); (MovingVariance, new_variance)])
    end ;;
  mean_b <- bc mean ;;
  variance_b <- bc variance ;;
  outputs <- batch_normalization inputs mean_b variance_b offset1 scale1
               (epsilon self) ;;
  if negb (same_shape (shape outputs) input_shape) then Raise ValueError
  else
  outputs <- undo_virtual_batching self inputs0 outputs ;;
  Ok (outputs, vars, log).

(** An optional parameter tensor that is well formed and stretches to the
    shape [s]. *)
Definition opt_fits (o : option (tensor R)) (s : list nat) : Prop :=
  match o with
  | Some t => wf t /\ fits (shape t) s
  | None => True
  end.

(** The entry of an optional parameter tensor that meets position [idx] of
    the input, [dflt] when the parameter is absent. *)
Definition opt_at (o : option (tensor R)) (dflt : R) (idx : list nat) : R :=
  match o with
  | Some t => get t (bpick (shape t) idx)
  | None => dflt
  end.

(** Inference as the docstring of the layer describes it: the input is
    normalized with [moving_mean] and [moving_variance] (by the fused
    kernel with [is_training=False] on the fused path), and no variable is
    touched. Stated apart from [call], to compare them. *)
Definition inference (e : env) (self : layer) (vars : variables)
    (inputs0 : tensor R) : result (tensor R) :=
  inputs <- virtual_batching self inputs0 ;;
  if truthy (fused self) then
    beta0 <- attr (if center self then beta vars else _beta_const vars) ;;
    gamma0 <- attr (if scale self then gamma vars else _gamma_const vars) ;;
    fmt <- attr (_data_format self) ;;
    ' (outputs, _, _) <-
      fused_batch_norm e inputs gamma0 beta0 (moving_mean vars)
        (moving_variance vars) (epsilon self) false fmt (Some 1) ;;
    undo_virtual_batching self inputs0 outputs
  else
  let ndims := List.length (shape inputs) in
  ax <- axis_list self ;;
  reduction_axes <- reduction_axes_of self ax ndims ;;
  broadcast_shape <- broadcast_shape_of ax (shape inputs) ;;
  let bc := _broadcast ndims reduction_axes broadcast_shape in
  scale0 <- _broadcast_opt ndims reduction_axes broadcast_shape (gamma vars) ;;
  offset0 <- _broadcast_opt ndims reduction_axes broadcast_shape (beta vars) ;;
  mean_b <- bc (moving_mean vars) ;;
  variance_b <- bc (moving_variance vars) ;;
  outputs <- batch_normalization inputs mean_b variance_b offset0 scale0
               (epsilon self) ;;
  if negb (same_shape (shape outputs) (shape inputs)) then Raise ValueError
  else undo_virtual_batching self inputs0 outputs.

End BatchNorm.

(** ** The preprocessing [Normalization] layer

    keras/layers/preprocessing/normalization.py is not among the sources;
    only its tests are. *)

Module Normalization.
Import Tensor Reduce.
Local Open Scope R_scope.

(** Modelled from the spec: the running-statistics tracker of the
    preprocessing layer (its source file is missing). After adapting on a
    shard it holds the number of samples seen, their mean and their
    population variance. *)
Record tracker : Type := mkTracker {
  count : nat;
  mean : R;
  variance : R
}.

(** Modelled from the spec: adapting a tracker on a data shard (the
    [adapt] of the missing preprocessing layer), one feature at a time:
    mean 2 and variance 2/3 on [1; 2; 3]. *)
Definition adapt (shard : list R) : tracker :=
  let m := mean_of shard in
  mkTracker (List.length shard) m
            (mean_of (map (fun x => squared_difference x m) shard)).

Definition total_count (ts : list tracker) : nat :=
  fold_right (fun t n => (count t + n)%nat) O ts.

Definition weight (total : nat) (t : tracker) : R :=
  INR (count t) / INR total.

(** Modelled from the spec: the count-weighted combination of trackers
    ([merge_state] of the missing preprocessing layer). Every tracker weighs
    in with its share of the samples; the variance of a tracker is taken
    around the combined mean. *)
Definition combine (ts : list tracker) : tracker :=
  let n := total_count ts in
  let m := rsum (map (fun t => weight n t * mean t) ts) in
  let v := rsum (map (fun t =>
                        weight n t
                        * (variance t + (mean t - m) * (mean t - m))) ts) in
  mkTracker n m v.

Definition merge_state (self : tracker) (others : list tracker) : tracker :=
  combine (self :: others).

(** Modelled from the spec: the axis specification of the missing
    preprocessing layer is normalized to non-negative indices and validated
    for range and duplicates; the axes outside it are reduced. *)
Definition normalize_axis (ndims : nat) (axis : list Z) : result (list nat) :=
  let ax := BatchNorm.resolve_axis (Z.of_nat ndims) axis in
  if existsb (fun x => (x <? 0) || (Z.of_nat ndims <=? x))%Z ax
  then Raise ValueError
  else if BatchNorm.has_dup ax then Raise ValueError
  else Ok (map Z.to_nat ax).

Definition reduce_axes (ndims : nat) (keep : list nat) : list nat :=
  filter (fun i => negb (in_axes keep i)) (seq 0 ndims).

(** Modelled from the spec: the missing layer adapted on [data] and applied
    to [x]: statistics over the reduced axes, then the normalization
    transform of the spec without scale and offset. *)
Definition adapt_and_call (axis : list Z) (eps : R) (data x : tensor R)
  : result (tensor R) :=
  keep <- normalize_axis (List.length (shape data)) axis ;;
  ' (m, v) <- nn_moments data
                (reduce_axes (List.length (shape data)) keep) true ;;
  BatchNorm.batch_normalization x m v None None eps.

End Normalization.

(** ** Concrete layers, used to exercise the theorems *)

Module Examples.
Import Tensor Reduce BatchNorm.
Local Open Scope R_scope.

(** No distribution strategy, eager execution; the fused kernel is not
    used by these layers. *)
Definition eager_env : env :=
  mkEnv (TrainBool false) false true false
    (fun _ _ _ _ _ _ _ _ _ => Raise InvalidArgumentError).

(** A built layer on the generic path, normalizing the last axis of
    rank-2 inputs with two features. *)
Definition dense_layer (trainable : bool) : layer :=
  mkLayer true (AxisList [1%Z]) (99 / 100) true (1 / 1000) true true zeros
    ones
    zeros ones false [] (99 / 100) (Some false) trainable None None
    (Some float32) None [2%nat].

Definition dense_vars : variables :=
  mkVars (Some (fill [2%nat] 1)) (Some (fill [2%nat] 0)) None None
    (fill [2%nat] 0) (fill [2%nat] 1) None None None.

Definition batch_2x2 : tensor R := mkTensor [2%nat; 2%nat] [1; 2; 3; 4].

(** The same variables with gamma [2; 3] and beta [5; 7]. *)
Definition scaled_vars : variables :=
  mkVars (Some (mkTensor [2%nat] [2; 3])) (Some (mkTensor [2%nat] [5; 7]))
    None None (fill [2%nat] 0) (fill [2%nat] 1) None None None.

(** A layer with a virtual batch size of 2, as [build] leaves it for
    rank-2 inputs with one feature: the axis has moved from 1 to 2. *)
Definition ghost_layer : layer :=
  mkLayer true (AxisList [2%Z]) (99 / 100) true (1 / 1000) true true zeros
    ones
    zeros ones false [] (99 / 100) (Some false) true (Some 2%Z) None
    (Some float32) None [1; 1; 1]%nat.

Definition ghost_vars : variables :=
  mkVars (Some (fill [1; 1; 1]%nat 1)) (Some (fill [1; 1; 1]%nat 0)) None
    None (fill [1; 1; 1]%nat 0) (fill [1; 1; 1]%nat 1) None None None.

Definition batch_4x1 : tensor R := mkTensor [4; 1]%nat [1; 2; 3; 5].

(** A built layer with renorm and all three clipping bounds. *)
Definition renorm_layer : layer :=
  mkLayer true (AxisList [1%Z]) (99 / 100) true (1 / 1000) true true zeros
    ones
    zeros ones true
    [("rmax"%string, 3); ("rmin"%string, 1 / 3); ("dmax"%string, 5)]
    (99 / 100) (Some false) true None None (Some float32) None [2%nat].

Definition renorm_vars : variables :=
  mkVars (Some (fill [2%nat] 1)) (Some (fill [2%nat] 0)) None None
    (fill [2%nat] 0) (fill [2%nat] 1) (Some (fill [2%nat] 1))
    (Some (fill [2%nat] 0)) (Some (fill [2%nat] 1)).

End Examples.

(** ** Broadcasting of parameters and statistics *)

Module Broadcast.
Import Tensor.

(** A shape of at most the rank of [s] that broadcasts to [s]: aligned on
    the right, every dimension is 1 or the dimension of [s]. *)
Definition stretches (sm s : list nat) : Prop :=
  List.length sm <= List.length s
  /\ fits sm (skipn (List.length s - List.length sm) s).

(** The entry of [t] that meets position [idx] of a broadcast result. *)
Definition meet (t : tensor R) (idx : list nat) : R :=
  get t (bidx (shape t) idx).

Definition opt_stretches (o : option (tensor R)) (s : list nat) : Prop :=
  match o with
  | Some t => wf t /\ stretches (shape t) s
  | None => True
  end.

Definition opt_meet (o : option (tensor R)) (dflt : R) (idx : list nat) : R :=
  match o with
  | Some t => meet t idx
  | None => dflt
  end.

(** A well-formed parameter or statistic of shape [s]. *)
Definition spans (s : list nat) (t : tensor R) : Prop :=
  wf t /\ shape t = s.

Definition opt_spans (s : list nat) (o : option (tensor R)) : Prop :=
  match o with
  | Some t => spans s t
  | None => True
  end.

(** The entry of an optional parameter at [i], [dflt] when the parameter
    is absent. *)
Definition param_at (o : option (tensor R)) (dflt : R) (i : list nat) : R :=
  match o with
  | Some t => get t i
  | None => dflt
  end.

End Broadcast.

(** ** [BatchNormalizationBase]: around [build] and [call] *)

Module BatchNormUse.
Import Tensor Reduce BatchNorm.

(** A concrete shape of the declared input shape: it has the declared
    size wherever one is declared. *)
Definition instantiates (dims : list (option nat)) (s : list nat) : Prop :=
  Forall2 (fun d x => match d with Some d' => x = d' | None => True end)
          dims s.

(** The configuration that the fused kernel supports, for a layer whose
    axes are resolved: no renorm, one axis at a channel position of the
    rank, no virtual batches, no adjustment, a 16- or 32-bit float compute
    dtype. *)
Definition fusable (self : layer) (ndims : Z) (ax : list Z) : bool :=
  negb (renorm self)
  && match ax with
     | [a] => if (ndims =? 4)%Z then zmem a [1; 3]%Z
              else if (ndims =? 5)%Z then zmem a [1; 4]%Z
              else false
     | _ => false
     end
  && negb (is_some (virtual_batch_size self))
  && negb (is_some (adjustment self))
  && match compute_dtype self with
     | Some d => fusable_dtype d
     | None => true
     end.

(** [n] training steps in a row that feed the same statistic to
    [_assign_moving_average]. *)
Fixpoint repeated_updates (n : nat) (variable value : tensor R) (momentum : R)
    (inputs_size : option Z) : result (tensor R) :=
  match n with
  | O => Ok variable
  | S n' =>
      v <- _assign_moving_average variable value momentum inputs_size ;;
      repeated_updates n' v value momentum inputs_size
  end.

Definition compute_output_shape {S : Type} (input_shape : S) : S :=
  input_shape.

(** The axes [call] reduces over for the single axis [p] of inputs of rank
    [n]: all the others. *)
Definition others (p n : nat) : list nat :=
  filter (fun i => negb (zmem (Z.of_nat i) [Z.of_nat p])) (seq 0 n).

End BatchNormUse.

(** ** [LayerNormalization] *)

Module LayerNorm.
Import Tensor Reduce.
Local Open Scope Z_scope.

(** The arguments of [__init__]; [dtype] is the dtype of the layer, passed
    on to the base class. *)
Record config : Type := mkConfig {
  c_axis : BatchNorm.axis_t;
  c_epsilon : R;
  c_center : bool;
  c_scale : bool;
  c_beta_initializer : BatchNorm.initializer;
  c_gamma_initializer : BatchNorm.initializer;
  c_dtype : BatchNorm.dtype
}.

(** The attributes of the layer object; [gamma] and [beta] are [None]
    until [build] has created them, and after it when [scale] or [center]
    is off. *)
Record layer : Type := mkLayer {
  axis : BatchNorm.axis_t;
  epsilon : R;
  center : bool;
  scale : bool;
  beta_initializer : BatchNorm.initializer;
  gamma_initializer : BatchNorm.initializer;
  dtype : BatchNorm.dtype;
  _fused : option bool;
  gamma : option (tensor R);
  beta : option (tensor R)
}.

Definition __init__ (c : config) : result layer :=
  match c_axis c with
  | BatchNorm.AxisOther => Raise TypeError
  | ax =>
      Ok (mkLayer ax (c_epsilon c) (c_center c) (c_scale c)
            (c_beta_initializer c) (c_gamma_initializer c) (c_dtype c)
            None None None)
  end.

(** Python's [sorted] on a list of ints. *)
Fixpoint insert (x : Z) (l : list Z) : list Z :=
  match l with
  | [] => [x]
  | y :: l' => if x <=? y then x :: l else y :: insert x l'
  end.

Definition sorted (l : list Z) : list Z := fold_right insert [] l.

Definition is_float32 (d : BatchNorm.dtype) : bool :=
  match d with
  | BatchNorm.float32 => true
  | _ => false
  end.

(** [for dim in self.axis], [sorted(self.axis)]: an int is not iterable. *)
Definition iter_axis (self : layer) : result (list Z) :=
  match axis self with
  | BatchNorm.AxisList l | BatchNorm.AxisTuple l => Ok l
  | _ => Raise TypeError
  end.

(** [_fused_can_be_used]: [axis[-1]] and [axis[0]] of an empty list are an
    IndexError. *)
Definition _fused_can_be_used (self : layer) (ndims : Z) : result bool :=
  ax <- iter_axis self ;;
  match sorted ax with
  | [] => Raise IndexError
  | a0 :: rest =>
      let a_last := last rest a0 in
      let can_use_fused :=
        (a_last =? ndims - 1)
        && (a_last - a0 =? Z.of_nat (List.length (a0 :: rest)) - 1) in
      Ok (if Rlt_dec (epsilon self) (1001 / 100000000) then false
          else if negb (is_float32 (dtype self)) then false
          else can_use_fused)
  end.

(** [add_weight] needs a fully defined shape. *)
Fixpoint defined_shape (s : list (option nat)) : option (list nat) :=
  match s with
  | [] => Some []
  | Some d :: s' => option_map (cons d) (defined_shape s')
  | None :: _ => None
  end.

Definition add_weight (init : BatchNorm.initializer)
    (param_shape : list (option nat)) : result (tensor R) :=
  match defined_shape param_shape with
  | Some s => Ok (init s)
  | None => Raise ValueError
  end.

Definition set_weights (ax : list Z) (g b : option (tensor R)) (f : option bool)
    (l : layer) : layer :=
  mkLayer (BatchNorm.AxisList ax) (epsilon l) (center l) (scale l)
    (beta_initializer l) (gamma_initializer l) (dtype l) f g b.

(** [build] turns an int or a tuple of axes into a list. *)
Definition axis_list (self : layer) : result (list Z) :=
  match axis self with
  | BatchNorm.AxisInt a => Ok [a]
  | BatchNorm.AxisList l | BatchNorm.AxisTuple l => Ok l
  | BatchNorm.AxisOther => Raise TypeError
  end.

(** [build] on an input shape of known rank. *)
Definition build (self : layer) (input_shape : list (option nat))
  : result layer :=
  let ndims := Z.of_nat (List.length input_shape) in
  ax0 <- axis_list self ;;
  let ax := BatchNorm.resolve_axis ndims ax0 in
  if existsb (fun x => (x <? 0) || (ndims <=? x)) ax then Raise ValueError
  else if BatchNorm.has_dup ax then Raise ValueError
  else
  let param_shape := map (fun x => nth (Z.to_nat x) input_shape None) ax in
  g <- (if scale self
        then w <- add_weight (gamma_initializer self) param_shape ;; Ok (Some w)
        else Ok None) ;;
  b <- (if center self
        then w <- add_weight (beta_initializer self) param_shape ;; Ok (Some w)
        else Ok None) ;;
  let self := set_weights ax g b (_fused self) self in
  f <- _fused_can_be_used self ndims ;;
  Ok (set_weights ax g b (Some f) self).

(** [broadcast_shape[dim] = input_shape.dims[dim].value] for every axis; a
    negative index counts from the end. *)
Fixpoint broadcast_shape_of (ax : list Z) (input_shape acc : list nat)
  : result (list nat) :=
  match ax with
  | [] => Ok acc
  | dim :: ax' =>
      let n := Z.of_nat (List.length input_shape) in
      let i := if dim <? 0 then dim + n else dim in
      if (i <? 0) || (n <=? i) then Raise IndexError
      else broadcast_shape_of ax' input_shape
             (BatchNorm.list_set (Z.to_nat i)
                (nth (Z.to_nat i) input_shape 0%nat) acc)
  end.

Fixpoint zlist_eqb (a b : list Z) : bool :=
  match a, b with
  | [], [] => true
  | x :: a', y :: b' => (x =? y) && zlist_eqb a' b'
  | _, _ => false
  end.

(** The nested [_broadcast]. *)
Definition _broadcast (ax : list Z) (ndims : nat) (broadcast_shape : list nat)
    (v : option (tensor R)) : result (option (tensor R)) :=
  match v with
  | Some t =>
      if negb (List.length (shape t) =? ndims)%nat
         && negb (zlist_eqb ax [Z.of_nat ndims - 1])
      then t' <- reshape t (map Z.of_nat broadcast_shape) ;; Ok (Some t')
      else Ok (Some t)
  | None => Ok None
  end.

(** The axes as [tf.nn.moments] takes them: a negative axis counts from the
    end, an axis outside the rank is an error of the tensor engine. *)
Fixpoint moments_axes (ndims : Z) (ax : list Z) : result (list nat) :=
  match ax with
  | [] => Ok []
  | a :: ax' =>
      let i := if a <? 0 then a + ndims else a in
      if (i <? 0) || (ndims <=? i) then Raise InvalidArgumentError
      else rest <- moments_axes ndims ax' ;; Ok (Z.to_nat i :: rest)
  end.

(** The loop of the fused path that collapses the dimensions before the
    axes into [pre_dim] and the dimensions of the axes into [in_dim];
    [dim] is the number of the first dimension of [dims]. *)
Fixpoint collapse (dims : list nat) (dim : Z) (sorted_axis : list Z)
    (pre_dim in_dim : nat) : result (nat * nat) :=
  match dims with
  | [] => Ok (pre_dim, in_dim)
  | d :: dims' =>
      match sorted_axis with
      | [] => Raise IndexError
      | a0 :: _ =>
          if dim <? a0
          then collapse dims' (dim + 1) sorted_axis (pre_dim * d) in_dim
          else if BatchNorm.zmem dim sorted_axis
          then collapse dims' (dim + 1) sorted_axis pre_dim (in_dim * d)
          else Raise AssertionError
      end
  end.

(** The fused kernel [tf.compat.v1.nn.fused_batch_norm] as [call] uses it:
    inputs, scale, offset, epsilon, data format; in training mode, without
    given statistics. *)
Definition kernel : Type :=
  tensor R -> tensor R -> tensor R -> R -> BatchNorm.data_format ->
  result (tensor R * tensor R * tensor R).

Definition call (fused_batch_norm : kernel) (self : layer) (inputs : tensor R)
  : result (tensor R) :=
  let input_shape := shape inputs in
  let ndims := List.length input_shape in
  ax <- iter_axis self ;;
  broadcast_shape <- broadcast_shape_of ax input_shape (repeat 1%nat ndims) ;;
  outputs <-
    (if negb (BatchNorm.truthy (_fused self)) then
       axes <- moments_axes (Z.of_nat ndims) ax ;;
       ' (mean, variance) <- nn_moments inputs axes true ;;
       scale0 <- _broadcast ax ndims broadcast_shape (gamma self) ;;
       offset0 <- _broadcast ax ndims broadcast_shape (beta self) ;;
       BatchNorm.batch_normalization inputs mean variance offset0 scale0
         (epsilon self)
     else
       ' (pre_dim, in_dim) <-
         collapse input_shape 0 (sorted ax) 1%nat 1%nat ;;
       inputs' <- reshape inputs
                    (map Z.of_nat [1%nat; pre_dim; in_dim; 1%nat]) ;;
       ' (outputs, _, _) <-
         fused_batch_norm inputs' (fill [pre_dim] 1%R) (fill [pre_dim] 0%R)
           (epsilon self) BatchNorm.NCHW ;;
       outputs <- reshape outputs (map Z.of_nat input_shape) ;;
       scale0 <- _broadcast ax ndims broadcast_shape (gamma self) ;;
       offset0 <- _broadcast ax ndims broadcast_shape (beta self) ;;
       outputs <- match scale0 with
                  | Some s => binop Rmult outputs s
                  | None => Ok outputs
                  end ;;
       match offset0 with
       | Some o => binop Rplus outputs o
       | None => Ok outputs
       end) ;;
  if negb (BatchNorm.same_shape (shape outputs) input_shape)
  then Raise ValueError
  else Ok outputs.

Definition compute_output_shape {S : Type} (input_shape : S) : S :=
  input_shape.

(** Axes that lie within the rank, as [build] leaves them. *)
Definition valid_axes (n : nat) (ax : list Z) : Prop :=
  Forall (fun a => 0 <= a < Z.of_nat n)%Z ax.

(** The axes are the last dimensions of the input, each one once. *)
Definition trailing_axes (ndims : Z) (ax : list Z) : Prop :=
  forall d, In d ax <-> (ndims - Z.of_nat (List.length ax) <= d < ndims)%Z.

(** The [m] dimensions from [a] on, in ascending order. *)
Definition zseq (a m : nat) : list Z := map Z.of_nat (seq a m).

(** What [call] relies on from the fused kernel in training mode, given
    scale 1 and offset 0: every channel of the NCHW input is normalized
    with its mean and variance over the three other dimensions. *)
Definition normalizes_channels (k : kernel) (x : tensor R) (pre_dim : nat)
    (eps : R) : Prop :=
  exists out bm bv,
    k x (fill [pre_dim] 1%R) (fill [pre_dim] 0%R) eps BatchNorm.NCHW
    = Ok (out, bm, bv)
    /\ shape out = shape x /\ wf out
    /\ forall idx, in_bounds (shape x) idx ->
         let j := mask 0 [0; 2; 3]%nat idx in
         let mu := mean_of (cell x [0; 2; 3]%nat j) in
         let var := mean_of (map (fun t => squared_difference t mu)
                                 (cell x [0; 2; 3]%nat j)) in
         get out idx = ((get x idx - mu) / sqrt (var + eps))%R.

End LayerNorm.

(** ** More concrete layers and inputs *)

Module Scenarios.
Import Tensor Reduce BatchNorm.
Local Open Scope R_scope.

(** A layer as the V2 constructor leaves it, on the generic path. *)
Definition fresh_layer (ax : axis_t) (v : option Z) : layer :=
  mkLayer true ax (99 / 100) true (1 / 1000) true true zeros ones zeros ones
    false [] (99 / 100) (Some false) true v None (Some float32) None [].

(** A layer of the V1 class, as its constructor leaves it by default. *)
Definition v1_layer (ax : axis_t) : layer :=
  mkLayer false ax (99 / 100) true (1 / 1000) true true zeros ones zeros ones
    false [] (99 / 100) (Some true) true None None (Some float32) None [].

(** Batches of two features, and images with three channels first. *)
Definition dense_shape : list (option nat) := [None; Some 2%nat].

Definition image_shape : list (option nat) :=
  [None; Some 3%nat; Some 8%nat; Some 8%nat].

(** A stand-in for the batch-norm kernel that hands back its input and the
    statistics it was given. *)
Definition echo_kernel (x gamma beta mean variance : tensor R) (eps : R)
    (is_training : bool) (fmt : data_format) (factor : option R)
  : result (tensor R * tensor R * tensor R) :=
  Ok (x, mean, variance).

(** Eager execution under a distribution strategy that may hand out empty
    batches. *)
Definition zero_size_env : env :=
  mkEnv (TrainBool false) true true false echo_kernel.

(** Eager execution with that kernel. *)
Definition eager_kernel_env : env :=
  mkEnv (TrainBool false) false true false echo_kernel.

(** Graph mode: the moving averages are updated outside the kernel. *)
Definition graph_env : env :=
  mkEnv (TrainTensor false) false false false echo_kernel.

(** A built layer on the fused path, for images with one channel first. *)
Definition fused_layer : layer :=
  mkLayer true (AxisList [1%Z]) (99 / 100) true (1 / 1000) true true zeros
    ones
    zeros ones false [] (99 / 100) (Some true) true None None (Some float32)
    (Some NCHW) [1%nat].

Definition fused_vars : variables :=
  mkVars (Some (fill [1%nat] 1)) (Some (fill [1%nat] 0)) None None
    (fill [1%nat] 0) (fill [1%nat] 1) None None None.

Definition empty_batch : tensor R := mkTensor [0; 1; 1; 1]%nat [].

Definition image_1x1 : tensor R := mkTensor [1; 1; 1; 1]%nat [7].

(** A [LayerNormalization] layer over the last axis of rank-2 inputs, as
    [build] leaves it, without and with parameters. *)
(** A [LayerNormalization] layer before [build]. *)
Definition unbuilt_layer_norm (ax : axis_t) : LayerNorm.layer :=
  LayerNorm.mkLayer ax (1 / 1000) true true zeros ones float32 None None None.

Definition plain_layer_norm (f : bool) : LayerNorm.layer :=
  LayerNorm.mkLayer (AxisList [1%Z]) (1 / 1000) false false zeros ones
    float32 (Some f) None None.

Definition layer_norm (f : bool) : LayerNorm.layer :=
  LayerNorm.mkLayer (AxisList [1%Z]) (1 / 1000) true true zeros ones
    float32 (Some f) (Some (mkTensor [2%nat] [2; 3]))
    (Some (mkTensor [2%nat] [5; 7])).

(** A stand-in for the fused kernel of [LayerNormalization]: every channel
    of an NCHW tensor is normalized over the other dimensions; scale and
    offset, which [call] sets to 1 and 0, are not applied. *)
Definition channel_normalizer : LayerNorm.kernel :=
  fun x _ _ eps _ =>
    ' (m, v) <- nn_moments x [0; 2; 3]%nat true ;;
    out <- batch_normalization x m v None None eps ;;
    Ok (out, m, v).

End Scenarios.

(** * Properties *)

Unset Implicit Arguments.

(** ** Facts on multi-indices and broadcasting *)

Module TensorFacts.
Import Tensor.

Lemma in_bounds_length s idx :
  in_bounds s idx -> List.length idx = List.length s.
Proof. intros H. induction H; simpl; congruence. Qed.

Lemma in_bounds_size_pos s idx : in_bounds s idx -> 0 < size s.
Proof.
  intros H. induction H as [|i d idx s Hlt _ IH]; simpl; [lia|].
  apply Nat.mul_pos_pos; lia.
Qed.

Lemma ravel_lt s idx : in_bounds s idx -> ravel s idx < size s.
Proof.
  intros H. induction H as [|i d idx s Hlt _ IH]; simpl; [lia|].
  nia.
Qed.

Lemma unravel_ravel s idx : in_bounds s idx -> unravel s (ravel s idx) = idx.
Proof.
  intros H. induction H as [|i d idx s Hlt Hb IH]; simpl; [reflexivity|].
  pose proof (ravel_lt _ _ Hb) as Hr.
  assert (Hq : (i * size s + ravel s idx) / size s = i).
  { rewrite Nat.div_add_l by lia. rewrite Nat.div_small by lia. lia. }
  assert (Hm : (i * size s + ravel s idx) mod size s = ravel s idx).
  { rewrite Nat.add_comm, Nat.Div0.mod_add. apply Nat.mod_small. lia. }
  rewrite Hq, Hm, IH. reflexivity.
Qed.

Lemma unravel_in_bounds s : forall k, k < size s -> in_bounds s (unravel s k).
Proof.
  induction s as [|d s IH]; intros k Hk; simpl in *; [constructor|].
  assert (Hs : 0 < size s) by (destruct (size s); lia).
  constructor.
  - apply Nat.Div0.div_lt_upper_bound. lia.
  - apply IH. apply Nat.mod_upper_bound. lia.
Qed.

Lemma ravel_unravel s : forall k, k < size s -> ravel s (unravel s k) = k.
Proof.
  induction s as [|d s IH]; intros k Hk; simpl in *; [lia|].
  assert (Hs : 0 < size s) by (destruct (size s); lia).
  rewrite IH by (apply Nat.mod_upper_bound; lia).
  pose proof (Nat.div_mod_eq k (size s)). lia.
Qed.

Lemma wf_tabulate s f : wf (tabulate s f).
Proof. unfold wf, tabulate. simpl. now rewrite length_map, length_seq. Qed.

Lemma nth_tabulate s f k :
  k < size s -> nth k (data (tabulate s f)) 0%R = f (unravel s k).
Proof.
  intros Hk. unfold tabulate. simpl.
  rewrite (nth_indep _ 0%R (f (unravel s 0)))
    by now rewrite length_map, length_seq.
  rewrite (map_nth (fun j => f (unravel s j)) (seq 0 (size s)) 0 k).
  now rewrite seq_nth.
Qed.

Lemma get_tabulate s f idx :
  in_bounds s idx -> get (tabulate s f) idx = f idx.
Proof.
  intros H. unfold get. simpl shape.
  rewrite nth_tabulate by now apply ravel_lt.
  now rewrite unravel_ravel.
Qed.

Lemma get_tmap (f : R -> R) t idx :
  wf t -> in_bounds (shape t) idx -> get (tmap f t) idx = f (get t idx).
Proof.
  intros Hw H. unfold get, tmap. simpl.
  pose proof (ravel_lt _ _ H) as Hr. rewrite <- Hw in Hr.
  rewrite (nth_indep _ 0%R (f 0%R)) by now rewrite length_map.
  apply map_nth.
Qed.

Lemma bpick_id s idx : in_bounds s idx -> bpick s idx = idx.
Proof.
  intros H. induction H as [|i d idx s Hlt _ IH]; simpl; [reflexivity|].
  rewrite IH. destruct (Nat.eqb_spec d 1); [f_equal; lia | reflexivity].
Qed.

Lemma bidx_id s idx : in_bounds s idx -> bidx s idx = idx.
Proof.
  intros H. unfold bidx. rewrite (in_bounds_length _ _ H), Nat.sub_diag.
  simpl. now apply bpick_id.
Qed.

Lemma bdim_refl d : bdim d d = Some d.
Proof. unfold bdim. now rewrite Nat.eqb_refl. Qed.

Lemma bzip_refl s : bzip s s = Some s.
Proof.
  induction s as [|d s IH]; simpl; [reflexivity|].
  now rewrite bdim_refl, IH.
Qed.

Lemma bshape_refl s : bshape s s = Some s.
Proof.
  unfold bshape, align. rewrite Nat.max_id, Nat.sub_diag. simpl.
  apply bzip_refl.
Qed.

Lemma binop_same_shape f t1 t2 :
  shape t2 = shape t1 ->
  binop f t1 t2 =
  Ok (tabulate (shape t1) (fun idx =>
        f (get t1 (bidx (shape t1) idx)) (get t2 (bidx (shape t1) idx)))).
Proof. intros E. unfold binop. now rewrite E, bshape_refl. Qed.

Lemma get_binop_same_shape f t1 t2 t idx :
  shape t2 = shape t1 -> binop f t1 t2 = Ok t -> in_bounds (shape t1) idx ->
  shape t = shape t1 /\ get t idx = f (get t1 idx) (get t2 idx).
Proof.
  intros E Hb Hi. rewrite (binop_same_shape f t1 t2 E) in Hb.
  injection Hb as <-. split; [reflexivity|].
  rewrite get_tabulate by assumption. now rewrite bidx_id.
Qed.

End TensorFacts.

(** ** The moving-statistics tracker *)

Module MovingAverageFacts.
Import Tensor Reduce BatchNorm TensorFacts.
Local Open Scope R_scope.

Lemma same_shape_refl s : same_shape s s = true.
Proof.
  unfold same_shape. induction s as [|d s IH]; simpl; [reflexivity|].
  now rewrite Nat.eqb_refl, IH.
Qed.

Lemma same_shape_eq s1 : forall s2, same_shape s1 s2 = true -> s1 = s2.
Proof.
  unfold same_shape. induction s1 as [|d s1 IH]; intros [|e s2] H; simpl in H;
    try discriminate; [reflexivity|].
  apply andb_true_iff in H as [H1 H2]. apply Nat.eqb_eq in H1.
  f_equal; auto.
Qed.

Lemma get_fill s c idx : in_bounds s idx -> get (fill s c) idx = c.
Proof.
  intros H. unfold get, fill. simpl. apply nth_repeat_lt.
  now apply ravel_lt.
Qed.

(** A well-formed tensor is the table of its entries. *)
Lemma tabulate_get t : wf t -> tabulate (shape t) (get t) = t.
Proof.
  intros Hw. destruct t as [s d]. unfold wf in Hw. simpl in Hw.
  unfold tabulate. f_equal. simpl.
  apply (nth_ext _ _ 0 0).
  - now rewrite length_map, length_seq.
  - intros k Hk. rewrite length_map, length_seq in Hk.
    change (map _ _) with (data (tabulate s (get (mkTensor s d)))).
    rewrite nth_tabulate by assumption. unfold get. simpl.
    now rewrite ravel_unravel.
Qed.

Lemma tabulate_ext s f g :
  (forall idx, in_bounds s idx -> f idx = g idx) -> tabulate s f = tabulate s g.
Proof.
  intros H. unfold tabulate. f_equal. apply map_ext_in.
  intros k Hk. apply in_seq in Hk. apply H. apply unravel_in_bounds. lia.
Qed.

(** What [calculate_update_delta] returns for operands of one shape. *)
Lemma calculate_update_delta_spec variable value m inputs_size :
  wf variable -> shape value = shape variable ->
  exists delta,
    calculate_update_delta variable value m inputs_size = Ok delta
    /\ shape delta = shape variable
    /\ forall idx, in_bounds (shape variable) idx ->
         get delta idx =
         match inputs_size with
         | Some n => if (0 <? n)%Z
                     then (get variable idx - get value idx) * (1 - m)
                     else 0
         | None => (get variable idx - get value idx) * (1 - m)
         end.
Proof.
  intros Hw Hs. unfold calculate_update_delta.
  rewrite (binop_same_shape Rminus variable value Hs). cbn [bind].
  set (diff := tabulate _ _).
  assert (Hd : forall idx, in_bounds (shape variable) idx ->
            get (tmap (fun x => x * (1 - m)) diff) idx
            = (get variable idx - get value idx) * (1 - m)).
  { intros idx Hi. rewrite get_tmap; [|apply wf_tabulate|assumption].
    subst diff. now rewrite get_tabulate, bidx_id by assumption. }
  destruct inputs_size as [n|].
  - eexists. split; [reflexivity|]. destruct (0 <? n)%Z; cbn [where_].
    + split; [reflexivity | exact Hd].
    + split; [reflexivity|]. intros idx Hi. now apply get_fill.
  - eexists. split; [reflexivity|]. split; [reflexivity | exact Hd].
Qed.

Lemma assign_sub_spec variable delta :
  shape delta = shape variable ->
  assign_sub variable delta
  = Ok (tabulate (shape variable)
          (fun idx => get variable idx - get delta idx)).
Proof.
  intros Hs. unfold assign_sub. rewrite Hs, same_shape_refl.
  rewrite (binop_same_shape Rminus variable delta Hs). f_equal.
  apply tabulate_ext. intros idx Hi. now rewrite bidx_id.
Qed.

(** C1: with a batch size that is unknown or positive, one call of
    [_assign_moving_average] sets every entry of the variable to
    [old - (old - v) * (1 - m)], which is [m * old + (1 - m) * v]. *)
Theorem assign_moving_average_step variable value m inputs_size :
  wf variable -> shape value = shape variable ->
  (inputs_size = None \/ exists n, inputs_size = Some n /\ (0 < n)%Z) ->
  exists t, _assign_moving_average variable value m inputs_size = Ok t
    /\ shape t = shape variable
    /\ forall idx, in_bounds (shape variable) idx ->
         get t idx
         = get variable idx - (get variable idx - get value idx) * (1 - m)
         /\ get t idx = m * get variable idx + (1 - m) * get value idx.
Proof.
  intros Hw Hs Hn. unfold _assign_moving_average.
  destruct (@calculate_update_delta_spec variable value m inputs_size Hw Hs)
    as (delta & -> & Hsd & Hd).
  cbn [bind]. rewrite (@assign_sub_spec variable delta Hsd).
  eexists. split; [reflexivity|]. split; [reflexivity|].
  intros idx Hi. rewrite get_tabulate, (Hd idx Hi) by assumption.
  assert (E : match inputs_size with
              | Some n => if (0 <? n)%Z
                          then (get variable idx - get value idx) * (1 - m)
                          else 0
              | None => (get variable idx - get value idx) * (1 - m)
              end = (get variable idx - get value idx) * (1 - m)).
  { destruct Hn as [-> | (n & -> & Hp)]; [reflexivity|].
    apply Z.ltb_lt in Hp. now rewrite Hp. }
  rewrite E. split; ring.
Qed.

(** C6: with a known batch size of zero the delta of
    [_assign_moving_average] is zero, and the variable keeps its value. *)
Theorem assign_moving_average_zero_batch variable value m :
  wf variable -> shape value = shape variable ->
  calculate_update_delta variable value m (Some 0%Z)
  = Ok (fill (shape variable) 0)
  /\ _assign_moving_average variable value m (Some 0%Z) = Ok variable.
Proof.
  intros Hw Hs.
  assert (Hc : calculate_update_delta variable value m (Some 0%Z)
               = Ok (fill (shape variable) 0)).
  { unfold calculate_update_delta.
    rewrite (binop_same_shape Rminus variable value Hs). reflexivity. }
  split; [exact Hc|].
  unfold _assign_moving_average. rewrite Hc. cbn [bind].
  rewrite assign_sub_spec by reflexivity. f_equal.
  transitivity (tabulate (shape variable) (get variable));
    [|now apply tabulate_get].
  apply tabulate_ext. intros idx Hi. rewrite get_fill by assumption. ring.
Qed.

Lemma assign_moving_average_ok variable value m inputs_size :
  wf variable -> shape value = shape variable ->
  exists t, _assign_moving_average variable value m inputs_size = Ok t
    /\ shape t = shape variable /\ wf t.
Proof.
  intros Hw Hs. unfold _assign_moving_average.
  destruct (@calculate_update_delta_spec variable value m inputs_size Hw Hs)
    as (delta & -> & Hsd & _).
  cbn [bind]. rewrite (@assign_sub_spec variable delta Hsd).
  eexists. split; [reflexivity|]. split; [reflexivity | apply wf_tabulate].
Qed.

Lemma binop_pointwise f t1 t2 :
  shape t2 = shape t1 ->
  binop f t1 t2
  = Ok (tabulate (shape t1) (fun idx => f (get t1 idx) (get t2 idx))).
Proof.
  intros E. rewrite (binop_same_shape f t1 t2 E). f_equal.
  apply tabulate_ext. intros idx Hi. now rewrite bidx_id.
Qed.

(** C1, at a concrete variable: [1; 3] moves halfway towards [2; 5]. *)
Lemma assign_moving_average_step_witness :
  let variable := mkTensor [2%nat] [1; 3] in
  let value := mkTensor [2%nat] [2; 5] in
  wf variable /\ shape value = shape variable
  /\ exists t, _assign_moving_average variable value (1 / 2) (Some 4%Z) = Ok t
       /\ shape t = shape variable
       /\ forall idx, in_bounds (shape variable) idx ->
            get t idx
            = get variable idx
              - (get variable idx - get value idx) * (1 - 1 / 2)
            /\ get t idx
               = 1 / 2 * get variable idx + (1 - 1 / 2) * get value idx.
Proof.
  intros variable value.
  split; [reflexivity|]. split; [reflexivity|].
  apply (@assign_moving_average_step variable value (1 / 2) (Some 4%Z));
    [reflexivity | reflexivity |].
  right. exists 4%Z. split; [reflexivity | lia].
Defined.

(** C6, at a concrete variable. *)
Lemma assign_moving_average_zero_batch_witness :
  let variable := mkTensor [2%nat] [1; 3] in
  let value := mkTensor [2%nat] [2; 5] in
  wf variable /\ shape value = shape variable
  /\ calculate_update_delta variable value (1 / 2) (Some 0%Z)
     = Ok (fill (shape variable) 0)
  /\ _assign_moving_average variable value (1 / 2) (Some 0%Z) = Ok variable.
Proof.
  intros variable value.
  split; [reflexivity|]. split; [reflexivity|].
  apply (@assign_moving_average_zero_batch variable value (1 / 2));
    reflexivity.
Defined.

End MovingAverageFacts.

(** ** Shapes that stretch, and operations on them *)

Module ShapeFacts.
Import Tensor Reduce BatchNorm TensorFacts MovingAverageFacts.
Local Open Scope R_scope.

Lemma fits_length sm s : fits sm s -> List.length sm = List.length s.
Proof. intros H. induction H; simpl; congruence. Qed.

Lemma fits_refl s : fits s s.
Proof. induction s; constructor; auto. Qed.

Lemma fits_keep_shape axes s : forall i, fits (keep_shape i axes s) s.
Proof.
  induction s as [|d s IH]; intros i; cbn [keep_shape]; constructor.
  - destruct (in_axes axes i); auto.
  - apply IH.
Qed.

Lemma keep_shape_length axes s :
  forall i, List.length (keep_shape i axes s) = List.length s.
Proof. intros i. apply fits_length, fits_keep_shape. Qed.

Lemma fits_trans s1 s2 s3 : fits s1 s2 -> fits s2 s3 -> fits s1 s3.
Proof.
  intros H. revert s3. induction H as [|a b s1 s2 Hab _ IH]; intros s3 H23;
    inversion H23 as [|b' c s2' s3' Hbc H23']; subst; constructor.
  - destruct Hab as [->| ->]; auto.
  - now apply IH.
Qed.

Lemma bdim_fits_r a d : a = 1%nat \/ a = d -> bdim d a = Some d.
Proof.
  unfold bdim. intros [->| ->].
  - destruct (Nat.eqb_spec d 1); [now subst|]. reflexivity.
  - now rewrite Nat.eqb_refl.
Qed.

Lemma bdim_fits_l a d : a = 1%nat \/ a = d -> bdim a d = Some d.
Proof.
  unfold bdim. intros [->| ->].
  - destruct (Nat.eqb_spec 1 d); [now subst|]. reflexivity.
  - now rewrite Nat.eqb_refl.
Qed.

Lemma bzip_fits_r sm s : fits sm s -> bzip s sm = Some s.
Proof.
  induction 1 as [|a d sm s Had _ IH]; cbn [bzip]; [reflexivity|].
  now rewrite (bdim_fits_r a d Had), IH.
Qed.

Lemma bzip_fits_l sm s : fits sm s -> bzip sm s = Some s.
Proof.
  induction 1 as [|a d sm s Had _ IH]; cbn [bzip]; [reflexivity|].
  now rewrite (bdim_fits_l a d Had), IH.
Qed.

Lemma bshape_same_rank s1 s2 :
  List.length s1 = List.length s2 -> bshape s1 s2 = bzip s1 s2.
Proof.
  intros E. unfold bshape, align. rewrite E, Nat.max_id, Nat.sub_diag.
  reflexivity.
Qed.

Lemma bshape_fits_r sm s : fits sm s -> bshape s sm = Some s.
Proof.
  intros H. rewrite bshape_same_rank by (symmetry; now apply fits_length).
  now apply bzip_fits_r.
Qed.

Lemma bshape_fits_l sm s : fits sm s -> bshape sm s = Some s.
Proof.
  intros H. rewrite bshape_same_rank by now apply fits_length.
  now apply bzip_fits_l.
Qed.

Lemma bidx_same_rank s idx :
  List.length idx = List.length s -> bidx s idx = bpick s idx.
Proof. intros E. unfold bidx. now rewrite E, Nat.sub_diag. Qed.

Lemma bpick_in_bounds sm s idx :
  fits sm s -> in_bounds s idx -> in_bounds sm (bpick sm idx).
Proof.
  intros H. revert idx. induction H as [|a d sm s Had _ IH]; intros idx Hi;
    inversion Hi as [|i d' idx' s' Hlt Hi']; subst; cbn [bpick]; constructor.
  - destruct (Nat.eqb_spec a 1); [lia|]. destruct Had; [contradiction|lia].
  - now apply IH.
Qed.

Lemma bpick_bpick sp sm s idx :
  fits sp sm -> fits sm s -> in_bounds s idx ->
  bpick sp (bpick sm idx) = bpick sp idx.
Proof.
  intros H. revert s idx.
  induction H as [|a b sp sm Hab _ IH]; intros s idx Hms Hi;
    inversion Hms as [|b' c sm' s' Hbc Hms']; subst;
    inversion Hi as [|i c' idx' s'' Hlt Hi']; subst; cbn [bpick].
  - reflexivity.
  - f_equal; [|eapply IH; eassumption].
    destruct (Nat.eqb_spec a 1); [reflexivity|].
    destruct (Nat.eqb_spec b 1); [|reflexivity].
    destruct Hab; congruence.
Qed.

(** An operand that stretches to the shape of the other one. *)
Lemma binop_fits_r f t1 t2 :
  fits (shape t2) (shape t1) ->
  binop f t1 t2
  = Ok (tabulate (shape t1) (fun idx =>
          f (get t1 idx) (get t2 (bpick (shape t2) idx)))).
Proof.
  intros H. unfold binop. rewrite (bshape_fits_r _ _ H). f_equal.
  apply tabulate_ext. intros idx Hi. rewrite bidx_id by assumption.
  rewrite bidx_same_rank; [reflexivity|].
  rewrite (in_bounds_length _ _ Hi). symmetry. now apply fits_length.
Qed.

Lemma binop_fits_l f t1 t2 :
  fits (shape t1) (shape t2) ->
  binop f t1 t2
  = Ok (tabulate (shape t2) (fun idx =>
          f (get t1 (bpick (shape t1) idx)) (get t2 idx))).
Proof.
  intros H. unfold binop. rewrite (bshape_fits_l _ _ H). f_equal.
  apply tabulate_ext. intros idx Hi. rewrite (bidx_id (shape t2)) by assumption.
  rewrite bidx_same_rank; [reflexivity|].
  rewrite (in_bounds_length _ _ Hi). symmetry. now apply fits_length.
Qed.

Lemma wf_tmap (f : R -> R) t : wf t -> wf (tmap f t).
Proof. unfold wf, tmap. cbn [data shape]. now rewrite length_map. Qed.

End ShapeFacts.

(** ** Batch statistics *)

Module StatFacts.
Import Tensor Reduce BatchNorm TensorFacts MovingAverageFacts ShapeFacts.
Local Open Scope R_scope.

Lemma reduce_mean_ok t axes :
  in_range (List.length (shape t)) axes = true ->
  reduce_mean t axes true
  = Ok (tabulate (keep_shape 0 axes (shape t))
          (fun idx => mean_of (cell t axes idx))).
Proof. unfold reduce_mean. now intros ->. Qed.

(** [tf.nn.moments] with kept dimensions returns, and what it returns. *)
Lemma nn_moments_ok x axes :
  in_range (List.length (shape x)) axes = true ->
  let ks := keep_shape 0 axes (shape x) in
  let m := tabulate ks (fun idx => mean_of (cell x axes idx)) in
  let sq := tabulate (shape x) (fun idx =>
              squared_difference (get x idx) (get m (bpick ks idx))) in
  nn_moments x axes true
  = Ok (m, tabulate ks (fun idx => mean_of (cell sq axes idx))).
Proof.
  intros Hr ks m sq. unfold nn_moments.
  rewrite (reduce_mean_ok x axes Hr). cbn [bind]. fold ks. fold m.
  rewrite binop_fits_r by (cbn [shape tabulate m]; apply fits_keep_shape).
  cbn [bind]. change (shape m) with ks. fold sq.
  rewrite (reduce_mean_ok sq axes Hr). reflexivity.
Qed.

Lemma idx_eqb_refl idx : idx_eqb idx idx = true.
Proof. apply same_shape_refl. Qed.

Lemma idx_eqb_eq a b : idx_eqb a b = true -> a = b.
Proof. apply same_shape_eq. Qed.

Lemma in_bounds_keep_full axes s :
  Forall (lt 0%nat) s -> forall i idx,
  in_bounds (keep_shape i axes s) idx -> in_bounds s idx.
Proof.
  induction 1 as [|d s Hd _ IH]; intros i idx Hi; cbn [keep_shape] in Hi;
    inversion Hi as [|x d' idx' s' Hlt Hi']; subst; constructor.
  - destruct (in_axes axes i); lia.
  - now apply (IH (S i)).
Qed.

Lemma mask_keep axes s :
  forall i idx, in_bounds (keep_shape i axes s) idx -> mask i axes idx = idx.
Proof.
  induction s as [|d s IH]; intros i idx Hi; cbn [keep_shape] in Hi;
    inversion Hi as [|x d' idx' s' Hlt Hi']; subst; cbn [mask];
    [reflexivity|].
  rewrite (IH (S i) idx' Hi'). destruct (in_axes axes i); [f_equal; lia|].
  reflexivity.
Qed.

(** In a tensor without an empty dimension every cell of a reduction holds
    at least one entry. *)
Lemma cell_nonempty t axes idx :
  Forall (lt 0%nat) (shape t) ->
  in_bounds (keep_shape 0 axes (shape t)) idx ->
  cell t axes idx <> [].
Proof.
  intros Hpos Hi.
  pose proof (in_bounds_keep_full axes _ Hpos 0%nat idx Hi) as Hf.
  unfold cell. intros E. apply map_eq_nil in E.
  assert (Hin : In (ravel (shape t) idx)
                   (filter (fun k => idx_eqb (mask 0 axes (unravel (shape t) k))
                                       idx)
                           (seq 0 (size (shape t))))).
  { apply filter_In. split.
    - apply in_seq. pose proof (ravel_lt _ _ Hf). lia.
    - rewrite (unravel_ravel _ _ Hf), (mask_keep axes _ 0%nat idx Hi).
      apply idx_eqb_refl. }
  rewrite E in Hin. contradiction.
Qed.

Lemma cell_all t axes idx (P : R -> Prop) :
  (forall k, (k < size (shape t))%nat -> P (nth k (data t) 0)) ->
  Forall P (cell t axes idx).
Proof.
  intros H. unfold cell. apply Forall_map, Forall_forall.
  intros k Hk. apply filter_In in Hk as [Hk _]. apply in_seq in Hk.
  apply H. lia.
Qed.

Lemma rsum_const c l : Forall (eq c) l -> rsum l = c * INR (List.length l).
Proof.
  induction 1 as [|x l <- _ IH].
  - unfold rsum. simpl. ring.
  - change (rsum (c :: l)) with (c + rsum l). rewrite IH.
    cbn [List.length]. rewrite S_INR. ring.
Qed.

Lemma mean_of_const c l : Forall (eq c) l -> l <> [] -> mean_of l = c.
Proof.
  intros H Hne. unfold mean_of. rewrite (rsum_const c l H).
  field. destruct l; [contradiction|]. apply not_0_INR. discriminate.
Qed.

Lemma mean_of_zero l : Forall (eq 0) l -> mean_of l = 0.
Proof.
  intros H. unfold mean_of. rewrite (rsum_const 0 l H). unfold Rdiv. ring.
Qed.

Lemma nth_fill s (c : R) k : (k < size s)%nat -> nth k (data (fill s c)) 0 = c.
Proof. intros H. unfold fill. cbn [data]. now apply nth_repeat_lt. Qed.

(** The statistics of a constant tensor: its mean is the constant and its
    variance is zero. *)
Lemma moments_of_constant s c axes :
  Forall (lt 0%nat) s -> in_range (List.length s) axes = true ->
  exists m v,
    nn_moments (fill s c) axes true = Ok (m, v)
    /\ shape m = keep_shape 0 axes s /\ shape v = keep_shape 0 axes s
    /\ wf m /\ wf v
    /\ forall idx, in_bounds (keep_shape 0 axes s) idx ->
         get m idx = c /\ get v idx = 0.
Proof.
  intros Hpos Hr.
  pose proof (nn_moments_ok (fill s c) axes Hr) as H. cbv zeta in H.
  cbn [shape fill] in H.
  eexists. eexists. split; [exact H|].
  split; [reflexivity|]. split; [reflexivity|].
  split; [apply wf_tabulate|]. split; [apply wf_tabulate|].
  assert (Hm : forall idx, in_bounds (keep_shape 0 axes s) idx ->
            mean_of (cell (fill s c) axes idx) = c).
  { intros idx Hi. apply mean_of_const.
    - apply cell_all. intros k Hk. symmetry. now apply nth_fill.
    - now apply cell_nonempty. }
  intros idx Hi. rewrite !get_tabulate by assumption.
  split; [now apply Hm|].
  apply mean_of_zero. apply cell_all. cbn [shape tabulate]. intros k Hk.
  rewrite nth_tabulate by assumption.
  pose proof (unravel_in_bounds s k Hk) as Hu.
  rewrite get_fill by assumption.
  rewrite get_tabulate
    by (apply (bpick_in_bounds _ s); [apply fits_keep_shape | assumption]).
  rewrite Hm
    by (apply (bpick_in_bounds _ s); [apply fits_keep_shape | assumption]).
  unfold squared_difference. ring.
Qed.

End StatFacts.

(** ** The normalization transform *)

Module TransformFacts.
Import Tensor Reduce BatchNorm TensorFacts MovingAverageFacts ShapeFacts
  StatFacts.
Local Open Scope R_scope.

(** [tf.nn.batch_normalization] on statistics and parameters that stretch
    to the input: it returns, and entry by entry it is
    [x * inv + (offset - mean * inv)]. *)
Lemma batch_normalization_spec x mean variance offset scale eps :
  wf mean -> wf variance -> shape variance = shape mean ->
  fits (shape mean) (shape x) ->
  opt_fits scale (shape mean) -> opt_fits offset (shape mean) ->
  exists out,
    batch_normalization x mean variance offset scale eps = Ok out
    /\ shape out = shape x /\ wf out
    /\ forall idx, in_bounds (shape x) idx ->
         let j := bpick (shape mean) idx in
         let inv := / sqrt (get variance j + eps) * opt_at scale 1 idx in
         get out idx
         = get x idx * inv + (opt_at offset 0 idx - get mean j * inv).
Proof.
  intros Hwm Hwv Hsv Hfit Hsc Hof. unfold batch_normalization.
  set (sm := shape mean) in *. set (s := shape x) in *.
  set (inv0 := tmap (fun v => / sqrt (v + eps)) variance).
  assert (Hinv0 : shape inv0 = sm) by exact Hsv.
  (* the scaled inverse deviation *)
  assert (Hinv : exists inv,
            match scale with
            | Some g => binop Rmult inv0 g
            | None => Ok inv0
            end = Ok inv
            /\ shape inv = sm
            /\ forall j, in_bounds sm j ->
                 get inv j = / sqrt (get variance j + eps)
                             * match scale with
                               | Some g => get g (bpick (shape g) j)
                               | None => 1
                               end).
  { assert (H0 : forall j, in_bounds sm j ->
              get inv0 j = / sqrt (get variance j + eps)).
    { intros j Hj. unfold inv0. rewrite get_tmap; [reflexivity|assumption|].
      now rewrite Hsv. }
    destruct scale as [g|].
    - destruct Hsc as [Hwg Hfg].
      rewrite binop_fits_r by (rewrite Hinv0; exact Hfg).
      eexists. split; [reflexivity|]. split; [exact Hinv0|].
      intros j Hj. rewrite Hinv0, get_tabulate by assumption.
      now rewrite H0.
    - exists inv0. split; [reflexivity|]. split; [exact Hinv0|].
      intros j Hj. rewrite H0 by assumption. ring. }
  destruct Hinv as (inv & -> & Hsi & Hgi). cbn [bind].
  rewrite (binop_fits_r Rmult x inv) by (rewrite Hsi; exact Hfit).
  cbn [bind]. fold s.
  rewrite (binop_fits_r Rmult mean inv) by (rewrite Hsi; apply fits_refl).
  cbn [bind]. fold sm. rewrite Hsi.
  set (mi := tabulate sm _).
  assert (Hshift : exists shift,
            match offset with
            | Some o => binop Rminus o mi
            | None => Ok (tmap Ropp mi)
            end = Ok shift
            /\ shape shift = sm
            /\ forall j, in_bounds sm j ->
                 get shift j
                 = match offset with
                   | Some o => get o (bpick (shape o) j)
                   | None => 0
                   end - get mean j * get inv j).
  { assert (Hmi : forall j, in_bounds sm j ->
              get mi j = get mean j * get inv j).
    { intros j Hj. unfold mi. rewrite get_tabulate by assumption.
      rewrite bpick_id by assumption. reflexivity. }
    destruct offset as [o|].
    - destruct Hof as [Hwo Hfo].
      rewrite binop_fits_l by exact Hfo.
      eexists. split; [reflexivity|]. split; [reflexivity|].
      intros j Hj. cbn [shape mi tabulate].
      rewrite get_tabulate by assumption. now rewrite Hmi.
    - eexists. split; [reflexivity|]. split; [reflexivity|].
      intros j Hj. rewrite get_tmap; [|apply wf_tabulate|assumption].
      rewrite Hmi by assumption. ring. }
  destruct Hshift as (shift & -> & Hss & Hgs). cbn [bind].
  rewrite binop_fits_r by (cbn [shape tabulate]; rewrite Hss; exact Hfit).
  cbn [shape tabulate]. rewrite Hss.
  eexists. split; [reflexivity|]. split; [reflexivity|].
  split; [apply wf_tabulate|].
  intros idx Hi. cbv zeta.
  pose proof (bpick_in_bounds sm s idx Hfit Hi) as Hj.
  rewrite !get_tabulate by assumption.
  rewrite (Hgs _ Hj), (Hgi _ Hj).
  assert (Es : match scale with
               | Some g => get g (bpick (shape g) (bpick sm idx))
               | None => 1
               end = opt_at scale 1 idx).
  { destruct scale as [g|]; [|reflexivity]. destruct Hsc as [_ Hfg].
    unfold opt_at. now rewrite (bpick_bpick _ sm s idx Hfg Hfit Hi). }
  assert (Eo : match offset with
               | Some o => get o (bpick (shape o) (bpick sm idx))
               | None => 0
               end = opt_at offset 0 idx).
  { destruct offset as [o|]; [|reflexivity]. destruct Hof as [_ Hfo].
    unfold opt_at. now rewrite (bpick_bpick _ sm s idx Hfo Hfit Hi). }
  rewrite Es, Eo. reflexivity.
Qed.

(** In exact arithmetic a constant input has its constant as mean and
    zero variance; with [epsilon > 0] the deviation [sqrt (0 + epsilon)]
    is positive, the centered input is zero, and the transform returns
    beta at every position. The engine computes the mean in the float
    dtype, where the mean of a constant batch need not be the constant:
    this is a fact of the real-valued model, not of the rounded results. *)
Theorem constant_input_gives_beta s c axes eps beta scale :
  Forall (lt 0%nat) s -> in_range (List.length s) axes = true -> 0 < eps ->
  wf beta -> fits (shape beta) (keep_shape 0 axes s) ->
  opt_fits scale (keep_shape 0 axes s) ->
  exists m v out,
    nn_moments (fill s c) axes true = Ok (m, v)
    /\ batch_normalization (fill s c) m v (Some beta) scale eps = Ok out
    /\ shape out = s
    /\ forall idx, in_bounds s idx ->
         get v (bpick (shape v) idx) = 0
         /\ 0 < sqrt (get v (bpick (shape v) idx) + eps)
         /\ get (fill s c) idx - get m (bpick (shape m) idx) = 0
         /\ get out idx = get beta (bpick (shape beta) idx).
Proof.
  intros Hpos Hr Heps Hwb Hfb Hsc.
  destruct (moments_of_constant s c axes Hpos Hr)
    as (m & v & Hmv & Hsm & Hsv & Hwm & Hwv & Hg).
  assert (Hfit : fits (shape m) (shape (fill s c)))
    by (rewrite Hsm; apply fits_keep_shape).
  assert (Hsc' : opt_fits scale (shape m)) by now rewrite Hsm.
  assert (Hof : opt_fits (Some beta) (shape m))
    by (split; [assumption | now rewrite Hsm]).
  destruct (batch_normalization_spec (fill s c) m v (Some beta) scale eps
              Hwm Hwv (eq_trans Hsv (eq_sym Hsm)) Hfit Hsc' Hof)
    as (out & Hout & Hso & _ & Hgo).
  exists m, v, out. split; [exact Hmv|]. split; [exact Hout|].
  split; [exact Hso|].
  intros idx Hi.
  assert (Hj : in_bounds (keep_shape 0 axes s) (bpick (shape m) idx)).
  { rewrite Hsm. apply (bpick_in_bounds _ s); [apply fits_keep_shape|].
    assumption. }
  destruct (Hg _ Hj) as [Em Ev].
  rewrite Hsv, <- Hsm, Ev, Em, (get_fill s c idx Hi).
  split; [reflexivity|]. split; [apply sqrt_lt_R0; lra|].
  split; [ring|].
  rewrite (Hgo idx Hi). cbv zeta. rewrite Em, (get_fill s c idx Hi).
  unfold opt_at at 2. ring.
Qed.

(** On a 3 x 4 tensor of zeros, as in the zero-variance test case,
    normalized over the batch dimension: here the float results are exact
    as well. *)
Lemma constant_input_gives_beta_witness :
  let beta := mkTensor [1; 4]%nat [1; 2; 3; 4] in
  Forall (lt 0%nat) [3; 4]%nat
  /\ in_range 2 [0%nat] = true
  /\ 0 < 1 / 1000
  /\ exists m v out,
       nn_moments (fill [3; 4]%nat 0) [0%nat] true = Ok (m, v)
       /\ batch_normalization (fill [3; 4]%nat 0) m v (Some beta) None
            (1 / 1000) = Ok out
       /\ shape out = [3; 4]%nat
       /\ forall idx, in_bounds [3; 4]%nat idx ->
            get out idx = get beta (bpick (shape beta) idx).
Proof.
  intros beta.
  assert (Hpos : Forall (lt 0%nat) [3; 4]%nat) by (repeat constructor).
  assert (Heps : 0 < 1 / 1000) by lra.
  split; [exact Hpos|]. split; [reflexivity|]. split; [exact Heps|].
  assert (Hfb : fits (shape beta) (keep_shape 0 [0%nat] [3; 4]%nat))
    by (repeat constructor; auto).
  destruct (constant_input_gives_beta [3; 4]%nat 0 [0%nat] (1 / 1000) beta
              None Hpos eq_refl Heps eq_refl Hfb I)
    as (m & v & out & Hmv & Hout & Hs & Hg).
  exists m, v, out. split; [exact Hmv|]. split; [exact Hout|].
  split; [exact Hs|].
  intros idx Hi. exact (proj2 (proj2 (proj2 (Hg idx Hi)))).
Defined.

(** The whole of [call] in training on a constant batch, for the layer
    that normalizes the last axis: every row of the output is beta. *)
Lemma call_on_constant_batch :
  exists outputs vars' log,
    call Examples.eager_env (Examples.dense_layer true) Examples.scaled_vars
      (fill [3; 2]%nat 4) (Some (TrainBool true))
    = Ok (outputs, vars', log)
    /\ shape outputs = [3; 2]%nat
    /\ data outputs = [5; 7; 5; 7; 5; 7].
Proof.
  eexists. eexists. eexists. split; [reflexivity|]. split; [reflexivity|].
  cbv - [Rplus Rmult Rminus Ropp Rinv Rdiv sqrt Rmax IZR INR Rlt_dec Rle_dec].
  replace ((4 + (4 + (4 + 0))) / INR 3) with 4 by (cbn [INR]; field).
  set (dev := sqrt _). repeat (f_equal; try ring).
Qed.

End TransformFacts.

(** ** The ghost-batch splitter *)

Module GhostBatchFacts.
Import Tensor Reduce BatchNorm TensorFacts MovingAverageFacts ShapeFacts
  StatFacts TransformFacts Examples.

Lemma zprod_of_nat l : zprod (map Z.of_nat l) = Z.of_nat (size l).
Proof.
  induction l as [|d l IH]; [reflexivity|].
  cbn [map zprod fold_right size]. unfold zprod in IH. rewrite IH. lia.
Qed.

Lemma zprod_app l1 l2 : zprod (l1 ++ l2) = (zprod l1 * zprod l2)%Z.
Proof.
  induction l1 as [|d l1 IH]; cbn [app zprod fold_right].
  - unfold zprod. lia.
  - unfold zprod in *. rewrite IH. lia.
Qed.

Lemma size_app l1 l2 : size (l1 ++ l2) = size l1 * size l2.
Proof.
  induction l1 as [|d l1 IH]; cbn [app size]; [lia|]. rewrite IH. lia.
Qed.

Lemma known_dims_of_nat l : known_dims (map Z.of_nat l) = map Z.of_nat l.
Proof.
  unfold known_dims. induction l as [|d l IH]; [reflexivity|].
  cbn [map filter]. destruct (Z.eqb_spec (Z.of_nat d) (-1)); [lia|].
  cbn [negb]. now rewrite IH.
Qed.

Lemma no_dim_below l : existsb (fun d => (d <? -1)%Z) (map Z.of_nat l) = false.
Proof.
  induction l as [|d l IH]; [reflexivity|]. cbn [map existsb].
  rewrite IH. destruct (Z.ltb_spec (Z.of_nat d) (-1)); [lia|reflexivity].
Qed.

Lemma infer_dims q l :
  map (fun d => if (d =? -1)%Z then q else Z.to_nat d) (map Z.of_nat l) = l.
Proof.
  induction l as [|d l IH]; [reflexivity|]. cbn [map]. rewrite IH.
  destruct (Z.eqb_spec (Z.of_nat d) (-1)); [lia|]. now rewrite Nat2Z.id.
Qed.

(** [tf.reshape] with one dimension left open. *)
Lemma reshape_infer (A : Type) (t : tensor A) pre q post :
  List.length (data t) = size pre * (q * size post) ->
  0 < size pre * size post ->
  reshape t (map Z.of_nat pre ++ (-1)%Z :: map Z.of_nat post)
  = Ok (mkTensor (pre ++ q :: post) (data t)).
Proof.
  intros Hn Hpos. unfold reshape.
  rewrite existsb_app. cbn [existsb]. rewrite !no_dim_below. cbn [orb].
  change ((-1 <? -1)%Z) with false. cbn [orb].
  assert (Hk : known_dims (map Z.of_nat pre ++ (-1)%Z :: map Z.of_nat post)
               = map Z.of_nat pre ++ map Z.of_nat post).
  { unfold known_dims. rewrite filter_app. cbn [filter].
    change (negb (-1 =? -1)%Z) with false. cbv iota.
    fold (known_dims (map Z.of_nat pre)). fold (known_dims (map Z.of_nat post)).
    now rewrite !known_dims_of_nat. }
  rewrite Hk, !length_app. cbn [List.length]. rewrite !length_map.
  destruct (Nat.eqb_spec (List.length pre + List.length post)
              (List.length pre + S (List.length post))); [lia|].
  destruct (Nat.eqb_spec (S (List.length pre + List.length post))
              (List.length pre + S (List.length post))); [|lia].
  rewrite zprod_app, !zprod_of_nat, Hn.
  set (kn := (Z.of_nat (size pre) * Z.of_nat (size post))%Z).
  assert (Hkn : (0 < kn)%Z) by (subst kn; nia).
  assert (Hq : Z.of_nat (size pre * (q * size post)) = (Z.of_nat q * kn)%Z)
    by (subst kn; lia).
  rewrite Hq, Z.mod_mul by lia. rewrite Z.div_mul by lia.
  destruct (Z.ltb_spec 0 kn); [|lia]. cbn [andb Z.eqb].
  f_equal. f_equal. rewrite map_app. cbn [map].
  change ((-1 =? -1)%Z) with true. cbv iota.
  rewrite !infer_dims, Nat2Z.id. reflexivity.
Qed.

Lemma zmem_false_ge a ax :
  (a < 2)%Z -> Forall (fun x => 2 <= x)%Z ax -> zmem a ax = false.
Proof.
  intros Ha H. unfold zmem. induction H as [|x ax Hx _ IH]; [reflexivity|].
  cbn [existsb]. rewrite IH. destruct (Z.eqb_spec a x); [lia|reflexivity].
Qed.

(** The axes [call] reduces over with a virtual batch size: dimension 0 and
    the dimensions from 2 on that are no axis of the layer; dimension 1 is
    deleted from them. *)
Lemma reduction_axes_virtual self ax v r :
  virtual_batch_size self = Some v ->
  Forall (fun x => 2 <= x)%Z ax ->
  reduction_axes_of self ax (S (S r))
  = Ok (0 :: filter (fun i => negb (zmem (Z.of_nat i) ax)) (seq 2 r)).
Proof.
  intros Hv Hax. unfold reduction_axes_of. rewrite Hv. cbn [is_some seq filter].
  rewrite (zmem_false_ge (Z.of_nat 0) ax), (zmem_false_ge (Z.of_nat 1) ax)
    by (assumption || lia).
  reflexivity.
Qed.

Lemma in_range_filter_seq f a r n :
  a + r <= n -> in_range n (filter f (seq a r)) = true.
Proof.
  intros H. unfold in_range. apply forallb_forall. intros i Hi.
  apply filter_In in Hi as [Hi _]. apply in_seq in Hi.
  apply Nat.ltb_lt. lia.
Qed.

Lemma in_axes_spec axes i : in_axes axes i = true <-> In i axes.
Proof.
  unfold in_axes. rewrite existsb_exists. split.
  - intros (x & Hx & E). apply Nat.eqb_eq in E. now subst.
  - intros H. exists i. split; [assumption | apply Nat.eqb_refl].
Qed.

(** A coordinate outside the reduced axes survives [mask]. *)
Lemma mask_keeps axes : forall idx i p,
  in_axes axes (i + p) = false -> nth p (mask i axes idx) 0 = nth p idx 0.
Proof.
  induction idx as [|x idx IH]; intros i p H; cbn [mask].
  - reflexivity.
  - destruct p as [|p].
    + rewrite Nat.add_0_r in H. now rewrite H.
    + cbn [nth]. apply IH. now replace (S i + p) with (i + S p) by lia.
Qed.

Lemma moments_nonzero_batch (A : Type) (zero : A) calc e
    (inputs : tensor A) axes keep b rest :
  shape inputs = b :: rest -> 0 < b ->
  _moments zero calc e inputs axes keep = calc inputs axes keep.
Proof.
  intros Hs Hb. unfold _moments.
  destruct (calc inputs axes keep) as [[m v]|err]; [|reflexivity].
  cbn [bind]. rewrite Hs. destruct (support_zero_size_input e); [|reflexivity].
  destruct (Nat.ltb_spec 0 b); [reflexivity | lia].
Qed.

Lemma trained_constant t :
  smart_cond t = Ok true ->
  constant_value t = Ok (Some true) \/ constant_value t = Ok None.
Proof.
  destruct t as [[|]|z|[|]]; cbn [smart_cond constant_value]; intros H;
    try discriminate; auto.
  destruct (z =? 0)%Z; [discriminate|].
  destruct (z =? 1)%Z; [auto|discriminate].
Qed.

Lemma broadcast_identity ndims ra bs t :
  List.length (shape t) = ndims -> _broadcast ndims ra bs t = Ok t.
Proof. intros H. unfold _broadcast. now rewrite H, Nat.eqb_refl. Qed.

Lemma broadcast_opt_identity ndims ra bs o s :
  opt_fits o s -> List.length s = ndims ->
  _broadcast_opt ndims ra bs o = Ok o.
Proof.
  intros H Hl. destruct o as [t|]; [|reflexivity]. destruct H as [_ Hf].
  cbn [_broadcast_opt]. rewrite broadcast_identity; [reflexivity|].
  rewrite (fits_length _ _ Hf). exact Hl.
Qed.

Lemma broadcast_shape_ok ax s a0 rest :
  ax = a0 :: rest -> (0 <= a0 < Z.of_nat (List.length s))%Z ->
  exists bs, broadcast_shape_of ax s = Ok bs.
Proof.
  intros -> H. unfold broadcast_shape_of.
  destruct (Z.ltb_spec a0 0); [lia|].
  destruct (Z.ltb_spec a0 0); [lia|].
  destruct (Z.leb_spec (Z.of_nat (List.length s)) a0); [lia|].
  cbn [orb]. eexists. reflexivity.
Qed.

Lemma batch_size_ok (A : Type) e (t : tensor A) b rest :
  shape t = b :: rest -> exists bsz, batch_size_of e t = Ok bsz.
Proof.
  intros H. unfold batch_size_of. rewrite H.
  destruct (support_zero_size_input e); eexists; reflexivity.
Qed.

Local Open Scope R_scope.

(** C4, as the code has it: with a virtual batch size V that divides the
    batch, [call] in training reshapes the input to [V, batch/V, ...],
    reduces dimension 0 and the other non-axis dimensions but keeps
    dimension 1, so that the entries with one coordinate in dimension 1
    (a virtual sub-batch) get statistics of their own, normalizes with the
    shared gamma and beta, schedules one update of the moving mean and one
    of the moving variance, fed with the mean over dimension 1 of the
    sub-batch statistics, and reshapes the output to the shape of the
    input. *)
Theorem virtual_batch_call e self vars inputs0 training0 v k rest ax :
  virtual_batch_size self = Some (Z.of_nat v) -> (0 < v)%nat ->
  truthy (fused self) = false -> renorm self = false ->
  adjustment self = None ->
  axis self = AxisList ax -> ax <> [] ->
  Forall (fun a => 2 <= a < Z.of_nat (2 + List.length rest))%Z ax ->
  smart_cond (_get_training_value e self training0) = Ok true ->
  wf inputs0 -> shape inputs0 = (v * k)%nat :: rest -> (0 < size rest)%nat ->
  let s := v :: k :: rest in
  let ra := 0%nat :: filter (fun i => negb (zmem (Z.of_nat i) ax))
                       (seq 2 (List.length rest)) in
  let sm := keep_shape 0 ra s in
  let sp := keep_shape 0 [1%nat] sm in
  wf (moving_mean vars) -> shape (moving_mean vars) = sp ->
  wf (moving_variance vars) -> shape (moving_variance vars) = sp ->
  opt_fits (gamma vars) sm -> opt_fits (beta vars) sm ->
  exists inputs mean variance new_mean new_variance normalized outputs vars'
         input_batch_size,
    virtual_batching self inputs0 = Ok inputs
    /\ shape inputs = s /\ data inputs = data inputs0
    /\ reduction_axes_of self ax (List.length s) = Ok ra
    /\ In 0%nat ra /\ ~ In 1%nat ra
    /\ nn_moments inputs ra true = Ok (mean, variance)
    /\ (forall idx, in_bounds sm idx ->
          get mean idx = mean_of (cell inputs ra idx))
    /\ (forall idx j, (j < size s)%nat ->
          idx_eqb (mask 0 ra (unravel s j)) idx = true ->
          nth 1 (unravel s j) 0%nat = nth 1 idx 0%nat)
    /\ reduce_mean mean [1%nat] true = Ok new_mean
    /\ reduce_mean variance [1%nat] true = Ok new_variance
    /\ batch_normalization inputs mean variance (beta vars) (gamma vars)
         (epsilon self) = Ok normalized
    /\ call e self vars inputs0 training0
       = Ok (outputs, vars',
             [(MovingMean, new_mean); (MovingVariance, new_variance)])
    /\ shape outputs = shape inputs0 /\ data outputs = data normalized
    /\ batch_size_of e inputs = Ok input_batch_size
    /\ _assign_moving_average (moving_mean vars) new_mean (momentum self)
         input_batch_size = Ok (moving_mean vars')
    /\ _assign_moving_average (moving_variance vars) new_variance
         (momentum self) input_batch_size = Ok (moving_variance vars')
    /\ gamma vars' = gamma vars /\ beta vars' = beta vars.
Proof.
  intros Hvb Hv Hfu Hrn Hadj Hax Hne Hrange Htr Hw0 Hs0 Hrest s ra sm sp
    Hwmm Hsmm Hwmv Hsmv Hga Hbe.
  set (inputs := mkTensor s (data inputs0)).
  assert (Hwi : wf inputs).
  { unfold wf, inputs. cbn [data shape s size]. rewrite Hw0, Hs0.
    cbn [size]. lia. }
  (* the two reshapes *)
  assert (Hsplit : virtual_batching self inputs0 = Ok inputs).
  { unfold virtual_batching, original_shape_of. rewrite Hvb, Hs0.
    cbn [skipn].
    change (Z.of_nat v :: (-1)%Z :: map Z.of_nat rest)
      with (map Z.of_nat [v] ++ (-1)%Z :: map Z.of_nat rest).
    rewrite (reshape_infer R inputs0 [v] k rest); [reflexivity| |].
    - rewrite Hw0, Hs0. cbn [size]. lia.
    - cbn [size]. nia. }
  assert (Hundo : forall out, wf out -> shape out = s ->
            undo_virtual_batching self inputs0 out
            = Ok (mkTensor (shape inputs0) (data out))).
  { intros out Hwo Hso. unfold undo_virtual_batching, original_shape_of.
    rewrite Hvb, Hs0. cbn [is_some skipn].
    change ((-1)%Z :: map Z.of_nat rest)
      with (map Z.of_nat [] ++ (-1)%Z :: map Z.of_nat rest).
    rewrite (reshape_infer R out [] (v * k) rest); [reflexivity| |].
    - rewrite Hwo, Hso. cbn [size s]. lia.
    - cbn [size]. lia. }
  (* the reduction axes *)
  assert (Hge : Forall (fun x => 2 <= x)%Z ax).
  { eapply Forall_impl; [|exact Hrange]. cbv beta. intros a Ha. lia. }
  assert (Hra : reduction_axes_of self ax (List.length s) = Ok ra)
    by (apply (reduction_axes_virtual self ax (Z.of_nat v)); assumption).
  assert (Hin : in_range (List.length s) ra = true).
  { unfold ra, in_range. cbn [forallb]. apply andb_true_iff. split.
    - reflexivity.
    - apply (in_range_filter_seq _ 2 (List.length rest)).
      cbn [s List.length]. lia. }
  assert (H1 : in_axes ra 1 = false).
  { destruct (in_axes ra 1) eqn:E; [|reflexivity].
    apply in_axes_spec in E. destruct E as [E|E]; [discriminate|].
    apply filter_In in E as [E _]. apply in_seq in E. lia. }
  (* the statistics *)
  pose proof (nn_moments_ok inputs ra Hin) as Hmom. cbv zeta in Hmom.
  change (shape inputs) with s in Hmom. fold sm in Hmom.
  set (mean := tabulate sm (fun idx => mean_of (cell inputs ra idx))) in *.
  set (variance := tabulate sm _) in Hmom.
  assert (Hrm : in_range (List.length sm) [1%nat] = true).
  { unfold sm. rewrite keep_shape_length. reflexivity. }
  pose proof (reduce_mean_ok mean [1%nat] Hrm) as Hnm.
  pose proof (reduce_mean_ok variance [1%nat] Hrm) as Hnv.
  change (keep_shape 0 [1%nat] (shape mean)) with sp in Hnm.
  change (keep_shape 0 [1%nat] (shape variance)) with sp in Hnv.
  set (new_mean := tabulate sp _) in Hnm.
  set (new_variance := tabulate sp _) in Hnv.
  destruct (batch_size_ok R e inputs v (k :: rest) eq_refl) as (bsz & Hbs).
  destruct (assign_moving_average_ok (moving_mean vars) new_mean
              (momentum self) bsz Hwmm (eq_sym Hsmm)) as (mm & Hmm & _ & _).
  destruct (assign_moving_average_ok (moving_variance vars) new_variance
              (momentum self) bsz Hwmv (eq_sym Hsmv)) as (mv & Hmv & _ & _).
  (* the transform *)
  destruct (batch_normalization_spec inputs mean variance (beta vars)
              (gamma vars) (epsilon self) (wf_tabulate _ _) (wf_tabulate _ _)
              eq_refl (fits_keep_shape ra s 0) Hga Hbe)
    as (normalized & Hbn & Hsn & Hwn & _).
  exists inputs, mean, variance, new_mean, new_variance, normalized,
    (mkTensor (shape inputs0) (data normalized)),
    (set_moving_variance mv (set_moving_mean mm vars)), bsz.
  split; [exact Hsplit|]. split; [reflexivity|]. split; [reflexivity|].
  split; [exact Hra|]. split; [now left|].
  split; [intros E; apply in_axes_spec in E; congruence|].
  split; [exact Hmom|].
  split; [intros idx Hi; unfold mean; now rewrite get_tabulate|].
  split.
  { intros idx j Hj E. apply idx_eqb_eq in E. rewrite <- E.
    symmetry. now apply mask_keeps. }
  split; [exact Hnm|]. split; [exact Hnv|]. split; [exact Hbn|].
  split.
  2:{ split; [reflexivity|]. split; [reflexivity|]. split; [exact Hbs|].
      split; [exact Hmm|]. split; [exact Hmv|]. split; reflexivity. }
  (* running [call] *)
  assert (Hlen : List.length sm = List.length (shape inputs))
    by (unfold sm; apply keep_shape_length).
  destruct ax as [|a0 ax']; [contradiction|].
  assert (Ha0 : (0 <= a0 < Z.of_nat (List.length (shape inputs)))%Z).
  { inversion Hrange as [|? ? Ha _]; subst. cbn [shape inputs s List.length].
    cbn [Nat.add] in Ha. lia. }
  destruct (broadcast_shape_ok (a0 :: ax') (shape inputs) a0 ax' eq_refl Ha0)
    as (bs & Hbsh).
  unfold call. cbv zeta. rewrite Hsplit. cbn [bind]. rewrite Hfu.
  unfold axis_list. rewrite Hax. cbn [bind].
  change (List.length (shape inputs)) with (List.length s).
  rewrite Hra. cbn [bind].
  change (List.length s) with (List.length (shape inputs)).
  rewrite Hbsh. cbn [bind].
  rewrite (broadcast_opt_identity _ ra bs (gamma vars) sm Hga Hlen).
  rewrite (broadcast_opt_identity _ ra bs (beta vars) sm Hbe Hlen).
  cbn [bind].
  rewrite Hadj, Hvb, Hrn. cbn [is_some orb].
  rewrite (moments_nonzero_batch R 0 nn_moments e inputs ra true v (k :: rest)
             eq_refl Hv).
  rewrite Hmom, Hbs.
  destruct (trained_constant _ Htr) as [-> | ->]; cbn [bind];
    rewrite Htr; cbn [bind]; rewrite Hnm, Hnv; cbn [bind];
    rewrite Hmm; cbn [bind moving_variance set_moving_mean];
    rewrite Hmv; cbn [bind];
    rewrite !broadcast_identity
      by (cbn [shape mean variance tabulate]; exact Hlen);
    cbn [bind]; rewrite Hbn; cbn [bind];
    rewrite Hsn, same_shape_refl; cbn [negb];
    rewrite (Hundo normalized Hwn Hsn); reflexivity.
Qed.

Lemma ghost_layer_built :
  construct_and_build true
    (with_virtual_batch_size (Some 2%Z) default_config)
    (Some [None; Some 1%nat])
  = Ok (ghost_layer, ghost_vars).
Proof. reflexivity. Qed.

(** C4 as stated fails: dimension 1 is not among the reduced axes. On the
    batch [1; 2; 3; 5] split with V = 2 the two sub-batches have the means
    2 and 7/2; with dimension 1 reduced as well both would have 11/4. *)
Lemma virtual_dimension_not_reduced :
  let inputs := mkTensor [2; 2; 1]%nat [1; 2; 3; 5] in
  virtual_batching ghost_layer batch_4x1 = Ok inputs
  /\ reduction_axes_of ghost_layer [2%Z] 3 = Ok [0%nat]
  /\ ~ In 1%nat [0%nat]
  /\ (exists mean variance,
        nn_moments inputs [0%nat] true = Ok (mean, variance)
        /\ get mean [0; 0; 0]%nat = 2 /\ get mean [0; 1; 0]%nat = 7 / 2)
  /\ (exists mean variance,
        nn_moments inputs [0; 1]%nat true = Ok (mean, variance)
        /\ get mean [0; 0; 0]%nat = 11 / 4).
Proof.
  intros inputs. split; [reflexivity|]. split; [reflexivity|].
  split; [intros [H|[]]; discriminate|].
  split.
  - pose proof (nn_moments_ok inputs [0%nat] eq_refl) as H. cbv zeta in H.
    eexists. eexists. split; [exact H|].
    rewrite !get_tabulate by (repeat constructor).
    change (cell inputs [0%nat] [0; 0; 0]%nat) with [1; 3].
    change (cell inputs [0%nat] [0; 1; 0]%nat) with [2; 5].
    unfold mean_of, rsum. cbn [fold_right List.length INR]. split; field.
  - pose proof (nn_moments_ok inputs [0; 1]%nat eq_refl) as H. cbv zeta in H.
    eexists. eexists. split; [exact H|].
    rewrite !get_tabulate by (repeat constructor).
    change (cell inputs [0; 1]%nat [0; 0; 0]%nat) with [1; 2; 3; 5].
    unfold mean_of, rsum. cbn [fold_right List.length INR]. field.
Qed.

(** C4 amended, on the batch of the counterexample. *)
Lemma virtual_batch_call_witness :
  virtual_batch_size ghost_layer = Some (Z.of_nat 2)
  /\ wf batch_4x1 /\ shape batch_4x1 = [(2 * 2)%nat; 1%nat]
  /\ exists outputs vars' new_mean new_variance,
       call eager_env ghost_layer ghost_vars batch_4x1 (Some (TrainBool true))
       = Ok (outputs, vars',
             [(MovingMean, new_mean); (MovingVariance, new_variance)])
       /\ shape outputs = shape batch_4x1
       /\ reduction_axes_of ghost_layer [2%Z] 3 = Ok [0%nat].
Proof.
  split; [reflexivity|]. split; [reflexivity|]. split; [reflexivity|].
  destruct (virtual_batch_call eager_env ghost_layer ghost_vars batch_4x1
              (Some (TrainBool true)) 2 2 [1%nat] [2%Z])
    as (inputs & mean & variance & nm & nv & normalized & outputs & vars'
        & bsz & _ & _ & _ & Hra & _ & _ & _ & _ & _ & _ & _ & _ & Hcall
        & Hshape & _);
    try reflexivity.
  - lia.
  - discriminate.
  - repeat constructor; cbn; lia.
  - cbn. lia.
  - split; [reflexivity|]. repeat constructor; auto.
  - split; [reflexivity|]. repeat constructor; auto.
  - exists outputs, vars', nm, nv. split; [exact Hcall|].
    split; [exact Hshape | exact Hra].
Defined.

End GhostBatchFacts.

(** ** The renormalization corrector *)

Module RenormFacts.
Import Tensor Reduce BatchNorm TensorFacts MovingAverageFacts.
Local Open Scope R_scope.

Ltac case_minmax :=
  unfold Rmax, Rmin;
  repeat match goal with
         | |- context [Rle_dec ?a ?b] =>
             lazymatch a with
             | context [Rle_dec _ _] => fail
             | _ => destruct (Rle_dec a b)
             end
         | |- context [Rlt_dec ?a ?b] =>
             lazymatch b with
             | context [Rle_dec _ _] => fail
             | _ => destruct (Rlt_dec a b)
             end
         end;
  try reflexivity; try lra.

Lemma clip_r_clip_to rmin rmax x :
  ordered rmin rmax -> clip_r rmin rmax x = clip_to rmin rmax x.
Proof.
  unfold ordered, clip_r, clip_to.
  destruct rmin as [lo|], rmax as [hi|]; intros H; case_minmax.
Qed.

Lemma clip_d_clip_to dmax x :
  ordered (option_map Ropp dmax) dmax ->
  clip_d dmax x = clip_to (option_map Ropp dmax) dmax x.
Proof.
  unfold ordered, clip_d, clip_to.
  destruct dmax as [m|]; simpl; intros H; case_minmax.
Qed.

Lemma clip_to_bounds lo hi x :
  ordered lo hi ->
  match lo with Some l => l <= clip_to lo hi x | None => True end
  /\ match hi with Some h => clip_to lo hi x <= h | None => True end.
Proof.
  unfold ordered, clip_to.
  destruct lo as [l|], hi as [h|]; intros H; split; try exact I; case_minmax.
Qed.

(** C2: the renorm corrector takes [stddev = sqrt (variance + epsilon)],
    floors the stored renorm_stddev at [sqrt epsilon], clips
    [r = stddev / renorm_stddev] to [rmin, rmax] and
    [d = (mean - renorm_mean) / renorm_stddev] to [-dmax, dmax] for the
    bounds that are configured, and returns [r = 1], [d = 0] when not
    training. *)
Theorem renorm_correction_spec self vars mean variance training inputs_size
    rm rs t :
  renorm_mean vars = Some rm -> renorm_stddev vars = Some rs ->
  wf mean -> wf variance -> wf rm -> wf rs ->
  shape variance = shape mean -> shape rm = shape mean ->
  shape rs = shape mean ->
  smart_cond training = Ok t ->
  let rmin := dict_get (renorm_clipping self) "rmin" in
  let rmax := dict_get (renorm_clipping self) "rmax" in
  let dmax := dict_get (renorm_clipping self) "dmax" in
  ordered rmin rmax -> ordered (option_map Ropp dmax) dmax ->
  exists r d vars',
    _renorm_correction_and_moments self vars mean variance training
      inputs_size = Ok (r, d, mean, variance, vars')
    /\ shape r = shape mean /\ shape d = shape mean
    /\ forall idx, in_bounds (shape mean) idx ->
         let stddev := sqrt (get variance idx + epsilon self) in
         let renorm_stddev := Rmax (get rs idx) (sqrt (epsilon self)) in
         sqrt (epsilon self) <= renorm_stddev
         /\ get r idx = (if t then clip_to rmin rmax (stddev / renorm_stddev)
                         else 1)
         /\ get d idx = (if t
                         then clip_to (option_map Ropp dmax) dmax
                                ((get mean idx - get rm idx) / renorm_stddev)
                         else 0).
Proof.
  intros Hrm Hrs Hwm Hwv Hwrm Hwrs Hsv Hsrm Hsrs Ht rmin rmax dmax Hr Hd.
  unfold _renorm_correction_and_moments. rewrite Hrm, Hrs. cbn [attr bind].
  rewrite binop_pointwise by (cbn [tmap shape]; congruence).
  cbn [bind]. rewrite (binop_pointwise Rminus mean rm Hsrm). cbn [bind].
  rewrite binop_pointwise by (cbn [tmap shape tabulate]; congruence).
  cbn [bind]. rewrite Ht. cbn [bind].
  destruct (@assign_moving_average_ok rm mean (renorm_momentum self)
              inputs_size Hwrm (eq_sym Hsrm)) as (nm & Hnm & _ & _).
  destruct (@assign_moving_average_ok rs
              (tmap (fun v => sqrt (v + epsilon self)) variance)
              (renorm_momentum self) inputs_size Hwrs)
    as (ns & Hns & _ & _); [cbn [tmap shape]; congruence|].
  assert (Hfloor : forall x,
            sqrt (epsilon self) <= Rmax x (sqrt (epsilon self)))
    by (intros x; apply Rmax_r).
  destruct t; [rewrite Hnm, Hns|]; cbn [bind];
    do 3 eexists; (split; [reflexivity|]);
    (split; [cbn [tmap shape tabulate ones_like zeros_like fill]; congruence|]);
    (split; [cbn [tmap shape tabulate ones_like zeros_like fill]; congruence|]);
    intros idx Hi; cbn zeta; (split; [apply Hfloor|]).
  - rewrite !get_tmap; try apply wf_tabulate; cbn [tmap shape tabulate];
      try (rewrite ?Hsv; assumption).
    rewrite !get_tabulate by (rewrite ?Hsv; assumption).
    rewrite !get_tmap by (rewrite ?Hsv, ?Hsrs; assumption).
    rewrite (@clip_r_clip_to rmin rmax _ Hr), (@clip_d_clip_to dmax _ Hd).
    split; reflexivity.
  - unfold ones_like, zeros_like. cbn [tmap shape tabulate].
    rewrite !get_fill by (rewrite ?Hsv; assumption). split; reflexivity.
Qed.


(** C2 on a layer with all three bounds configured, in training. *)
Lemma renorm_correction_spec_witness :
  let mean := mkTensor [2%nat] [1; 2] in
  let variance := mkTensor [2%nat] [4; 9] in
  let rmin := dict_get (renorm_clipping Examples.renorm_layer) "rmin" in
  let rmax := dict_get (renorm_clipping Examples.renorm_layer) "rmax" in
  let dmax := dict_get (renorm_clipping Examples.renorm_layer) "dmax" in
  ordered rmin rmax /\ ordered (option_map Ropp dmax) dmax
  /\ exists r d vars',
       _renorm_correction_and_moments Examples.renorm_layer
         Examples.renorm_vars mean variance (TrainBool true) None
       = Ok (r, d, mean, variance, vars')
       /\ forall idx, in_bounds [2%nat] idx ->
            get r idx
            = clip_to (Some (1 / 3)) (Some 3)
                (sqrt (get variance idx + 1 / 1000)
                 / Rmax (get (fill [2%nat] 1) idx) (sqrt (1 / 1000)))
            /\ get d idx
               = clip_to (Some (- 5)) (Some 5)
                   ((get mean idx - get (fill [2%nat] 0) idx)
                    / Rmax (get (fill [2%nat] 1) idx) (sqrt (1 / 1000))).
Proof.
  intros mean variance rmin rmax dmax.
  assert (Hr : ordered rmin rmax) by (cbn; lra).
  assert (Hd : ordered (option_map Ropp dmax) dmax) by (cbn; lra).
  split; [exact Hr|]. split; [exact Hd|].
  destruct (renorm_correction_spec Examples.renorm_layer Examples.renorm_vars
              mean variance (TrainBool true) None
              (fill [2%nat] 0) (fill [2%nat] 1) true
              eq_refl eq_refl eq_refl eq_refl eq_refl eq_refl
              eq_refl eq_refl eq_refl eq_refl Hr Hd)
    as (r & d & vars' & Hc & _ & _ & Hg).
  exists r, d, vars'. split; [exact Hc|].
  intros idx Hi. destruct (Hg idx Hi) as (_ & H1 & H2).
  split; [exact H1 | exact H2].
Defined.

End RenormFacts.

(** ** The fused-path selector *)

Module FusedFacts.
Import Tensor Reduce BatchNorm.
Local Open Scope Z_scope.



















End FusedFacts.

(** ** The moment calculator on a zero-size batch *)

Module MomentsFacts.
Import Tensor Reduce BatchNorm.

Lemma fill_all_equal (A : Type) (s : list nat) (c : A) :
  Forall (eq c) (data (fill s c)).
Proof.
  unfold fill. cbn [data]. induction (size s) as [|n IH]; simpl;
    constructor; [reflexivity | exact IH].
Qed.

(** C5: with zero-size-input support active and a batch dimension of size
    zero, [_moments] replaces whatever the calculator returned (NaN
    included) by zeros of the same shapes, for every set of reduction
    axes. *)
Theorem moments_zero_batch (A : Type) (zero : A)
    (calc : tensor A -> list nat -> bool -> result (tensor A * tensor A))
    (e : env) (inputs : tensor A) (reduction_axes : list nat)
    (keep_dims : bool) (rest : list nat) :
  support_zero_size_input e = true ->
  shape inputs = 0%nat :: rest ->
  _moments zero calc e inputs reduction_axes keep_dims
  = (mv <- calc inputs reduction_axes keep_dims ;;
     Ok (fill (shape (fst mv)) zero, fill (shape (snd mv)) zero))
  /\ forall mean variance,
       _moments zero calc e inputs reduction_axes keep_dims
       = Ok (mean, variance) ->
       Forall (eq zero) (data mean) /\ Forall (eq zero) (data variance).
Proof.
  intros He Hs.
  assert (E : _moments zero calc e inputs reduction_axes keep_dims
              = (mv <- calc inputs reduction_axes keep_dims ;;
                 Ok (fill (shape (fst mv)) zero,
                     fill (shape (snd mv)) zero))).
  { unfold _moments. rewrite He, Hs.
    destruct (calc inputs reduction_axes keep_dims) as [[m v]|err];
      reflexivity. }
  split; [exact E|].
  intros mean variance H. rewrite E in H.
  destruct (calc inputs reduction_axes keep_dims) as [[m v]|err];
    [|discriminate].
  cbn [bind fst snd] in H. injection H as <- <-.
  split; apply fill_all_equal.
Qed.

(** C5 where the calculator yields NaN ([None] stands for it): the
    statistics come out as zeros. *)
Lemma moments_zero_batch_witness :
  let e := mkEnv (TrainBool true) true true false
             (fun _ _ _ _ _ _ _ _ _ => Raise InvalidArgumentError) in
  let nan_calc := fun (_ : tensor (option R)) (_ : list nat) (_ : bool) =>
                    Ok (fill [3%nat] (@None R), fill [3%nat] (@None R)) in
  let inputs := mkTensor [0%nat; 3%nat] (@nil (option R)) in
  support_zero_size_input e = true
  /\ shape inputs = [0%nat; 3%nat]
  /\ _moments (Some 0%R) nan_calc e inputs [0%nat] false
     = Ok (fill [3%nat] (Some 0%R), fill [3%nat] (Some 0%R)).
Proof.
  intros e nan_calc inputs. split; [reflexivity|]. split; [reflexivity|].
  exact (proj1 (moments_zero_batch (option R) (Some 0%R) nan_calc e inputs
                  [0%nat] false [3%nat] eq_refl eq_refl)).
Defined.

End MomentsFacts.

(** ** Merging statistics trackers *)

Module TrackerFacts.
Import Tensor Reduce Normalization.
Local Open Scope R_scope.

Lemma rsum_app l1 l2 : rsum (l1 ++ l2) = rsum l1 + rsum l2.
Proof.
  induction l1 as [|x l1 IH]; simpl; [ring|]. unfold rsum in *. simpl.
  rewrite IH. ring.
Qed.

Lemma rsum_cons x l : rsum (x :: l) = x + rsum l.
Proof. reflexivity. Qed.

(** Sum of squared distances to [c], from the first two power sums. *)
Lemma sum_sq_shift c l :
  rsum (map (fun x => squared_difference x c) l)
  = rsum (map (fun x => x * x) l) - 2 * c * rsum l
    + INR (List.length l) * (c * c).
Proof.
  induction l as [|x l IH].
  - simpl. unfold rsum. simpl. ring.
  - cbn [map List.length]. rewrite !rsum_cons, IH, S_INR.
    unfold squared_difference. ring.
Qed.

Lemma INR_length_nonzero (l : list R) : l <> [] -> INR (List.length l) <> 0.
Proof.
  intros H. destruct l as [|x l]; [contradiction|].
  apply not_0_INR. discriminate.
Qed.

(** The [n * (variance + (mean - M)^2)] of a shard is its sum of squared
    distances to [M]. *)
Lemma shard_spread M s :
  s <> [] ->
  INR (count (adapt s))
  * (variance (adapt s) + (mean (adapt s) - M) * (mean (adapt s) - M))
  = rsum (map (fun x => squared_difference x M) s).
Proof.
  intros Hs. pose proof (INR_length_nonzero s Hs) as Hn.
  unfold adapt. cbn [count mean variance]. unfold mean_of.
  rewrite length_map, !sum_sq_shift. field. exact Hn.
Qed.

Lemma total_count_adapt shards :
  total_count (map adapt shards) = List.length (List.concat shards).
Proof.
  induction shards as [|s shards IH]; [reflexivity|].
  cbn [map total_count fold_right List.concat]. rewrite length_app.
  unfold total_count in IH. now rewrite IH.
Qed.

Lemma weighted_means N shards :
  Forall (fun s => s <> []) shards ->
  rsum (map (fun t => INR (count t) / N * mean t) (map adapt shards))
  = rsum (List.concat shards) / N.
Proof.
  induction 1 as [|s shards Hs _ IH].
  - simpl. unfold rsum. simpl. unfold Rdiv. ring.
  - cbn [map List.concat]. rewrite rsum_cons, rsum_app, IH.
    pose proof (INR_length_nonzero s Hs) as Hn.
    unfold adapt at 1 2. cbn [count mean]. unfold mean_of, Rdiv.
    transitivity (INR (List.length s) * / INR (List.length s)
                  * (rsum s * / N)
                  + (rsum (List.concat shards)) * / N); [ring|].
    rewrite Rinv_r by exact Hn. ring.
Qed.

Lemma weighted_spreads N M shards :
  Forall (fun s => s <> []) shards ->
  rsum (map (fun t => INR (count t) / N
                      * (variance t + (mean t - M) * (mean t - M)))
            (map adapt shards))
  = rsum (map (fun x => squared_difference x M) (List.concat shards)) / N.
Proof.
  induction 1 as [|s shards Hs _ IH].
  - simpl. unfold rsum. simpl. unfold Rdiv. ring.
  - cbn [map List.concat]. rewrite map_app, rsum_cons, rsum_app, IH.
    rewrite <- (shard_spread M s Hs). unfold Rdiv. ring.
Qed.

(** C7: trackers adapted on the shards of a dataset and merged by
    [merge_state] hold the count, mean and variance of a tracker adapted on
    the concatenated data. *)
Theorem merge_state_concat (shard : list R) (others : list (list R)) :
  Forall (fun s => s <> []) (shard :: others) ->
  merge_state (adapt shard) (map adapt others)
  = adapt (List.concat (shard :: others)).
Proof.
  intros H. unfold merge_state.
  change (adapt shard :: map adapt others) with (map adapt (shard :: others)).
  set (shards := shard :: others) in *.
  unfold combine, weight. rewrite total_count_adapt.
  rewrite (weighted_means _ shards H).
  rewrite (weighted_spreads _ _ shards H).
  unfold adapt, mean_of. now rewrite length_map.
Qed.

(** C7 on the shards of the spec: [1; 2; 3] and [4; 5] merge to mean 3 and
    variance 2, the population variance of [1; 2; 3; 4; 5]. *)
Lemma merge_state_concat_witness :
  Forall (fun s : list R => s <> []) [[1; 2; 3]; [4; 5]]
  /\ merge_state (adapt [1; 2; 3]) [adapt [4; 5]] = adapt [1; 2; 3; 4; 5]
  /\ mean (adapt [1; 2; 3; 4; 5]) = 3
  /\ variance (adapt [1; 2; 3; 4; 5]) = 2.
Proof.
  assert (H : Forall (fun s : list R => s <> []) [[1; 2; 3]; [4; 5]])
    by (repeat constructor; discriminate).
  split; [exact H|].
  split; [exact (merge_state_concat [1; 2; 3] [[4; 5]] H)|].
  unfold adapt, mean_of, rsum, squared_difference.
  cbn [mean variance map fold_right List.length INR].
  split; field.
Defined.

End TrackerFacts.

(** ** The axis specification is a set *)

Module AxisFacts.
Import Tensor Reduce BatchNorm Normalization.
Local Open Scope Z_scope.

Lemma existsb_perm (A : Type) (f : A -> bool) (l1 l2 : list A) :
  Permutation l1 l2 -> existsb f l1 = existsb f l2.
Proof.
  induction 1 as [|x l l' _ IH|x y l|l l' l'' _ IH1 _ IH2]; cbn [existsb].
  - reflexivity.
  - now rewrite IH.
  - destruct (f x), (f y); reflexivity.
  - congruence.
Qed.

Lemma has_dup_perm l1 l2 : Permutation l1 l2 -> has_dup l1 = has_dup l2.
Proof.
  induction 1 as [|x l l' Hp IH|x y l|l l' l'' _ IH1 _ IH2]; cbn [has_dup].
  - reflexivity.
  - unfold zmem. now rewrite (existsb_perm Z (Z.eqb x) l l' Hp), IH.
  - unfold zmem. cbn [existsb]. rewrite (Z.eqb_sym y x).
    destruct (x =? y), (existsb (Z.eqb x) l), (existsb (Z.eqb y) l),
      (has_dup l); reflexivity.
  - congruence.
Qed.

Lemma reduce_axes_perm ndims keep1 keep2 :
  Permutation keep1 keep2 -> reduce_axes ndims keep1 = reduce_axes ndims keep2.
Proof.
  intros Hp. unfold reduce_axes. apply filter_ext. intros i.
  unfold in_axes. now rewrite (existsb_perm nat (Nat.eqb i) keep1 keep2 Hp).
Qed.

(** The axes [call] of the batch layer reduces over depend on the set of
    its axes only. *)
Lemma reduction_axes_of_perm self ax1 ax2 ndims :
  Permutation ax1 ax2 ->
  reduction_axes_of self ax1 ndims = reduction_axes_of self ax2 ndims.
Proof.
  intros Hp. unfold reduction_axes_of.
  assert (E : filter (fun i => negb (zmem (Z.of_nat i) ax1)) (seq 0 ndims)
              = filter (fun i => negb (zmem (Z.of_nat i) ax2)) (seq 0 ndims)).
  { apply filter_ext. intros i. unfold zmem.
    now rewrite (existsb_perm Z _ ax1 ax2 Hp). }
  now rewrite E.
Qed.

Lemma normalize_axis_perm ndims axis1 axis2 :
  Permutation (resolve_axis (Z.of_nat ndims) axis1)
              (resolve_axis (Z.of_nat ndims) axis2) ->
  match normalize_axis ndims axis1, normalize_axis ndims axis2 with
  | Ok k1, Ok k2 => Permutation k1 k2
  | Raise e1, Raise e2 => e1 = e2
  | _, _ => False
  end.
Proof.
  intros Hp. unfold normalize_axis.
  rewrite (existsb_perm Z _ _ _ Hp), (has_dup_perm _ _ Hp).
  destruct (existsb _ _); [reflexivity|].
  destruct (has_dup _); [reflexivity|].
  now apply Permutation_map.
Qed.

(** C8: two axis specifications that name the same axes, in any order and
    with negative indices or not, give the same normalized output. *)
Theorem axis_order_irrelevant axis1 axis2 eps data x :
  Permutation (resolve_axis (Z.of_nat (List.length (shape data))) axis1)
              (resolve_axis (Z.of_nat (List.length (shape data))) axis2) ->
  adapt_and_call axis1 eps data x = adapt_and_call axis2 eps data x.
Proof.
  intros Hp. unfold adapt_and_call.
  pose proof (normalize_axis_perm _ axis1 axis2 Hp) as H.
  destruct (normalize_axis _ axis1) as [k1|e1],
           (normalize_axis _ axis2) as [k2|e2]; try contradiction.
  - cbn [bind]. now rewrite (reduce_axes_perm _ k1 k2 H).
  - now subst.
Qed.

(** C8 on the tensor of the test, for the four spellings of the axes. *)
Lemma axis_order_irrelevant_witness :
  let data := mkTensor [2; 2; 3]%nat
                [0; 1; 2; 0; 2; 6; 2; 3; 4; 3; 6; 10]%R in
  Permutation (resolve_axis 3 [1; 2]) (resolve_axis 3 [2; 1])
  /\ Permutation (resolve_axis 3 [1; 2]) (resolve_axis 3 [-1; 1])
  /\ adapt_and_call [1; 2] 0%R data data = adapt_and_call [2; 1] 0%R data data
  /\ adapt_and_call [1; 2] 0%R data data
     = adapt_and_call [-1; 1] 0%R data data
  /\ adapt_and_call [1; 2] 0%R data data
     = adapt_and_call [1; -1] 0%R data data.
Proof.
  intros data.
  assert (H1 : Permutation (resolve_axis 3 [1; 2]) (resolve_axis 3 [2; 1]))
    by apply perm_swap.
  assert (H2 : Permutation (resolve_axis 3 [1; 2]) (resolve_axis 3 [-1; 1]))
    by apply perm_swap.
  split; [exact H1|]. split; [exact H2|].
  split; [exact (axis_order_irrelevant [1; 2] [2; 1] 0%R data data H1)|].
  split; [exact (axis_order_irrelevant [1; 2] [-1; 1] 0%R data data H2)|].
  exact (axis_order_irrelevant [1; 2] [1; -1] 0%R data data
           (Permutation_refl _)).
Defined.

End AxisFacts.

(** ** [call] on a layer that is not trainable *)

Module CallFacts.
Import Tensor Reduce BatchNorm Examples.

Lemma training_value_untrainable e self training0 :
  USE_V2_BEHAVIOR self = true -> trainable self = false ->
  _get_training_value e self training0 = TrainBool false.
Proof.
  intros Hv Ht. unfold _get_training_value. now rewrite Hv, Ht.
Qed.

Ltac head_of r :=
  lazymatch r with
  | bind ?r' _ => head_of r'
  | _ => r
  end.

Tactic Notation "step_bind" hyp(H) "as" simple_intropattern(p) :=
  lazymatch type of H with
  | bind ?r _ = Ok _ =>
      let h := head_of r in
      let E := fresh "E" in
      destruct h as [p|] eqn:E; cbn [bind] in H; [|discriminate H]
  end.

(** C10: under V2 behaviour a layer that is not trainable runs [call] as
    inference whatever [training] is passed: the training value is False,
    the input is normalized with the moving statistics, no variable changes
    and no update is scheduled. *)
Theorem untrainable_is_inference e self vars inputs training0 :
  USE_V2_BEHAVIOR self = true -> trainable self = false ->
  _get_training_value e self training0 = TrainBool false
  /\ call e self vars inputs training0
     = call e self vars inputs (Some (TrainBool false))
  /\ forall outputs vars' log,
       call e self vars inputs training0 = Ok (outputs, vars', log) ->
       vars' = vars /\ log = [] /\ inference e self vars inputs = Ok outputs.
Proof.
  intros Hv Ht.
  pose proof (training_value_untrainable e self training0 Hv Ht) as E0.
  pose proof (training_value_untrainable e self (Some (TrainBool false)) Hv Ht)
    as E1.
  split; [exact E0|]. split; [unfold call; now rewrite E0, E1|].
  intros outputs vars' log H. unfold call in H. rewrite E0 in H.
  unfold inference. cbv zeta in H.
  step_bind H as a. cbn [bind].
  destruct (truthy (fused self)).
  - unfold _fused_batch_norm in H.
    step_bind H as beta0. step_bind H as gamma0. step_bind H as bs.
    step_bind H as fmt. cbn [smart_cond bind] in H.
    step_bind H as [[output mean] variance].
    cbn [constant_value bind] in H. step_bind H as out.
    injection H as <- <- <-. repeat split.
    cbn [bind]. rewrite E6. cbn [bind]. exact E7.
  - step_bind H as ax. step_bind H as ra. step_bind H as bshape.
    step_bind H as scale0. step_bind H as offset0.
    cbn [constant_value bind] in H.
    step_bind H as mean_b. step_bind H as variance_b.
    step_bind H as out.
    destruct (negb (same_shape (shape out) (shape a))) eqn:Es; [discriminate|].
    step_bind H as out'. injection H as <- <- <-. repeat split.
    cbn [bind]. rewrite E3. cbn [bind]. rewrite E4. cbn [bind].
    rewrite E5. cbn [bind]. rewrite E6. cbn [bind]. rewrite E7. cbn [bind].
    rewrite E8. cbn [bind]. rewrite E9. cbn [bind]. rewrite Es. exact E10.
Qed.

(** C10 on a concrete layer called with [training=True]. *)
Lemma untrainable_is_inference_witness :
  USE_V2_BEHAVIOR (dense_layer false) = true
  /\ trainable (dense_layer false) = false
  /\ call eager_env (dense_layer false) dense_vars batch_2x2
       (Some (TrainBool true))
     = call eager_env (dense_layer false) dense_vars batch_2x2
         (Some (TrainBool false))
  /\ exists outputs,
       call eager_env (dense_layer false) dense_vars batch_2x2
         (Some (TrainBool true)) = Ok (outputs, dense_vars, [])
       /\ inference eager_env (dense_layer false) dense_vars batch_2x2
          = Ok outputs.
Proof.
  split; [reflexivity|]. split; [reflexivity|].
  destruct (untrainable_is_inference eager_env (dense_layer false) dense_vars
              batch_2x2 (Some (TrainBool true)) eq_refl eq_refl)
    as (_ & Hc & Hi).
  split; [exact Hc|].
  eexists. split; [reflexivity|].
  eapply Hi. reflexivity.
Defined.

End CallFacts.

(** ** Facts on [build]: axes, parameter shapes, the fused choice of V1 *)

Module BuildFacts.
Import Tensor Reduce BatchNorm Broadcast BatchNormUse Examples Scenarios
  TensorFacts MovingAverageFacts ShapeFacts StatFacts TransformFacts
  GhostBatchFacts FusedFacts CallFacts.
Local Open Scope Z_scope.

Lemma zmem_spec x l : zmem x l = true <-> In x l.
Proof.
  unfold zmem. rewrite existsb_exists. split.
  - intros (y & Hy & E). apply Z.eqb_eq in E. now subst.
  - intros H. exists x. split; [assumption | apply Z.eqb_refl].
Qed.

Lemma has_dup_spec l : has_dup l = false <-> NoDup l.
Proof.
  induction l as [|x l IH]; cbn [has_dup].
  - split; [constructor | reflexivity].
  - rewrite orb_false_iff, IH. split.
    + intros [Hx Hl]. constructor; [|assumption].
      intros Hin. apply zmem_spec in Hin. congruence.
    + intros H. inversion H as [|? ? Hx Hl]; subst. split; [|assumption].
      destruct (zmem x l) eqn:E; [|reflexivity].
      apply zmem_spec in E. contradiction.
Qed.

Lemma out_of_range_spec n l :
  existsb (fun x => (x <? 0) || (n <=? x)) l = false
  <-> Forall (fun x => 0 <= x < n) l.
Proof.
  induction l as [|x l IH]; cbn [existsb].
  - split; [constructor | reflexivity].
  - rewrite orb_false_iff, IH, orb_false_iff, Z.ltb_ge, Z.leb_gt. split.
    + intros [[H1 H2] Hl]. constructor; [lia | assumption].
    + intros H. inversion H; subst. split; [lia | assumption].
Qed.

(** [build] rejects an undefined rank, an axis outside the rank and a
    repeated axis: with a ValueError, except that a tuple of axes with a
    negative entry, which [build] cannot resolve in place, ends in a
    TypeError once the rank is known. *)
Theorem build_rejects_bad_axis self input_shape ax :
  axis_list self = Ok ax ->
  let n := rank_of input_shape in
  n = 0
  \/ ~ Forall (fun x => 0 <= x < n) (resolve_axis n ax)
  \/ ~ NoDup (resolve_axis n ax) ->
  build self input_shape
  = Raise (if negb (n =? 0) && is_tuple (axis self)
              && existsb (fun x => x <? 0) ax
           then TypeError else ValueError).
Proof.
  intros Hax n H. unfold build.
  destruct input_shape as [[|d dims]|]; try reflexivity.
  cbn [bind]. rewrite Hax. cbn [bind].
  change (Z.of_nat (List.length (d :: dims))) with n.
  assert (En : (n =? 0) = false).
  { apply Z.eqb_neq. subst n. cbn [rank_of List.length]. lia. }
  rewrite En. cbn [negb andb].
  destruct (is_tuple (axis self) && existsb (fun x => x <? 0) ax);
    [reflexivity|].
  destruct (existsb _ (resolve_axis n ax)) eqn:E1; [reflexivity|].
  destruct (has_dup (resolve_axis n ax)) eqn:E2; [reflexivity|].
  apply out_of_range_spec in E1. apply has_dup_spec in E2.
  destruct H as [H | [H | H]]; try contradiction.
  subst n. cbn [rank_of List.length] in H. lia.
Qed.

(** An axis beyond the rank of the input, as an int and in a tuple, and
    a negative axis beyond the rank in a tuple. *)
Lemma build_rejects_bad_axis_witness :
  axis_list (fresh_layer (AxisInt 5) None) = Ok [5]
  /\ ~ Forall (fun x => 0 <= x < 2) (resolve_axis 2 [5])
  /\ build (fresh_layer (AxisInt 5) None) (Some dense_shape)
     = Raise ValueError
  /\ build (fresh_layer (AxisTuple [5]) None) (Some dense_shape)
     = Raise ValueError
  /\ build (fresh_layer (AxisTuple [-5]) None) (Some dense_shape)
     = Raise TypeError.
Proof.
  assert (H : ~ Forall (fun x => 0 <= x < 2) (resolve_axis 2 [5])).
  { intros H. inversion H as [|? ? Hx _]. cbn in Hx. lia. }
  assert (H' : ~ Forall (fun x => 0 <= x < 2) (resolve_axis 2 [-5])).
  { intros H'. inversion H' as [|? ? Hx _]. cbn in Hx. lia. }
  split; [reflexivity|]. split; [exact H|]. split; [|split].
  - apply (build_rejects_bad_axis (fresh_layer (AxisInt 5) None)
             (Some dense_shape) [5] eq_refl).
    right. left. exact H.
  - apply (build_rejects_bad_axis (fresh_layer (AxisTuple [5]) None)
             (Some dense_shape) [5] eq_refl).
    right. left. exact H.
  - apply (build_rejects_bad_axis (fresh_layer (AxisTuple [-5]) None)
             (Some dense_shape) [-5] eq_refl).
    right. left. exact H'.
Defined.

(** A tuple of axes that [build] cannot write into ends the call; what
    follows is about the other branch. *)
Ltac writable H :=
  match type of H with
  | (if ?c then Raise TypeError else _) = _ =>
      destruct c; [discriminate H|]
  end.

Lemma stored_axes_twice a l l' :
  stored_axes (stored_axes a l) l' = stored_axes a l'.
Proof. now destruct a. Qed.

Lemma stored_axes_list a l :
  is_tuple a = false -> stored_axes a l = AxisList l.
Proof. now destruct a. Qed.

Lemma add_weights_axis self dims ax self' vars :
  add_weights self dims ax = Ok (self', vars) ->
  axis self'
  = stored_axes (axis self)
      (if is_some (virtual_batch_size self)
       then map (fun x => x + 1) ax else ax)
  /\ virtual_batch_size self' = virtual_batch_size self
  /\ fused self' = fused self
  /\ (is_some (virtual_batch_size self) && is_tuple (axis self) = true ->
      ax = []).
Proof.
  unfold add_weights. destruct (axis_dims dims ax) as [ds|]; [|discriminate].
  cbn [bind]. intros H.
  destruct (is_some (virtual_batch_size self)); cbn [negb andb] in H |- *.
  - rewrite andb_false_r in H. cbn [negb andb] in H.
    destruct (is_tuple (axis self)); cbn [andb] in H.
    + destruct ax as [|x ax]; [|discriminate H]. cbn in H.
      injection H as <- _. repeat split; reflexivity.
    + injection H as <- _. repeat split; try reflexivity. discriminate.
  - rewrite andb_false_r in H. cbn [andb] in H.
    injection H as <- _. repeat split; try reflexivity. discriminate.
Qed.

(** Whenever [build] succeeds the rank is defined, the resolved axes lie
    within the rank without repetition, and the layer stores them (as a
    list, or as the tuple that was given); with a virtual batch size,
    that size is positive, no axis is the batch dimension, there is no
    adjustment, and the stored axes are moved up by one. *)
Theorem build_validates_axes self input_shape self' vars :
  build self input_shape = Ok (self', vars) ->
  exists dims ax0,
    input_shape = Some dims /\ dims <> [] /\ axis_list self = Ok ax0
    /\ let n := Z.of_nat (List.length dims) in
       let ax := resolve_axis n ax0 in
       Forall (fun x => 0 <= x < n) ax /\ NoDup ax
       /\ match virtual_batch_size self with
          | Some v =>
              0 < v /\ ~ In 0 ax /\ adjustment self = None
              /\ axis self'
                 = stored_axes (axis self) (map (fun x => x + 1) ax)
          | None => axis self' = stored_axes (axis self) ax
          end.
Proof.
  unfold build. intros H.
  destruct input_shape as [[|d dims]|]; try discriminate H.
  cbn [bind] in H.
  destruct (axis_list self) as [ax0|] eqn:Eax; [|discriminate H].
  cbn [bind] in H.
  destruct (is_tuple (axis self) && existsb (fun x => x <? 0) ax0);
    [discriminate H|].
  set (n := Z.of_nat (List.length (d :: dims))) in *.
  set (ax := resolve_axis n ax0) in *.
  destruct (existsb _ ax) eqn:E1; [discriminate H|].
  destruct (has_dup ax) eqn:E2; [discriminate H|].
  exists (d :: dims), ax0. split; [reflexivity|]. split; [discriminate|].
  split; [reflexivity|]. cbv zeta. fold n. fold ax.
  split; [now apply out_of_range_spec|]. split; [now apply has_dup_spec|].
  cbn [virtual_batch_size set_axis] in H.
  destruct (virtual_batch_size self) as [v|] eqn:Ev.
  - destruct (v <=? 0) eqn:Hv; [discriminate H|].
    destruct (zmem 0 ax) eqn:Hz; [discriminate H|].
    cbn [adjustment set_axis] in H.
    destruct (adjustment self) as [adj|] eqn:Ea; [discriminate H|].
    cbn [is_some bind] in H.
    destruct (select_fused _ n) as [f1|]; [|discriminate H]. cbn [bind] in H.
    destruct (select_data_format _ n f1) as [[f2 fmt]|]; [|discriminate H].
    cbn [bind] in H. apply add_weights_axis in H as [H _].
    cbn [virtual_batch_size set_data_format set_fused set_axis axis] in H.
    rewrite Ev, stored_axes_twice in H. cbn [is_some] in H.
    split; [lia|]. split; [|split; [reflexivity | exact H]].
    intros Hin. apply zmem_spec in Hin. congruence.
  - cbn [bind] in H.
    destruct (select_fused _ n) as [f1|]; [|discriminate H]. cbn [bind] in H.
    destruct (select_data_format _ n f1) as [[f2 fmt]|]; [|discriminate H].
    cbn [bind] in H. apply add_weights_axis in H as [H _].
    cbn [virtual_batch_size set_data_format set_fused set_axis axis] in H.
    rewrite Ev, stored_axes_twice in H. exact H.
Qed.

(** The last axis of rank-2 inputs, with virtual batches of size 2: the
    stored axis is 2. *)
Lemma build_validates_axes_witness :
  exists self' vars,
    build (fresh_layer (AxisInt (-1)) (Some 2)) (Some dense_shape)
    = Ok (self', vars)
    /\ axis self' = AxisList [2]
    /\ NoDup (resolve_axis 2 [-1]).
Proof.
  eexists. eexists. split; [reflexivity|].
  destruct (build_validates_axes (fresh_layer (AxisInt (-1)) (Some 2))
              (Some dense_shape) _ _ eq_refl)
    as (dims & ax0 & Ed & _ & Eax & _ & Hnd & _ & _ & _ & Ha).
  injection Ed as <-. injection Eax as <-.
  split; [exact Ha | exact Hnd].
Defined.

Lemma resolve_axis_nonneg n l :
  existsb (fun x => x <? 0) l = false -> resolve_axis n l = l.
Proof.
  induction l as [|x l IH]; cbn [existsb resolve_axis map]; [reflexivity|].
  intros H. apply orb_false_iff in H as [Hx Hl]. rewrite Hx. f_equal.
  now apply IH.
Qed.

Lemma select_data_format_tuple l n f1 f2 fmt :
  select_data_format (AxisTuple l) n f1 = Ok (f2, fmt) -> f2 = false.
Proof.
  unfold select_data_format. destruct f1; [destruct (n =? 5)|];
    intros H; try discriminate H; now injection H as <- _.
Qed.

(** A tuple of axes stays a tuple, which [build] cannot write into and
    which equals no list: a negative entry ends [build] in a TypeError
    once the rank is known; and whenever [build] succeeds no entry is
    negative, the tuple is stored as it was given, the layer is not fused,
    and with a virtual batch size the tuple is empty. *)
Theorem build_tuple_axis self input_shape l :
  axis self = AxisTuple l ->
  (rank_of input_shape <> 0 -> Exists (fun x => x < 0) l ->
   build self input_shape = Raise TypeError)
  /\ (forall self' vars,
        build self input_shape = Ok (self', vars) ->
        Forall (fun x => 0 <= x) l
        /\ axis self' = AxisTuple l
        /\ fused self' = Some false
        /\ (virtual_batch_size self <> None -> l = [])).
Proof.
  intros Ha. split.
  - intros Hn Hex. unfold build.
    destruct input_shape as [[|d dims]|]; try (now contradiction Hn).
    cbn [bind]. unfold axis_list. rewrite Ha. cbn [bind is_tuple andb].
    replace (existsb (fun x => x <? 0) l) with true; [reflexivity|].
    symmetry. apply existsb_exists. apply Exists_exists in Hex.
    destruct Hex as (x & Hin & Hx). exists x. split; [exact Hin|].
    now apply Z.ltb_lt.
  - intros self' vars H. unfold build in H.
    destruct input_shape as [[|d dims]|]; try discriminate H.
    cbn [bind] in H. unfold axis_list in H. rewrite Ha in H.
    cbn [bind is_tuple andb stored_axes] in H.
    destruct (existsb (fun x => x <? 0) l) eqn:Eneg; [discriminate H|].
    rewrite (resolve_axis_nonneg _ l Eneg) in H.
    match type of H with (if ?c then _ else _) = _ =>
      destruct c; [discriminate H|] end.
    destruct (has_dup l); [discriminate H|].
    cbn [virtual_batch_size adjustment set_axis axis] in H.
    match type of H with bind ?c _ = _ =>
      destruct c; [|discriminate H] end.
    cbn [bind] in H.
    destruct (select_fused _ _) as [f1|]; [|discriminate H].
    cbn [bind] in H.
    destruct (select_data_format _ _ f1) as [[f2 fmt]|] eqn:Esel;
      [|discriminate H].
    apply select_data_format_tuple in Esel. subst f2. cbn [bind] in H.
    apply add_weights_axis in H as (Hax & _ & Hfu & Hemp).
    cbn [virtual_batch_size adjustment set_axis axis set_data_format
         set_fused fused stored_axes is_tuple] in Hax, Hfu, Hemp.
    assert (Hl : virtual_batch_size self <> None -> l = []).
    { intros Hv. apply Hemp.
      destruct (virtual_batch_size self); [reflexivity | contradiction]. }
    split; [|split; [|split; [exact Hfu | exact Hl]]].
    + apply Forall_forall. intros x Hin.
      destruct (Z.ltb_spec x 0) as [Hx|Hx]; [|exact Hx].
      assert (Et : existsb (fun x => x <? 0) l = true).
      { apply existsb_exists. exists x. split; [exact Hin|].
        now apply Z.ltb_lt. }
      congruence.
    + rewrite Hax. destruct (virtual_batch_size self) as [v|];
        cbn [is_some]; [|reflexivity].
      rewrite (Hl ltac:(discriminate)). reflexivity.
Qed.

(** The last axis spelt [(-1,)] cannot be built; the V1 layer with the
    tuple [(1,)] is built on batches of rank 2, on the generic path, and
    rejected on images of rank 4, where the list [[1]] is fused. *)
Lemma build_tuple_axis_witness :
  build (fresh_layer (AxisTuple [-1]) None) (Some dense_shape)
  = Raise TypeError
  /\ (exists self' vars,
        build (v1_layer (AxisTuple [1])) (Some dense_shape)
        = Ok (self', vars)
        /\ axis self' = AxisTuple [1] /\ fused self' = Some false)
  /\ build (v1_layer (AxisTuple [1])) (Some image_shape) = Raise ValueError.
Proof.
  split; [|split].
  - apply (proj1 (build_tuple_axis (fresh_layer (AxisTuple [-1]) None)
                    (Some dense_shape) [-1] eq_refl)).
    + discriminate.
    + constructor. lia.
  - eexists. eexists. split; [reflexivity|].
    destruct (proj2 (build_tuple_axis (v1_layer (AxisTuple [1]))
                       (Some dense_shape) [1] eq_refl) _ _ eq_refl)
      as (_ & Hax & Hfu & _).
    split; [exact Hax | exact Hfu].
  - reflexivity.
Defined.

Lemma instantiates_nth dims s :
  instantiates dims s ->
  forall i d, nth i dims None = Some d -> nth i s 0%nat = d.
Proof.
  induction 1 as [|d0 x dims s Hd _ IH]; intros [|i] d E; cbn in *;
    try discriminate.
  - subst d0. exact Hd.
  - now apply IH.
Qed.

Lemma axis_dims_spec dims s ax ds :
  instantiates dims s -> axis_dims dims ax = Some ds ->
  ds = map (fun x => nth (Z.to_nat x) s 0%nat) ax.
Proof.
  intros Hi. revert ds. induction ax as [|x ax IH]; intros ds H; cbn in H.
  - now injection H as <-.
  - destruct (nth (Z.to_nat x) dims None) as [d|] eqn:Ed; [|discriminate].
    destruct (axis_dims dims ax) as [ds'|]; [|discriminate].
    injection H as <-. cbn [map]. f_equal.
    + symmetry. now apply (instantiates_nth dims s Hi).
    + now apply IH.
Qed.

Lemma axis_dims_defined dims ax ds x :
  axis_dims dims ax = Some ds -> In x ax ->
  exists d, nth (Z.to_nat x) dims None = Some d.
Proof.
  revert ds. induction ax as [|y ax IH]; intros ds H Hin; [contradiction|].
  cbn in H.
  destruct (nth (Z.to_nat y) dims None) as [d|] eqn:Ed; [|discriminate].
  destruct (axis_dims dims ax) as [ds'|]; [|discriminate].
  destruct Hin as [->|Hin]; [now exists d|]. now apply (IH ds').
Qed.

(** The full-rank parameter shape, the input dimension at the axes and 1
    elsewhere, broadcasts to the input. *)
Lemma full_shape_fits dims s ax ds :
  instantiates dims s -> axis_dims dims ax = Some ds ->
  forall pre suf, s = pre ++ suf ->
  fits (map (fun i => if zmem (Z.of_nat i) ax
                      then match nth i dims None with
                           | Some d => d
                           | None => 1%nat
                           end
                      else 1%nat)
            (seq (List.length pre) (List.length suf))) suf.
Proof.
  intros Hi Hds pre suf. revert pre.
  induction suf as [|d suf IH]; intros pre E; cbn [List.length]; [constructor|].
  cbn [seq map]. constructor.
  - destruct (zmem (Z.of_nat (List.length pre)) ax) eqn:Ez; [|now left].
    apply zmem_spec in Ez.
    destruct (axis_dims_defined dims ax ds _ Hds Ez) as (d' & Ed).
    rewrite Nat2Z.id in Ed. rewrite Ed. right.
    rewrite <- (instantiates_nth dims s Hi _ _ Ed), E.
    now rewrite nth_middle.
  - specialize (IH (pre ++ [d])). rewrite length_app in IH. cbn in IH.
    replace (List.length pre + 1)%nat with (S (List.length pre)) in IH by lia.
    apply IH. rewrite E, <- app_assoc. reflexivity.
Qed.

Lemma add_weights_param_shape self dims ax self' vars s :
  add_weights self dims ax = Ok (self', vars) ->
  instantiates dims s -> dims <> [] ->
  match virtual_batch_size self with
  | None =>
      if (List.length ax =? 1)%nat
      then param_shape self' = map (fun x => nth (Z.to_nat x) s 0%nat) ax
      else fits (param_shape self') s
  | Some _ =>
      exists d0 rest, param_shape self' = d0 :: 1%nat :: rest
                      /\ fits (d0 :: rest) s
                      /\ (zmem 0 ax = false -> d0 = 1%nat)
  end.
Proof.
  unfold add_weights. intros H Hi Hne.
  destruct (axis_dims dims ax) as [ds|] eqn:Eds; [|discriminate].
  cbn [bind] in H. cbv zeta in H. writable H. injection H as <- _.
  cbn [param_shape set_param_shape].
  pose proof (full_shape_fits dims s ax ds Hi Eds [] s eq_refl) as Hf.
  cbn [List.length] in Hf.
  rewrite <- (Forall2_length Hi) in Hf.
  destruct (virtual_batch_size self) as [v|]; cbn [is_some negb].
  - rewrite andb_false_r.
    destruct dims as [|d dims]; [contradiction|].
    cbn [List.length seq map] in Hf |- *.
    unfold list_insert. cbn [firstn skipn app].
    eexists. eexists. split; [reflexivity|]. split; [exact Hf|].
    cbn [Z.of_nat]. now intros ->.
  - rewrite andb_true_r.
    destruct (List.length ax =? 1)%nat; [|exact Hf].
    now apply (axis_dims_spec dims s).
Qed.

(** The parameters of a built layer broadcast against every input of the
    declared shape: for one axis (and no virtual batches) the parameter
    shape is the size of that dimension; otherwise it has the dimensions
    of the input at the axes and 1 elsewhere, with one more 1 after the
    batch dimension for virtual batches. *)
Theorem build_param_shape self dims self' vars s ax0 :
  build self (Some dims) = Ok (self', vars) ->
  axis_list self = Ok ax0 ->
  instantiates dims s ->
  let ax := resolve_axis (Z.of_nat (List.length dims)) ax0 in
  match virtual_batch_size self with
  | None =>
      if (List.length ax =? 1)%nat
      then param_shape self' = map (fun x => nth (Z.to_nat x) s 0%nat) ax
      else fits (param_shape self') s
  | Some _ =>
      forall v k, fits (param_shape self') (v :: k :: skipn 1 s)
  end.
Proof.
  intros H Hax Hi ax.
  destruct (build_validates_axes self (Some dims) self' vars H)
    as (dims' & ax0' & Ed & Hne & Hax' & _ & _ & Hv).
  injection Ed as <-. rewrite Hax in Hax'. injection Hax' as <-.
  cbv zeta in Hv. fold ax in Hv.
  unfold build in H. destruct dims as [|d dims]; [contradiction|].
  cbn [bind] in H. rewrite Hax in H. cbn [bind] in H. writable H.
  fold ax in H.
  destruct (existsb _ ax); [discriminate H|].
  destruct (has_dup ax); [discriminate H|].
  match type of H with bind ?c _ = _ => destruct c; [|discriminate H] end.
  cbn [bind] in H.
  match type of H with bind ?c _ = _ =>
    destruct c as [f1|]; [|discriminate H] end.
  cbn [bind] in H.
  match type of H with bind ?c _ = _ =>
    destruct c as [[f2 fmt]|]; [|discriminate H] end.
  cbn [bind] in H.
  pose proof (add_weights_param_shape _ _ _ _ _ s H Hi Hne) as Hp.
  cbn [virtual_batch_size set_data_format set_fused set_axis] in Hp.
  destruct (virtual_batch_size self) as [v|]; [|exact Hp].
  destruct Hp as (d0 & rest & -> & Hf & H1). intros v' k.
  destruct Hv as (_ & H0 & _ & _).
  assert (E1 : d0 = 1%nat).
  { apply H1. destruct (zmem 0 ax) eqn:Ez; [|reflexivity].
    apply zmem_spec in Ez. contradiction. }
  subst d0.
  inversion Hf as [|? ? ? ? Hab Hrest]; subst. cbn [skipn].
  constructor; [now left|]. constructor; [now left | exact Hrest].
Qed.

(** The parameters of that layer have shape [1; 1; 2] and broadcast
    against the input split into virtual batches. *)
Lemma build_param_shape_witness :
  exists self' vars,
    build (fresh_layer (AxisInt (-1)) (Some 2)) (Some dense_shape)
    = Ok (self', vars)
    /\ instantiates dense_shape [4; 2]%nat
    /\ fits (param_shape self') [2; 2; 2]%nat.
Proof.
  assert (Hi : instantiates dense_shape [4; 2]%nat)
    by (repeat constructor).
  eexists. eexists. split; [reflexivity|]. split; [exact Hi|].
  exact (build_param_shape (fresh_layer (AxisInt (-1)) (Some 2)) dense_shape
           _ _ [4; 2]%nat [-1] eq_refl eq_refl Hi 2%nat 2%nat).
Defined.

Lemma axis_dims_some dims ax :
  Forall (fun x => exists d, nth (Z.to_nat x) dims None = Some d) ax ->
  exists ds, axis_dims dims ax = Some ds.
Proof.
  induction 1 as [|x ax (d & Hd) _ (ds & IH)]; [now exists []|].
  cbn [axis_dims]. rewrite Hd, IH. now eexists.
Qed.

Lemma add_weights_ok self dims ax :
  is_tuple (axis self) = false ->
  Forall (fun x => exists d, nth (Z.to_nat x) dims None = Some d) ax ->
  exists self' vars,
    add_weights self dims ax = Ok (self', vars)
    /\ fused self' = fused self.
Proof.
  intros Ht H. destruct (axis_dims_some dims ax H) as (ds & E).
  unfold add_weights. rewrite E. cbn [bind]. cbv zeta.
  rewrite Ht, andb_false_r. cbn [andb]. do 2 eexists.
  split; [reflexivity|]. reflexivity.
Qed.

(** Under V1 behaviour, for an axis given as an int or a list, the
    choice of the fused path never makes [build] fail: with valid axes
    and defined axis dimensions it succeeds, and the layer is fused
    exactly when [fused] was not turned off, the input has rank 4 or 5
    and the configuration is one the kernel supports; otherwise the layer
    falls back to the generic path. *)
Theorem build_v1_falls_back self dims ax0 f :
  USE_V2_BEHAVIOR self = false -> fused self = Some f ->
  is_tuple (axis self) = false ->
  axis_list self = Ok ax0 -> dims <> [] ->
  let n := Z.of_nat (List.length dims) in
  let ax := resolve_axis n ax0 in
  ax <> [] -> Forall (fun x => 0 <= x < n) ax -> NoDup ax ->
  match virtual_batch_size self with
  | Some v => 0 < v /\ ~ In 0 ax /\ adjustment self = None
  | None => True
  end ->
  Forall (fun x => exists d, nth (Z.to_nat x) dims None = Some d) ax ->
  exists self' vars,
    build self (Some dims) = Ok (self', vars)
    /\ fused self' = Some (f && fusable self n ax).
Proof.
  intros Hv1 Hf Ht Hax Hd n ax Hne Hrange Hnd Hvbs Hdims.
  unfold build. destruct dims as [|d0 dims]; [contradiction|].
  cbn [bind]. rewrite Hax. cbn [bind]. rewrite Ht. cbn [andb].
  fold n. fold ax. rewrite (stored_axes_list _ ax Ht).
  apply out_of_range_spec in Hrange. apply has_dup_spec in Hnd.
  rewrite Hrange, Hnd.
  cbn [virtual_batch_size adjustment set_axis axis].
  assert (Evb : match virtual_batch_size self with
                | Some v =>
                    if v <=? 0 then Raise ValueError
                    else if zmem 0 ax then Raise ValueError
                    else if is_some (adjustment self) then Raise ValueError
                    else Ok tt
                | None => Ok tt
                end = Ok tt).
  { destruct (virtual_batch_size self) as [v|]; [|reflexivity].
    destruct Hvbs as (Hv & H0 & Ha).
    destruct (Z.leb_spec v 0); [lia|].
    destruct (zmem 0 ax) eqn:Ez; [apply zmem_spec in Ez; contradiction|].
    now rewrite Ha. }
  rewrite Evb. cbn [bind].
  assert (Esel :
    (f1 <- select_fused (set_axis (AxisList ax) self) n ;;
     select_data_format (AxisList ax) n f1)
    = Ok (f && fusable self n ax,
          snd match select_data_format (AxisList ax) n
                      (f && fusable self n ax) with
              | Ok r => r
              | Raise _ => (false, None)
              end)).
  { unfold select_fused. cbn [fused USE_V2_BEHAVIOR set_axis].
    rewrite Hf, Hv1. destruct f; [|reflexivity]. cbn [andb].
    unfold _fused_can_be_used, _raise_if_fused_cannot_be_used, fusable.
    cbn [renorm axis virtual_batch_size adjustment compute_dtype set_axis].
    destruct (renorm self); [destruct (zmem n [4; 5]); reflexivity|].
    cbn [negb andb bind].
    destruct ax as [|a [|b ax']]; [contradiction| |].
    2:{ cbn [List.length Nat.ltb Nat.leb bind negb].
        destruct (zmem n [4; 5]); reflexivity. }
    cbn [List.length Nat.ltb Nat.leb bind].
    apply out_of_range_spec in Hrange. inversion Hrange as [|? ? Ha _]; subst.
    destruct (Z.eqb_spec n 4) as [E4|N4].
    - rewrite E4 in *. cbn [zmem existsb Z.eqb orb bind].
      assert (Hc : a = 0 \/ a = 1 \/ a = 2 \/ a = 3) by lia.
      destruct Hc as [-> | [-> | [-> | ->]]]; cbn;
        destruct (virtual_batch_size self); cbn; try reflexivity;
        destruct (adjustment self); cbn; try reflexivity;
        destruct (compute_dtype self) as [[| | | |]|]; reflexivity.
    - destruct (Z.eqb_spec n 5) as [E5|N5].
      + rewrite E5 in *. cbn [zmem existsb Z.eqb orb bind].
        assert (Hc : a = 0 \/ a = 1 \/ a = 2 \/ a = 3 \/ a = 4) by lia.
        destruct Hc as [-> | [-> | [-> | [-> | ->]]]]; cbn;
          destruct (virtual_batch_size self); cbn; try reflexivity;
          destruct (adjustment self); cbn; try reflexivity;
          destruct (compute_dtype self) as [[| | | |]|]; reflexivity.
      + assert (E45 : zmem n [4; 5] = false).
        { unfold zmem. cbn [existsb].
          destruct (Z.eqb_spec n 4); [contradiction|].
          destruct (Z.eqb_spec n 5); [contradiction|]. reflexivity. }
        rewrite E45. cbn [bind andb]. reflexivity. }
  destruct (select_fused (set_axis (AxisList ax) self) n) as [f1|] eqn:E1;
    [|discriminate Esel].
  cbn [bind] in Esel |- *. rewrite Esel. cbn [bind].
  match goal with |- context [add_weights ?l (d0 :: dims) ax] =>
    destruct (add_weights_ok l (d0 :: dims) ax eq_refl Hdims)
      as (self' & vars & Eaw & Ef); rewrite Eaw
  end.
  exists self', vars. split; [reflexivity|]. rewrite Ef. reflexivity.
Qed.

(** The default V1 layer on images with the channels first is fused; on
    batches of rank 2 it falls back. *)
Lemma build_v1_falls_back_witness :
  (exists self' vars,
     build (v1_layer (AxisInt 1)) (Some image_shape) = Ok (self', vars)
     /\ fused self' = Some true)
  /\ (exists self' vars,
        build (v1_layer (AxisInt 1)) (Some dense_shape) = Ok (self', vars)
        /\ fused self' = Some false).
Proof.
  assert (Hd : forall dims : list (option nat),
            nth 1 dims None <> None ->
            Forall (fun x => exists d, nth (Z.to_nat x) dims None = Some d)
                   [1]).
  { intros dims H. constructor; [|constructor].
    change (Z.to_nat 1) with 1%nat.
    destruct (nth 1 dims None) as [d|]; [now exists d | contradiction]. }
  split.
  - destruct (build_v1_falls_back (v1_layer (AxisInt 1)) image_shape [1] true
                eq_refl eq_refl eq_refl eq_refl)
      as (self' & vars & E & Hf).
    + discriminate.
    + discriminate.
    + repeat constructor; cbn; lia.
    + repeat constructor. intros [].
    + exact I.
    + apply Hd. discriminate.
    + exists self', vars. split; [exact E | exact Hf].
  - destruct (build_v1_falls_back (v1_layer (AxisInt 1)) dense_shape [1] true
                eq_refl eq_refl eq_refl eq_refl)
      as (self' & vars & E & Hf).
    + discriminate.
    + discriminate.
    + repeat constructor; cbn; lia.
    + repeat constructor. intros [].
    + exact I.
    + apply Hd. discriminate.
    + exists self', vars. split; [exact E | exact Hf].
Defined.

End BuildFacts.

(** ** Facts on repeated and frozen moving averages *)

Module AverageFacts.
Import Tensor Reduce BatchNorm Broadcast BatchNormUse Examples Scenarios
  TensorFacts MovingAverageFacts ShapeFacts StatFacts TransformFacts
  GhostBatchFacts FusedFacts CallFacts BuildFacts.
Local Open Scope R_scope.

Lemma moving_average_entries variable value m inputs_size :
  wf variable -> shape value = shape variable ->
  exists t, _assign_moving_average variable value m inputs_size = Ok t
    /\ shape t = shape variable /\ wf t
    /\ forall idx, in_bounds (shape variable) idx ->
         get t idx
         = get variable idx
           - match inputs_size with
             | Some n => if (0 <? n)%Z
                         then (get variable idx - get value idx) * (1 - m)
                         else 0
             | None => (get variable idx - get value idx) * (1 - m)
             end.
Proof.
  intros Hw Hs. unfold _assign_moving_average.
  destruct (calculate_update_delta_spec variable value m inputs_size Hw Hs)
    as (delta & -> & Hsd & Hd).
  cbn [bind]. rewrite (assign_sub_spec variable delta Hsd).
  eexists. split; [reflexivity|]. split; [reflexivity|].
  split; [apply wf_tabulate|].
  intros idx Hi. now rewrite get_tabulate, (Hd idx Hi) by assumption.
Qed.

(** After [n] training steps with the same statistic the distance of the
    moving value to the statistic has shrunk by [momentum ^ n]. *)
Theorem moving_average_converges n : forall variable value m inputs_size,
  wf variable -> shape value = shape variable ->
  (inputs_size = None \/ exists k, inputs_size = Some k /\ (0 < k)%Z) ->
  exists t, repeated_updates n variable value m inputs_size = Ok t
    /\ shape t = shape variable
    /\ forall idx, in_bounds (shape variable) idx ->
         get t idx - get value idx
         = m ^ n * (get variable idx - get value idx).
Proof.
  induction n as [|n IH]; intros variable value m inputs_size Hw Hs Hk.
  - exists variable. split; [reflexivity|]. split; [reflexivity|].
    intros idx _. cbn [pow]. ring.
  - cbn [repeated_updates].
    destruct (moving_average_entries variable value m inputs_size Hw Hs)
      as (v & -> & Hsv & Hwv & Hg).
    cbn [bind].
    destruct (IH v value m inputs_size Hwv (eq_trans Hs (eq_sym Hsv)) Hk)
      as (t & -> & Hst & Ht).
    exists t. split; [reflexivity|]. split; [congruence|].
    intros idx Hi. rewrite Ht by (rewrite Hsv; exact Hi).
    rewrite (Hg idx Hi).
    assert (E : match inputs_size with
                | Some k => if (0 <? k)%Z
                            then (get variable idx - get value idx) * (1 - m)
                            else 0
                | None => (get variable idx - get value idx) * (1 - m)
                end = (get variable idx - get value idx) * (1 - m)).
    { destruct Hk as [-> | (k & -> & Hp)]; [reflexivity|].
      apply Z.ltb_lt in Hp. now rewrite Hp. }
    rewrite E. cbn [pow]. ring.
Qed.

(** Three steps with momentum 1/2 from [1; 3] towards [2; 5]. *)
Lemma moving_average_converges_witness :
  let variable := mkTensor [2%nat] [1; 3] in
  let value := mkTensor [2%nat] [2; 5] in
  exists t,
    repeated_updates 3 variable value (1 / 2) None = Ok t
    /\ shape t = [2%nat]
    /\ forall idx, in_bounds [2%nat] idx ->
         get t idx - get value idx
         = (1 / 2) ^ 3 * (get variable idx - get value idx).
Proof.
  intros variable value.
  exact (moving_average_converges 3 variable value (1 / 2) None eq_refl
           eq_refl (or_introl eq_refl)).
Defined.

Lemma binop_shape f t1 t2 t :
  binop f t1 t2 = Ok t ->
  bshape (shape t1) (shape t2) = Some (shape t) /\ wf t.
Proof.
  unfold binop. destruct (bshape (shape t1) (shape t2)) as [s|];
    [|discriminate].
  intros H. injection H as <-. split; [reflexivity | apply wf_tabulate].
Qed.

Lemma frozen_update variable value m inputs_size t :
  wf variable ->
  m = 1 \/ (exists k, inputs_size = Some k /\ (k <= 0)%Z) ->
  _assign_moving_average variable value m inputs_size = Ok t ->
  t = variable.
Proof.
  intros Hw Hc H. unfold _assign_moving_average, calculate_update_delta in H.
  destruct (binop Rminus variable value) as [diff|] eqn:Ed;
    [|discriminate H].
  apply binop_shape in Ed as [_ Hwd]. cbn [bind] in H.
  set (ud := tmap (fun x => x * (1 - m)) diff) in H.
  set (delta := match inputs_size with
                | Some n => where_ (0 <? n)%Z ud (zeros_like 0 ud)
                | None => ud
                end).
  assert (Hsd : shape delta = shape diff).
  { unfold delta. destruct inputs_size as [n|]; [destruct (0 <? n)%Z|];
      reflexivity. }
  assert (Hgd : forall idx, in_bounds (shape diff) idx -> get delta idx = 0).
  { intros idx Hi. unfold delta.
    destruct Hc as [-> | (k & -> & Hk)].
    - assert (E : get ud idx = 0).
      { unfold ud. rewrite get_tmap by assumption. ring. }
      destruct inputs_size as [n|]; [destruct (0 <? n)%Z|];
        cbn [where_]; try exact E.
      unfold zeros_like. now apply get_fill.
    - apply Z.ltb_ge in Hk. rewrite Hk. cbn [where_].
      unfold zeros_like. now apply get_fill. }
  assert (H' : assign_sub variable delta = Ok t).
  { unfold delta. destruct inputs_size; exact H. }
  clear H. unfold assign_sub in H'.
  destruct (same_shape _ _) eqn:Es; [|discriminate H'].
  apply same_shape_eq in Es.
  rewrite binop_pointwise in H' by (symmetry; exact Es).
  injection H' as <-. rewrite <- (tabulate_get variable Hw) at 2.
  apply tabulate_ext. intros idx Hi.
  rewrite Hgd by (rewrite <- Hsd, <- Es; exact Hi). ring.
Qed.

(** With momentum 1, or with a batch size known not to be positive, the
    variable keeps its value whatever statistic is fed: whenever the update
    returns, it returns the variable; and it returns for a statistic of the
    shape of the variable. *)
Theorem moving_average_frozen variable value m inputs_size :
  wf variable ->
  m = 1 \/ (exists k, inputs_size = Some k /\ (k <= 0)%Z) ->
  (forall t, _assign_moving_average variable value m inputs_size = Ok t ->
             t = variable)
  /\ (shape value = shape variable ->
      _assign_moving_average variable value m inputs_size = Ok variable).
Proof.
  intros Hw Hc.
  split; [intros t; now apply frozen_update|].
  intros Hs.
  destruct (assign_moving_average_ok variable value m inputs_size Hw Hs)
    as (t & Ht & _ & _).
  rewrite Ht. f_equal. now apply (frozen_update variable value m inputs_size).
Qed.

(** Momentum 1 freezes [1; 3]. *)
Lemma moving_average_frozen_witness :
  let variable := mkTensor [2%nat] [1; 3] in
  let value := mkTensor [2%nat] [2; 5] in
  wf variable
  /\ _assign_moving_average variable value 1 (Some 4%Z) = Ok variable.
Proof.
  intros variable value. split; [reflexivity|].
  exact (proj2 (moving_average_frozen variable value 1 (Some 4%Z) eq_refl
                  (or_introl eq_refl)) eq_refl).
Defined.

Lemma batch_size_positive e (x : tensor R) :
  Forall (lt 0%nat) (shape x) -> shape x <> [] ->
  exists bs, batch_size_of e x = Ok bs
    /\ (bs = None \/ exists k, bs = Some k /\ (0 < k)%Z).
Proof.
  intros Hpos Hne. unfold batch_size_of.
  destruct (support_zero_size_input e); [|exists None; auto].
  destruct (shape x) as [|b rest]; [contradiction|].
  inversion Hpos; subst. eexists. split; [reflexivity|]. right.
  eexists. split; [reflexivity | lia].
Qed.

Lemma moving_average_moved variable value m bs :
  wf variable -> shape value = shape variable ->
  (bs = None \/ exists k, bs = Some k /\ (0 < k)%Z) ->
  exists t, _assign_moving_average variable value m bs = Ok t
    /\ shape t = shape variable /\ wf t
    /\ forall idx, in_bounds (shape variable) idx ->
         get t idx = m * get variable idx + (1 - m) * get value idx.
Proof.
  intros Hw Hs Hb.
  destruct (moving_average_entries variable value m bs Hw Hs)
    as (t & Ht & Hst & Hwt & Hg).
  exists t. split; [exact Ht|]. split; [exact Hst|]. split; [exact Hwt|].
  intros idx Hi. rewrite (Hg idx Hi).
  destruct Hb as [-> | (k & -> & Hk)]; [ring|].
  apply Z.ltb_lt in Hk. rewrite Hk. ring.
Qed.

End AverageFacts.

(** ** Facts on [call] when the training value is False *)

Module TrainingValueFacts.
Import Tensor Reduce BatchNorm Broadcast BatchNormUse Examples Scenarios
  TensorFacts MovingAverageFacts ShapeFacts StatFacts TransformFacts
  GhostBatchFacts FusedFacts CallFacts BuildFacts AverageFacts.
Local Open Scope R_scope.

Lemma set_moving_same vars :
  set_moving_variance (moving_variance vars)
    (set_moving_mean (moving_mean vars) vars) = vars.
Proof. now destruct vars. Qed.

Tactic Notation "step_bind" hyp(H) "as" simple_intropattern(p)
    "eqn" ident(E) :=
  lazymatch type of H with
  | bind ?r _ = Ok _ =>
      let h := head_of r in
      destruct h as [p|] eqn:E; cbn [bind] in H; [|discriminate H]
  end.

Lemma set_moving_mean_same vars :
  set_moving_mean (moving_mean vars) vars = vars.
Proof. now destruct vars. Qed.

(** A [training] value that is only known when the graph runs, and is then
    False: [call] returns what inference returns and leaves every variable
    as it is (on the fused path, when the moving averages are updated by
    [_assign_moving_average], that is outside eager execution). *)
Theorem deferred_false_is_inference e self vars inputs training0
    outputs vars' log :
  _get_training_value e self training0 = TrainTensor false ->
  renorm self = false -> adjustment self = None ->
  (truthy (fused self) = true ->
   executing_eagerly_outside_functions e && negb (enclosing_xla_context e)
   = false
   /\ wf (moving_mean vars) /\ wf (moving_variance vars)) ->
  call e self vars inputs training0 = Ok (outputs, vars', log) ->
  inference e self vars inputs = Ok outputs /\ vars' = vars.
Proof.
  intros E0 Hr Ha Hfu H. unfold call in H. rewrite E0 in H.
  unfold inference. cbv zeta in H.
  step_bind H as a eqn Ea. cbn [bind].
  destruct (truthy (fused self)).
  - destruct (Hfu eq_refl) as (He & Hwm & Hwv).
    assert (He' : executing_eagerly_outside_functions e
                  && momentum_is_number self
                  && negb (enclosing_xla_context e) = false).
    { destruct (executing_eagerly_outside_functions e),
        (enclosing_xla_context e), (momentum_is_number self);
        try reflexivity; discriminate He. }
    unfold _fused_batch_norm in H. rewrite He' in H.
    step_bind H as beta0 eqn Eb. step_bind H as gamma0 eqn Eg.
    step_bind H as bs eqn Ebs. step_bind H as fmt eqn Ef.
    cbn [smart_cond bind] in H.
    step_bind H as [[output mean] variance] eqn Ek.
    cbn [constant_value bind] in H.
    step_bind H as mm eqn Emm. step_bind H as mv eqn Emv.
    step_bind H as out eqn Eo.
    injection H as <- <- <-.
    apply (frozen_update _ _ 1 bs _ Hwm (or_introl eq_refl)) in Emm.
    apply (frozen_update _ _ 1 bs _ Hwv (or_introl eq_refl)) in Emv.
    subst mm mv. rewrite set_moving_same. split; [|reflexivity].
    cbn [bind]. rewrite Ek. cbn [bind]. exact Eo.
  - step_bind H as ax eqn Eax. step_bind H as ra eqn Era.
    step_bind H as bshape eqn Ebsh.
    step_bind H as scale0 eqn Esc. step_bind H as offset0 eqn Eof.
    cbn [constant_value smart_cond bind] in H.
    rewrite Ha, Hr in H. cbn [bind] in H.
    step_bind H as [mean0 variance0] eqn Em.
    step_bind H as [nm nv] eqn En.
    step_bind H as bs eqn Ebs. cbn [bind] in H.
    step_bind H as mean_b eqn Emb. step_bind H as variance_b eqn Evb.
    step_bind H as out eqn Eo.
    destruct (negb (same_shape (shape out) (shape a))) eqn:Es; [discriminate|].
    step_bind H as out' eqn Eo'. injection H as <- <- <-.
    rewrite set_moving_mean_same. split; [|reflexivity].
    cbn [bind]. rewrite Era. cbn [bind]. rewrite Ebsh. cbn [bind].
    rewrite Esc. cbn [bind]. rewrite Eof. cbn [bind]. rewrite Emb. cbn [bind].
    rewrite Evb. cbn [bind].
    rewrite Eo. cbn [bind]. rewrite Es. exact Eo'.
Qed.

(** The dense layer called in graph mode with a [training] tensor that
    turns out False. *)
Lemma deferred_false_is_inference_witness :
  _get_training_value graph_env (dense_layer true) None = TrainTensor false
  /\ exists outputs,
       call graph_env (dense_layer true) dense_vars batch_2x2 None
       = Ok (outputs, dense_vars,
             [(MovingMean, moving_mean dense_vars);
              (MovingVariance, moving_variance dense_vars)])
       /\ inference graph_env (dense_layer true) dense_vars batch_2x2
          = Ok outputs.
Proof.
  split; [reflexivity|].
  eexists. split; [reflexivity|].
  refine (proj1 (deferred_false_is_inference graph_env (dense_layer true)
                   dense_vars batch_2x2 None _ _ _ eq_refl eq_refl eq_refl
                   _ eq_refl)).
  discriminate.
Defined.

(** Whenever the training value is the constant False, for whatever reason
    (the argument, the learning phase, or a layer that is not trainable),
    [call] returns what inference returns, leaves every variable as it is
    and schedules no update, on both paths. *)
Theorem constant_false_is_inference e self vars inputs training0
    outputs vars' log :
  _get_training_value e self training0 = TrainBool false ->
  call e self vars inputs training0 = Ok (outputs, vars', log) ->
  vars' = vars /\ log = [] /\ inference e self vars inputs = Ok outputs.
Proof.
  intros E0 H. unfold call in H. rewrite E0 in H.
  unfold inference. cbv zeta in H.
  step_bind H as a eqn Ea. cbn [bind].
  destruct (truthy (fused self)).
  - unfold _fused_batch_norm in H.
    step_bind H as beta0 eqn Eb. step_bind H as gamma0 eqn Eg.
    step_bind H as bs eqn Ebs. step_bind H as fmt eqn Ef.
    cbn [smart_cond bind] in H.
    step_bind H as [[output mean] variance] eqn Ek.
    cbn [constant_value bind] in H. step_bind H as out eqn Eo.
    injection H as <- <- <-. repeat split.
    cbn [bind]. rewrite Ek. cbn [bind]. exact Eo.
  - step_bind H as ax eqn Eax. step_bind H as ra eqn Era.
    step_bind H as bshape eqn Ebsh.
    step_bind H as scale0 eqn Esc. step_bind H as offset0 eqn Eof.
    cbn [constant_value bind] in H.
    step_bind H as mean_b eqn Emb. step_bind H as variance_b eqn Evb.
    step_bind H as out eqn Eo.
    destruct (negb (same_shape (shape out) (shape a))) eqn:Es; [discriminate|].
    step_bind H as out' eqn Eo'. injection H as <- <- <-. repeat split.
    cbn [bind]. rewrite Era. cbn [bind]. rewrite Ebsh. cbn [bind].
    rewrite Esc. cbn [bind]. rewrite Eof. cbn [bind]. rewrite Emb.
    cbn [bind]. rewrite Evb. cbn [bind]. rewrite Eo. cbn [bind].
    rewrite Es. exact Eo'.
Qed.

(** The trainable dense layer called with [training=False]. *)
Lemma constant_false_is_inference_witness :
  _get_training_value eager_env (dense_layer true) (Some (TrainBool false))
  = TrainBool false
  /\ exists outputs,
       call eager_env (dense_layer true) dense_vars batch_2x2
         (Some (TrainBool false)) = Ok (outputs, dense_vars, [])
       /\ inference eager_env (dense_layer true) dense_vars batch_2x2
          = Ok outputs.
Proof.
  split; [reflexivity|].
  eexists. split; [reflexivity|].
  refine (proj2 (proj2 (constant_false_is_inference eager_env
                          (dense_layer true) dense_vars batch_2x2
                          (Some (TrainBool false)) _ _ _ eq_refl eq_refl))).
Defined.

End TrainingValueFacts.

(** ** Facts on [_fused_batch_norm] in training *)

Module FusedStepFacts.
Import Tensor Reduce BatchNorm Broadcast BatchNormUse Examples Scenarios
  TensorFacts MovingAverageFacts ShapeFacts StatFacts TransformFacts
  GhostBatchFacts FusedFacts CallFacts BuildFacts AverageFacts
  TrainingValueFacts.
Local Open Scope R_scope.

(** On the eager fused path with zero-size support and a momentum that is
    a Python float or int, training on a batch of size zero never runs the
    kernel: the input is returned as it is and the moving statistics are
    assigned their own values. *)
Theorem fused_training_on_empty_batch e self vars inputs training dims
    beta0 gamma0 fmt :
  support_zero_size_input e = true ->
  executing_eagerly_outside_functions e = true ->
  momentum_is_number self = true ->
  enclosing_xla_context e = false ->
  shape inputs = 0%nat :: dims ->
  smart_cond training = Ok true ->
  (if center self then beta vars else _beta_const vars) = Some beta0 ->
  (if scale self then gamma vars else _gamma_const vars) = Some gamma0 ->
  _data_format self = Some fmt ->
  _fused_batch_norm e self vars inputs training
  = Ok (inputs, vars,
        [(MovingMean, moving_mean vars);
         (MovingVariance, moving_variance vars)]).
Proof.
  intros Hz He Hn Hx Hs Ht Hb Hg Hf. unfold _fused_batch_norm, batch_size_of.
  rewrite Hb, Hg, Hz, Hs, He, Hn, Hx, Hf, Ht. cbn [attr bind andb negb].
  change (0 <? Z.of_nat 0)%Z with false. cbn iota. cbn [bind].
  assert (Hc : exists tv, constant_value training = Ok tv /\ tv <> Some false).
  { destruct training as [b|z|b]; cbn in Ht |- *.
    - injection Ht as ->. eexists. split; [reflexivity | discriminate].
    - destruct (z =? 0)%Z; [discriminate|]. destruct (z =? 1)%Z;
        [|discriminate]. eexists. split; [reflexivity | discriminate].
    - eexists. split; [reflexivity | discriminate]. }
  destruct Hc as (tv & -> & Htv). cbn [bind].
  unfold _assign_new_value, assign. rewrite !same_shape_refl. cbn [bind].
  rewrite set_moving_same.
  destruct tv as [[|]|]; [reflexivity | contradiction | reflexivity].
Qed.

(** The fused layer on an empty batch of images. *)
Lemma fused_training_on_empty_batch_witness :
  shape empty_batch = [0; 1; 1; 1]%nat
  /\ _fused_batch_norm zero_size_env fused_layer fused_vars empty_batch
       (TrainBool true)
     = Ok (empty_batch, fused_vars,
           [(MovingMean, moving_mean fused_vars);
            (MovingVariance, moving_variance fused_vars)]).
Proof.
  split; [reflexivity|].
  exact (fused_training_on_empty_batch zero_size_env fused_layer fused_vars
           empty_batch (TrainBool true) [1; 1; 1]%nat (fill [1%nat] 0)
           (fill [1%nat] 1) NCHW eq_refl eq_refl eq_refl eq_refl eq_refl
           eq_refl eq_refl eq_refl eq_refl).
Defined.

(** A training step on the fused path with a batch that is not known to
    be empty: in eager execution, outside an XLA context and with a
    momentum that is a Python float or int, the kernel is given the
    factor [1 - momentum] and what it returns is assigned to the moving
    statistics; otherwise the kernel is given no factor and the moving
    statistics move towards what it returns by [momentum]. *)
Theorem fused_training_step e self vars x training beta0 gamma0 fmt bs
    out mean variance :
  (if center self then beta vars else _beta_const vars) = Some beta0 ->
  (if scale self then gamma vars else _gamma_const vars) = Some gamma0 ->
  _data_format self = Some fmt ->
  smart_cond training = Ok true ->
  batch_size_of e x = Ok bs ->
  (bs = None \/ exists k, bs = Some k /\ (0 < k)%Z) ->
  let eager := executing_eagerly_outside_functions e
               && momentum_is_number self
               && negb (enclosing_xla_context e) in
  fused_batch_norm e x gamma0 beta0 (moving_mean vars) (moving_variance vars)
    (epsilon self) true fmt
    (if eager then Some (1 - momentum self) else None)
  = Ok (out, mean, variance) ->
  wf (moving_mean vars) -> wf (moving_variance vars) ->
  shape mean = shape (moving_mean vars) ->
  shape variance = shape (moving_variance vars) ->
  exists vars',
    _fused_batch_norm e self vars x training
    = Ok (out, vars', [(MovingMean, mean); (MovingVariance, variance)])
    /\ (eager = true ->
        moving_mean vars' = mean /\ moving_variance vars' = variance)
    /\ (eager = false ->
        forall idx,
          (in_bounds (shape (moving_mean vars)) idx ->
           get (moving_mean vars') idx
           = momentum self * get (moving_mean vars) idx
             + (1 - momentum self) * get mean idx)
          /\ (in_bounds (shape (moving_variance vars)) idx ->
              get (moving_variance vars') idx
              = momentum self * get (moving_variance vars) idx
                + (1 - momentum self) * get variance idx)).
Proof.
  intros Hb Hg Hfmt Ht Ebs Hbs eager EK Hwm Hwv Hsm Hsv.
  unfold _fused_batch_norm. rewrite Hb, Hg, Ebs, Hfmt, Ht. cbn [attr bind].
  fold eager.
  assert (Etrain :
    match eager, bs with
    | true, Some n =>
        if (0 <? n)%Z
        then fused_batch_norm e x gamma0 beta0 (moving_mean vars)
               (moving_variance vars) (epsilon self) true fmt
               (if eager then Some (1 - momentum self) else None)
        else Ok (x, moving_mean vars, moving_variance vars)
    | _, _ =>
        fused_batch_norm e x gamma0 beta0 (moving_mean vars)
          (moving_variance vars) (epsilon self) true fmt
          (if eager then Some (1 - momentum self) else None)
    end = Ok (out, mean, variance)).
  { destruct eager; [|exact EK].
    destruct Hbs as [-> | (k & -> & Hk)]; [exact EK|].
    apply Z.ltb_lt in Hk. now rewrite Hk. }
  rewrite Etrain. cbn [bind].
  destruct (trained_constant _ Ht) as [Ec|Ec]; rewrite Ec; cbn [bind];
    rewrite ?Ht.
  all: destruct eager eqn:Ee.
  all: try (unfold _assign_new_value, assign;
            rewrite <- Hsm, <- Hsv, !same_shape_refl; cbn [bind];
            eexists; split; [reflexivity|];
            split; [intros _; split; reflexivity | discriminate]).
  all: destruct (moving_average_moved (moving_mean vars) mean (momentum self)
                   bs Hwm Hsm Hbs) as (mm & Emm & _ & _ & Hgm);
       destruct (moving_average_moved (moving_variance vars) variance
                   (momentum self) bs Hwv Hsv Hbs) as (mv & Emv & _ & _ & Hgv);
       rewrite Emm; cbn [bind]; rewrite Emv; cbn [bind];
       eexists; (split; [reflexivity|]); (split; [discriminate|]);
       intros _ idx; split; intros Hi;
       cbn [moving_mean moving_variance set_moving_variance set_moving_mean];
       [now apply Hgm | now apply Hgv].
Qed.

(** A training step of the fused layer in eager execution and in graph
    mode, with the kernel that hands back the statistics it was given. *)
Lemma fused_training_step_witness :
  (exists vars',
     _fused_batch_norm eager_kernel_env fused_layer fused_vars image_1x1
       (TrainBool true)
     = Ok (image_1x1, vars',
           [(MovingMean, moving_mean fused_vars);
            (MovingVariance, moving_variance fused_vars)])
     /\ moving_mean vars' = moving_mean fused_vars)
  /\ (exists vars',
        _fused_batch_norm graph_env fused_layer fused_vars image_1x1
          (TrainBool true)
        = Ok (image_1x1, vars',
              [(MovingMean, moving_mean fused_vars);
               (MovingVariance, moving_variance fused_vars)])
        /\ forall idx, in_bounds [1%nat] idx ->
             get (moving_mean vars') idx
             = 99 / 100 * get (moving_mean fused_vars) idx
               + (1 - 99 / 100) * get (moving_mean fused_vars) idx).
Proof.
  split.
  - destruct (fused_training_step eager_kernel_env fused_layer fused_vars
                image_1x1 (TrainBool true) (fill [1%nat] 0) (fill [1%nat] 1)
                NCHW None image_1x1 (moving_mean fused_vars)
                (moving_variance fused_vars)
                eq_refl eq_refl eq_refl eq_refl eq_refl (or_introl eq_refl)
                eq_refl eq_refl eq_refl eq_refl eq_refl)
      as (vars' & E & He & _).
    exists vars'. split; [exact E | exact (proj1 (He eq_refl))].
  - destruct (fused_training_step graph_env fused_layer fused_vars
                image_1x1 (TrainBool true) (fill [1%nat] 0) (fill [1%nat] 1)
                NCHW None image_1x1 (moving_mean fused_vars)
                (moving_variance fused_vars)
                eq_refl eq_refl eq_refl eq_refl eq_refl (or_introl eq_refl)
                eq_refl eq_refl eq_refl eq_refl eq_refl)
      as (vars' & E & _ & Hg).
    exists vars'. split; [exact E|].
    intros idx Hi. exact (proj1 (Hg eq_refl idx) Hi).
Defined.

End FusedStepFacts.

(** ** Facts on the shape of what [call] returns *)

Module OutputShapeFacts.
Import Tensor Reduce BatchNorm Broadcast BatchNormUse Examples Scenarios
  TensorFacts MovingAverageFacts ShapeFacts StatFacts TransformFacts
  GhostBatchFacts FusedFacts CallFacts BuildFacts AverageFacts
  TrainingValueFacts FusedStepFacts.

Lemma size_inferred q target :
  existsb (fun d => (d <? -1)%Z) target = false ->
  Z.of_nat (size (map (fun d => if (d =? -1)%Z then q else Z.to_nat d) target))
  = (Z.of_nat q ^ Z.of_nat (List.length target
                            - List.length (known_dims target))
     * zprod (known_dims target))%Z.
Proof.
  induction target as [|d target IH]; intros H.
  - reflexivity.
  - cbn [existsb] in H. apply orb_false_iff in H as [Hd H].
    apply Z.ltb_ge in Hd. specialize (IH H).
    assert (Hl : List.length (known_dims target) <= List.length target)
      by apply filter_length_le.
    cbn [map size]. rewrite Nat2Z.inj_mul, IH. unfold known_dims.
    cbn [filter]. fold (known_dims target).
    destruct (Z.eqb_spec d (-1)) as [->|Hn]; cbn [negb List.length].
    + replace (S (List.length target) - List.length (known_dims target))
        with (S (List.length target - List.length (known_dims target)))
        by lia.
      rewrite Nat2Z.inj_succ, Z.pow_succ_r by lia. ring.
    + cbn [zprod fold_right]. fold (zprod (known_dims target)).
      rewrite Z2Nat.id by lia.
      replace (S (List.length target) - S (List.length (known_dims target)))
        with (List.length target - List.length (known_dims target)) by lia.
      ring.
Qed.

Lemma map_to_nat_inferred q target :
  List.length (known_dims target) = List.length target ->
  map Z.to_nat target
  = map (fun d => if (d =? -1)%Z then q else Z.to_nat d) target.
Proof.
  induction target as [|d target IH]; intros H; [reflexivity|].
  assert (Hl : List.length (known_dims target) <= List.length target)
    by apply filter_length_le.
  unfold known_dims in H. cbn [filter] in H. fold (known_dims target) in H.
  destruct (Z.eqb_spec d (-1)) as [->|Hn]; cbn [negb List.length] in H.
  - lia.
  - cbn [map]. destruct (Z.eqb_spec d (-1)); [contradiction|].
    f_equal. apply IH. lia.
Qed.

(** A successful [tf.reshape] keeps the entries and returns a tensor whose
    shape holds as many entries as there are. *)
Lemma reshape_wf (A : Type) (t t' : tensor A) target :
  reshape t target = Ok t' -> data t' = data t /\ wf t'.
Proof.
  unfold reshape. intros H.
  destruct (existsb _ target) eqn:Eb; [discriminate H|].
  destruct (Nat.eqb_spec (List.length (known_dims target))
              (List.length target)) as [El|_].
  - destruct (Z.eqb_spec (zprod (known_dims target))
                (Z.of_nat (List.length (data t)))) as [Ek|_];
      [|discriminate H].
    injection H as <-. split; [reflexivity|]. unfold wf. cbn [data shape].
    rewrite (map_to_nat_inferred 0 target El).
    apply Nat2Z.inj. rewrite (size_inferred 0 target Eb), El, Nat.sub_diag.
    rewrite Ek. change (Z.of_nat 0) with 0%Z. rewrite Z.pow_0_r. lia.
  - destruct (Nat.eqb_spec (S (List.length (known_dims target)))
                (List.length target)) as [El|_]; [|discriminate H].
    destruct (Z.ltb_spec 0 (zprod (known_dims target))) as [Hp|_];
      [|discriminate H].
    destruct (Z.eqb_spec (Z.of_nat (List.length (data t))
                          mod zprod (known_dims target)) 0) as [Hm|_];
      [|discriminate H].
    injection H as <-. split; [reflexivity|]. unfold wf. cbn [data shape].
    apply Nat2Z.inj. rewrite (size_inferred _ target Eb), <- El.
    replace (S (List.length (known_dims target))
             - List.length (known_dims target)) with 1 by lia.
    rewrite Z.pow_1_r, Z2Nat.id
      by (apply Z.div_pos; lia).
    apply Z.mod_divide in Hm; [|lia]. destruct Hm as [c Hc].
    rewrite Hc, Z.div_mul by lia. reflexivity.
Qed.

(** Undoing the virtual batches: the batch dimension left open is inferred
    back. *)
Lemma reshape_open_batch (A : Type) (t t' : tensor A) d0 tail :
  List.length (data t) = d0 * size tail ->
  reshape t ((-1)%Z :: map Z.of_nat tail) = Ok t' ->
  shape t' = d0 :: tail.
Proof.
  intros Hn H.
  destruct (Nat.eq_dec (size tail) 0) as [Ez|Hpos].
  - exfalso. unfold reshape in H. cbn [existsb] in H.
    rewrite no_dim_below in H. change ((-1 <? -1)%Z) with false in H.
    cbn [orb] in H. unfold known_dims in H. cbn [filter] in H.
    change (negb (-1 =? -1)%Z) with false in H. cbv iota in H.
    fold (known_dims (map Z.of_nat tail)) in H.
    rewrite known_dims_of_nat, zprod_of_nat, Ez in H.
    cbn [List.length] in H. rewrite length_map in H.
    destruct (Nat.eqb_spec (List.length tail) (S (List.length tail)));
      [lia|].
    rewrite Nat.eqb_refl in H. cbn in H. discriminate H.
  - pose proof (reshape_infer A t [] d0 tail) as Hr.
    cbn [map app size] in Hr. rewrite Hr in H by lia.
    now injection H as <-.
Qed.

Lemma batch_normalization_wf x mean variance offset scale eps out :
  batch_normalization x mean variance offset scale eps = Ok out -> wf out.
Proof.
  unfold batch_normalization. intros H.
  step_bind H as inv eqn Ei. step_bind H as xs eqn Ex.
  step_bind H as mi eqn Em. step_bind H as sh eqn Es.
  now apply binop_shape in H.
Qed.

(** On the generic path [call] returns a tensor of the shape of its input,
    as [compute_output_shape] announces; with virtual batches as well,
    where an input of rank at least 1 is reshaped and the output reshaped
    back. *)
Theorem call_preserves_shape e self vars inputs training0 outputs vars' log :
  truthy (fused self) = false -> wf inputs ->
  (virtual_batch_size self <> None -> shape inputs <> []) ->
  call e self vars inputs training0 = Ok (outputs, vars', log) ->
  shape outputs = compute_output_shape (shape inputs) /\ wf outputs.
Proof.
  intros Hf Hw Hne H. unfold call in H. cbv zeta in H. rewrite Hf in H.
  step_bind H as a eqn Ea.
  step_bind H as ax eqn Eax. step_bind H as ra eqn Era.
  step_bind H as bshape eqn Ebsh.
  step_bind H as scale0 eqn Esc. step_bind H as offset0 eqn Eof.
  step_bind H as tv eqn Etv.
  step_bind H as [[[[[mean variance] scale1] offset1] vars1] log1] eqn Eu.
  step_bind H as mean_b eqn Emb. step_bind H as variance_b eqn Evb.
  step_bind H as out eqn Eo.
  destruct (negb (same_shape (shape out) (shape a))) eqn:Es; [discriminate|].
  apply negb_false_iff, same_shape_eq in Es.
  apply batch_normalization_wf in Eo.
  step_bind H as out' eqn Eo'. injection H as <- _ _.
  unfold compute_output_shape, virtual_batching, undo_virtual_batching in *.
  destruct (virtual_batch_size self) as [v|]; cbn [is_some] in Eo'.
  - apply reshape_wf in Ea as [Eda Hwa].
    destruct (reshape_wf _ _ _ _ Eo') as [Edo Hwo]. split; [|exact Hwo].
    destruct (shape inputs) as [|d0 tail] eqn:Esh;
      [exfalso; apply Hne; [discriminate | reflexivity]|].
    apply (reshape_open_batch _ out); [|].
    + unfold wf in *. rewrite Eo, Es, <- Hwa, Eda, Hw, Esh. reflexivity.
    + unfold original_shape_of in Eo'. rewrite Esh in Eo'. exact Eo'.
  - injection Ea as <-. injection Eo' as <-. split; assumption.
Qed.

(** The ghost-batch layer on four examples: the output has the shape of
    the input. *)
Lemma call_preserves_shape_witness :
  wf batch_4x1
  /\ exists outputs vars' log,
       call eager_env ghost_layer ghost_vars batch_4x1
         (Some (TrainBool true)) = Ok (outputs, vars', log)
       /\ shape outputs = [4; 1]%nat.
Proof.
  split; [reflexivity|].
  eexists. eexists. eexists. split; [reflexivity|].
  refine (proj1 (call_preserves_shape eager_env ghost_layer ghost_vars
                   batch_4x1 (Some (TrainBool true)) _ _ _ eq_refl eq_refl
                   _ eq_refl)).
  discriminate.
Defined.

End OutputShapeFacts.

(** ** Facts on operands that broadcast to the other operand *)

Module StretchFacts.
Import Tensor Reduce BatchNorm Broadcast BatchNormUse Examples Scenarios
  TensorFacts MovingAverageFacts ShapeFacts StatFacts TransformFacts
  GhostBatchFacts FusedFacts CallFacts BuildFacts AverageFacts
  TrainingValueFacts FusedStepFacts OutputShapeFacts.

Lemma stretches_refl s : stretches s s.
Proof.
  split; [lia|]. rewrite Nat.sub_diag. apply fits_refl.
Qed.

Lemma fits_stretches sm s : fits sm s -> stretches sm s.
Proof.
  intros H. pose proof (fits_length _ _ H) as E. split; [lia|].
  now rewrite E, Nat.sub_diag.
Qed.

Lemma fits_ones k : forall s, List.length s = k -> fits (repeat 1 k) s.
Proof.
  induction k as [|k IH]; intros [|d s] H; try discriminate; cbn [repeat];
    constructor; [now left|]. apply IH. now injection H.
Qed.

Lemma fits_unalign k a : forall c,
  fits (repeat 1 k ++ a) c -> fits a (skipn k c).
Proof.
  induction k as [|k IH]; intros c H; [exact H|].
  cbn [repeat app] in H. inversion H as [|x d l u Hx Hl]; subst.
  cbn [skipn]. now apply IH.
Qed.

Lemma fits_app a b c d : fits a c -> fits b d -> fits (a ++ b) (c ++ d).
Proof. apply Forall2_app. Qed.

Lemma skipn_split (A : Type) (l : list A) a b :
  skipn a l = firstn b (skipn a l) ++ skipn (b + a) l.
Proof. rewrite <- skipn_skipn. symmetry. apply firstn_skipn. Qed.

Lemma fits_align sm s m :
  stretches sm s -> List.length sm <= m -> m <= List.length s ->
  fits (align m sm) (skipn (List.length s - m) s).
Proof.
  intros [Hl Hf] H1 H2. unfold align.
  rewrite (skipn_split _ s (List.length s - m) (m - List.length sm)).
  replace (m - List.length sm + (List.length s - m))
    with (List.length s - List.length sm) by lia.
  apply fits_app; [|exact Hf].
  apply fits_ones. rewrite length_firstn, length_skipn. lia.
Qed.

Lemma bzip_fits_both a b u :
  fits a u -> fits b u ->
  exists c, bzip a b = Some c /\ fits c u /\ fits a c /\ fits b c.
Proof.
  intros Ha. revert b. induction Ha as [|x d a u Hx _ IH]; intros b Hb;
    inversion Hb as [|y d' b' u' Hy Hb']; subst.
  - exists []. repeat split; constructor.
  - destruct (IH b' Hb') as (c & Hc & H1 & H2 & H3).
    cbn [bzip]. rewrite Hc.
    assert (Hd : exists z, bdim x y = Some z /\ (z = 1 \/ z = d)
                           /\ (x = 1 \/ x = z) /\ (y = 1 \/ y = z)).
    { unfold bdim. destruct (Nat.eqb_spec x y) as [->|Hn].
      - exists y. auto.
      - destruct (Nat.eqb_spec x 1) as [->|Hx1].
        + exists y. auto.
        + destruct (Nat.eqb_spec y 1) as [->|Hy1].
          * exists x. auto.
          * exfalso. destruct Hx, Hy; congruence. }
    destruct Hd as (z & -> & Hz & Hxz & Hyz).
    exists (z :: c). repeat split; constructor; assumption.
Qed.

Lemma bpick_length s idx :
  List.length idx = List.length s -> List.length (bpick s idx) = List.length s.
Proof.
  revert idx. induction s as [|d s IH]; intros [|i idx] H; try discriminate;
    cbn [bpick List.length]; [reflexivity|]. f_equal. apply IH.
  now injection H.
Qed.

Lemma bpick_ones k s : forall idx,
  k <= List.length idx ->
  bpick (repeat 1 k ++ s) idx = repeat 0 k ++ bpick s (skipn k idx).
Proof.
  induction k as [|k IH]; intros idx H; [reflexivity|].
  destruct idx as [|i idx]; [cbn in H; lia|].
  cbn [repeat app bpick skipn]. change (1 =? 1) with true. cbv iota.
  f_equal. apply IH. cbn in H. lia.
Qed.

Lemma in_bounds_skipn s idx k :
  in_bounds s idx -> in_bounds (skipn k s) (skipn k idx).
Proof.
  intros H. revert k. induction H as [|i d idx s Hlt Hr IH]; intros [|k];
    cbn [skipn]; try (constructor; assumption). apply IH.
Qed.

(** The index into an operand does not change when the position is first
    taken into a broadcast result that the operand stretches to. *)
Lemma bidx_bidx s1 c s idx :
  stretches s1 c -> stretches c s -> in_bounds s idx ->
  bidx s1 (bidx c idx) = bidx s1 idx.
Proof.
  intros H1 [Hlc Hfc] Hi.
  pose proof (in_bounds_length _ _ Hi) as Hli.
  set (u := skipn (List.length s - List.length c) s) in *.
  set (iu := skipn (List.length s - List.length c) idx).
  assert (Hiu : in_bounds u iu) by now apply in_bounds_skipn.
  pose proof (in_bounds_length _ _ Hiu) as Hlu.
  pose proof (fits_length _ _ Hfc) as Hcu.
  pose proof (fits_align s1 c (List.length c) H1 (proj1 H1) (Nat.le_refl _))
    as Ha.
  rewrite Nat.sub_diag in Ha. cbn [skipn] in Ha.
  pose proof (bpick_bpick _ _ _ iu Ha Hfc Hiu) as E.
  unfold align in E.
  destruct H1 as [Hl1 _].
  rewrite (bpick_ones _ s1 (bpick c iu)) in E
    by (rewrite bpick_length; lia).
  rewrite (bpick_ones _ s1 iu) in E by lia.
  apply app_inv_head in E.
  unfold bidx at 1 2. rewrite Hli. fold iu.
  rewrite bpick_length by lia. rewrite E.
  unfold bidx, iu. rewrite skipn_skipn, Hli. f_equal. f_equal. lia.
Qed.

Lemma bidx_in_bounds sm s idx :
  stretches sm s -> in_bounds s idx -> in_bounds sm (bidx sm idx).
Proof.
  intros [Hl Hf] Hi. unfold bidx. rewrite (in_bounds_length _ _ Hi).
  apply (bpick_in_bounds _ _ _ Hf). now apply in_bounds_skipn.
Qed.

Lemma stretches_suffix c s m :
  m <= List.length s -> fits c (skipn (List.length s - m) s) ->
  stretches c s.
Proof.
  intros Hm Hf. pose proof (fits_length _ _ Hf) as E.
  rewrite length_skipn in E. split; [lia|].
  now replace (List.length s - List.length c) with (List.length s - m) by lia.
Qed.

(** A binary operation on two operands that stretch to [s]: it returns a
    tensor that stretches to [s], and entry by entry it is the operation on
    the entries that meet. *)
Lemma binop_stretch f t1 t2 s :
  stretches (shape t1) s -> stretches (shape t2) s ->
  exists t, binop f t1 t2 = Ok t /\ wf t /\ stretches (shape t) s
    /\ (shape t1 = s -> shape t = s)
    /\ forall idx, in_bounds s idx ->
         meet t idx = f (meet t1 idx) (meet t2 idx).
Proof.
  intros H1 H2. unfold binop, bshape.
  set (m := Nat.max (List.length (shape t1)) (List.length (shape t2))).
  assert (Hm : m <= List.length s) by (destruct H1, H2; lia).
  pose proof (fits_align _ s m H1 (Nat.le_max_l _ _) Hm) as Ha1.
  pose proof (fits_align _ s m H2 (Nat.le_max_r _ _) Hm) as Ha2.
  destruct (bzip_fits_both _ _ _ Ha1 Ha2) as (c & -> & Hc & Hc1 & Hc2).
  pose proof (stretches_suffix c s m Hm Hc) as Hcs.
  assert (Hlc : List.length c = m).
  { apply fits_length in Hc. rewrite length_skipn in Hc. lia. }
  assert (S1 : stretches (shape t1) c).
  { split; [rewrite Hlc; apply Nat.le_max_l|].
    rewrite Hlc. now apply fits_unalign. }
  assert (S2 : stretches (shape t2) c).
  { split; [rewrite Hlc; apply Nat.le_max_r|].
    rewrite Hlc. now apply fits_unalign. }
  eexists. split; [reflexivity|]. split; [apply wf_tabulate|].
  cbn [shape tabulate]. split; [exact Hcs|]. split.
  - intros E.
    assert (Em : m = List.length s)
      by (unfold m; rewrite E; destruct H2; lia).
    clearbody m. rewrite E in *.
    rewrite Em, Nat.sub_diag in Hc. cbn [skipn] in Hc.
    rewrite Em, Nat.sub_diag in Ha1. cbn [skipn] in Ha1.
    unfold align in Ha1. rewrite Nat.sub_diag in Ha1. cbn [repeat app] in Ha1.
    unfold align in Hc1. rewrite Em, Nat.sub_diag in Hc1.
    cbn [repeat app] in Hc1.
    clear - Hc Hc1. revert c Hc Hc1.
    induction s as [|d s IH]; intros c Hc Hc1; inversion Hc; subst;
      [reflexivity|].
    inversion Hc1; subst. f_equal; [|now apply IH].
    repeat match goal with H : _ \/ _ |- _ => destruct H end; congruence.
  - intros idx Hi. unfold meet at 1. cbn [shape tabulate].
    rewrite get_tabulate by now apply (bidx_in_bounds c s).
    unfold meet.
    now rewrite (bidx_bidx _ c s idx S1 Hcs Hi),
      (bidx_bidx _ c s idx S2 Hcs Hi).
Qed.

End StretchFacts.

(** ** The transform on operands of lower rank *)

Module StretchTransformFacts.
Import Tensor Reduce BatchNorm Broadcast BatchNormUse Examples Scenarios
  TensorFacts MovingAverageFacts ShapeFacts StatFacts TransformFacts
  GhostBatchFacts FusedFacts CallFacts BuildFacts AverageFacts
  TrainingValueFacts FusedStepFacts OutputShapeFacts StretchFacts.
Local Open Scope R_scope.

Lemma meet_tmap (f : R -> R) t s idx :
  wf t -> stretches (shape t) s -> in_bounds s idx ->
  meet (tmap f t) idx = f (meet t idx).
Proof.
  intros Hw Hs Hi. unfold meet. cbn [shape tmap].
  apply get_tmap; [assumption|]. now apply (bidx_in_bounds _ s).
Qed.

Lemma meet_same_shape t idx : in_bounds (shape t) idx -> meet t idx = get t idx.
Proof. intros H. unfold meet. now rewrite bidx_id. Qed.

(** [tf.nn.batch_normalization] on statistics and parameters that
    broadcast to the input, whatever their ranks: it returns a tensor of
    the shape of the input, and entry by entry it is
    [x * inv + (offset - mean * inv)] with
    [inv = scale / sqrt (variance + epsilon)], each operand taken where it
    meets the entry. *)
Lemma batch_normalization_stretch x mean variance offset scale eps :
  wf mean -> wf variance ->
  stretches (shape mean) (shape x) -> stretches (shape variance) (shape x) ->
  opt_stretches scale (shape x) -> opt_stretches offset (shape x) ->
  exists out,
    batch_normalization x mean variance offset scale eps = Ok out
    /\ shape out = shape x /\ wf out
    /\ forall idx, in_bounds (shape x) idx ->
         let inv := / sqrt (meet variance idx + eps) * opt_meet scale 1 idx in
         get out idx
         = get x idx * inv + (opt_meet offset 0 idx - meet mean idx * inv).
Proof.
  intros Hwm Hwv Hsm Hsv Hsc Hof. unfold batch_normalization.
  set (s := shape x) in *.
  set (inv0 := tmap (fun v => / sqrt (v + eps)) variance).
  assert (Hinv : exists inv,
            match scale with
            | Some g => binop Rmult inv0 g
            | None => Ok inv0
            end = Ok inv
            /\ wf inv /\ stretches (shape inv) s
            /\ forall idx, in_bounds s idx ->
                 meet inv idx
                 = / sqrt (meet variance idx + eps) * opt_meet scale 1 idx).
  { assert (H0 : forall idx, in_bounds s idx ->
              meet inv0 idx = / sqrt (meet variance idx + eps)).
    { intros idx Hi. unfold inv0. now rewrite (meet_tmap _ _ s). }
    destruct scale as [g|].
    - destruct Hsc as [Hwg Hsg].
      destruct (binop_stretch Rmult inv0 g s Hsv Hsg)
        as (inv & -> & Hwi & Hsi & _ & Hgi).
      exists inv. split; [reflexivity|]. split; [exact Hwi|].
      split; [exact Hsi|]. intros idx Hi. rewrite (Hgi idx Hi), H0 by exact Hi.
      reflexivity.
    - exists inv0. split; [reflexivity|]. split; [now apply wf_tmap|].
      split; [exact Hsv|]. intros idx Hi. rewrite H0 by exact Hi.
      cbn [opt_meet]. ring. }
  destruct Hinv as (inv & -> & Hwi & Hsi & Hgi). cbn [bind].
  destruct (binop_stretch Rmult x inv s (stretches_refl s) Hsi)
    as (xs & -> & Hwx & _ & Hsx & Hgx).
  specialize (Hsx eq_refl). cbn [bind].
  destruct (binop_stretch Rmult mean inv s Hsm Hsi)
    as (mi & -> & Hwmi & Hsmi & _ & Hgmi).
  cbn [bind].
  assert (Hshift : exists shift,
            match offset with
            | Some o => binop Rminus o mi
            | None => Ok (tmap Ropp mi)
            end = Ok shift
            /\ stretches (shape shift) s
            /\ forall idx, in_bounds s idx ->
                 meet shift idx
                 = opt_meet offset 0 idx - meet mean idx * meet inv idx).
  { destruct offset as [o|].
    - destruct Hof as [Hwo Hso].
      destruct (binop_stretch Rminus o mi s Hso Hsmi)
        as (sh & -> & _ & Hssh & _ & Hgsh).
      exists sh. split; [reflexivity|]. split; [exact Hssh|].
      intros idx Hi. now rewrite (Hgsh idx Hi), (Hgmi idx Hi).
    - eexists. split; [reflexivity|]. split; [exact Hsmi|].
      intros idx Hi. rewrite (meet_tmap _ _ s), (Hgmi idx Hi) by assumption.
      cbn [opt_meet]. ring. }
  destruct Hshift as (shift & -> & Hss & Hgs). cbn [bind].
  assert (Hxs : stretches (shape xs) s) by (rewrite Hsx; apply stretches_refl).
  destruct (binop_stretch Rplus xs shift s Hxs Hss)
    as (out & -> & Hwo & _ & Hso & Hgo).
  specialize (Hso Hsx).
  exists out. split; [reflexivity|]. split; [exact Hso|]. split; [exact Hwo|].
  intros idx Hi. cbv zeta.
  rewrite <- (meet_same_shape out) by (rewrite Hso; exact Hi).
  rewrite (Hgo idx Hi), (Hgx idx Hi), (Hgs idx Hi), (Hgi idx Hi).
  rewrite (meet_same_shape x idx Hi). reflexivity.
Qed.

End StretchTransformFacts.

(** ** Facts on the reshaped statistics of a single axis *)

Module ChannelFacts.
Import Tensor Reduce BatchNorm Broadcast BatchNormUse Examples Scenarios
  TensorFacts MovingAverageFacts ShapeFacts StatFacts TransformFacts
  GhostBatchFacts FusedFacts CallFacts BuildFacts AverageFacts
  TrainingValueFacts FusedStepFacts OutputShapeFacts StretchFacts
  StretchTransformFacts.

Lemma size_ones k : size (repeat 1 k) = 1.
Proof. induction k as [|k IH]; cbn [repeat size]; lia. Qed.

Lemma ravel_bpick_ones k : forall idx,
  ravel (repeat 1 k) (bpick (repeat 1 k) idx) = 0.
Proof.
  induction k as [|k IH]; intros [|i idx]; cbn [repeat bpick ravel];
    try reflexivity.
  change (1 =? 1) with true. cbv iota. now rewrite IH.
Qed.

Lemma list_set_cons (A : Type) p (c d : A) l :
  list_set (S p) c (d :: l) = d :: list_set p c l.
Proof. reflexivity. Qed.

(** The broadcast shape of a single axis: the size of the dimension at
    position [p], 1 elsewhere. *)
Lemma onehot_size p : forall n c,
  p < n -> size (list_set p c (repeat 1 n)) = c.
Proof.
  induction p as [|p IH]; intros [|n] c H; try lia.
  - unfold list_set. cbn [repeat firstn skipn app size].
    rewrite size_ones. lia.
  - cbn [repeat]. rewrite list_set_cons. cbn [size]. rewrite IH by lia. lia.
Qed.

Lemma onehot_fits p : forall s,
  p < List.length s ->
  fits (list_set p (nth p s 0) (repeat 1 (List.length s))) s.
Proof.
  induction p as [|p IH]; intros [|d s] H; cbn [List.length] in H; try lia.
  - unfold list_set. cbn [List.length repeat firstn skipn app nth].
    constructor; [now right|]. apply fits_ones. reflexivity.
  - cbn [List.length repeat nth]. rewrite list_set_cons.
    constructor; [now left|]. apply IH. lia.
Qed.

Lemma onehot_ravel p : forall n c idx,
  p < n -> List.length idx = n ->
  ravel (list_set p c (repeat 1 n)) (bpick (list_set p c (repeat 1 n)) idx)
  = if c =? 1 then 0 else nth p idx 0.
Proof.
  induction p as [|p IH]; intros [|n] c [|i idx] H Hl; cbn [List.length] in Hl;
    try lia.
  - unfold list_set. cbn [repeat firstn skipn app bpick ravel nth].
    rewrite size_ones, ravel_bpick_ones.
    destruct (c =? 1); lia.
  - cbn [repeat]. rewrite list_set_cons. cbn [bpick ravel nth].
    change (1 =? 1) with true. cbv iota. rewrite IH by lia. lia.
Qed.

Lemma in_bounds_nth s idx p :
  in_bounds s idx -> p < List.length s -> nth p idx 0 < nth p s 0.
Proof.
  intros H. revert p. induction H as [|i d idx s Hlt _ IH]; intros [|p] Hp;
    cbn [List.length nth] in *; try lia. apply IH. lia.
Qed.

Lemma reshape_exact (A : Type) (t : tensor A) sh :
  List.length (data t) = size sh ->
  reshape t (map Z.of_nat sh) = Ok (mkTensor sh (data t)).
Proof.
  intros H. unfold reshape. rewrite no_dim_below, known_dims_of_nat.
  rewrite Nat.eqb_refl, zprod_of_nat, H, Z.eqb_refl.
  f_equal. f_equal. rewrite map_map. rewrite <- (map_id sh) at 2.
  apply map_ext. intros d. apply Nat2Z.id.
Qed.

Lemma others_last p n :
  p < n -> same_shape (others p n) (seq 0 (n - 1)) = true -> p = n - 1.
Proof.
  intros Hp H. apply same_shape_eq in H.
  destruct (Nat.eq_dec p (n - 1)) as [E|Hn]; [exact E|].
  exfalso. assert (Hin : In p (others p n)).
  { rewrite H. apply in_seq. lia. }
  unfold others in Hin. apply filter_In in Hin as [_ Hz].
  unfold zmem in Hz. cbn [existsb] in Hz. rewrite Z.eqb_refl in Hz.
  discriminate.
Qed.

Lemma skipn_last (A : Type) (d : A) : forall n l,
  List.length l = S n -> skipn n l = [nth n l d].
Proof.
  induction n as [|n IH]; intros [|x l] H; cbn [List.length] in H; try lia.
  - destruct l; [reflexivity | cbn in H; lia].
  - cbn [skipn nth]. apply IH. lia.
Qed.

Lemma get_vector c v i :
  shape v = [c] -> get v [i] = nth i (data v) 0%R.
Proof. intros Hs. unfold get. rewrite Hs. cbn [ravel size]. f_equal. lia. Qed.

(** A vector over the dimension at position [p], reshaped to the
    broadcast shape of that axis: the entry that meets a position is the
    entry of the channel of that position. *)
Lemma vector_reshaped p s v :
  p < List.length s -> wf v -> shape v = [nth p s 0] ->
  let bs := list_set p (nth p s 0) (repeat 1 (List.length s)) in
  exists v',
    reshape v (map Z.of_nat bs) = Ok v'
    /\ wf v' /\ stretches (shape v') s
    /\ forall idx, in_bounds s idx -> meet v' idx = get v [nth p idx 0].
Proof.
  intros Hp Hw Hs bs.
  set (n := List.length s) in *. set (c := nth p s 0) in *.
  assert (Hsz : List.length (data v) = size bs).
  { unfold bs. rewrite onehot_size by exact Hp. unfold wf in Hw.
    rewrite Hw, Hs. cbn [size]. lia. }
  rewrite (reshape_exact _ v bs Hsz).
  eexists. split; [reflexivity|]. split; [exact Hsz|].
  split; [apply fits_stretches, onehot_fits; exact Hp|].
  intros idx Hi. pose proof (in_bounds_length _ _ Hi) as Hl.
  unfold meet. cbn [shape]. rewrite bidx_same_rank.
  2:{ rewrite Hl. symmetry. apply fits_length with (s := s).
      apply onehot_fits. exact Hp. }
  unfold get at 1. cbn [shape data]. unfold bs.
  rewrite onehot_ravel by assumption. rewrite (get_vector c) by exact Hs.
  pose proof (in_bounds_nth s idx p Hi Hp) as Hlt. fold c in Hlt.
  destruct (Nat.eqb_spec c 1); [f_equal; lia | reflexivity].
Qed.

(** A vector over the last dimension broadcasts as it is. *)
Lemma vector_last p s v :
  p < List.length s -> p = List.length s - 1 -> shape v = [nth p s 0] ->
  stretches (shape v) s
  /\ forall idx, in_bounds s idx -> meet v idx = get v [nth p idx 0].
Proof.
  intros Hp Ep Hs.
  set (n := List.length s) in *. set (c := nth p s 0) in *.
  assert (Hsk : skipn (n - 1) s = [c]).
  { unfold c. rewrite Ep. apply skipn_last. fold n. lia. }
  split.
  { rewrite Hs. split; [cbn [List.length]; lia|].
    cbn [List.length]. fold n. rewrite Hsk. apply fits_refl. }
  intros idx Hi. pose proof (in_bounds_length _ _ Hi) as Hl. fold n in Hl.
  unfold meet, bidx. rewrite Hs, Hl. cbn [List.length].
  rewrite (skipn_last nat 0 (n - 1) idx) by lia. cbn [bpick].
  pose proof (in_bounds_nth s idx p Hi Hp) as Hlt. fold c in Hlt.
  rewrite <- Ep.
  destruct (Nat.eqb_spec c 1); [|reflexivity].
  f_equal. f_equal. lia.
Qed.

(** [_broadcast] on a parameter or statistic of a single-axis layer: the
    result broadcasts against the input, and the entry that meets a
    position is the entry of the channel of that position. *)
Lemma broadcast_single p s v :
  p < List.length s -> wf v -> shape v = [nth p s 0] ->
  exists v',
    _broadcast (List.length s) (others p (List.length s))
      (list_set p (nth p s 0) (repeat 1 (List.length s))) v = Ok v'
    /\ wf v' /\ stretches (shape v') s
    /\ forall idx, in_bounds s idx -> meet v' idx = get v [nth p idx 0].
Proof.
  intros Hp Hw Hs. unfold _broadcast. rewrite Hs. cbn [List.length].
  destruct (negb (1 =? List.length s)
            && negb (same_shape (others p (List.length s))
                       (seq 0 (List.length s - 1)))) eqn:Eb.
  - now apply vector_reshaped.
  - exists v. split; [reflexivity|]. split; [exact Hw|].
    apply vector_last; [exact Hp | | exact Hs].
    apply andb_false_iff in Eb.
    destruct Eb as [E|E]; apply negb_false_iff in E.
    + apply Nat.eqb_eq in E. lia.
    + now apply others_last.
Qed.

End ChannelFacts.

(** ** Inference with a single axis *)

Module InferenceFormulaFacts.
Import Tensor Reduce BatchNorm Broadcast BatchNormUse Examples Scenarios
  TensorFacts MovingAverageFacts ShapeFacts StatFacts TransformFacts
  GhostBatchFacts FusedFacts CallFacts BuildFacts AverageFacts
  TrainingValueFacts FusedStepFacts OutputShapeFacts StretchFacts
  StretchTransformFacts ChannelFacts.
Local Open Scope R_scope.

Lemma broadcast_opt_single p s o :
  (p < List.length s)%nat -> opt_spans [nth p s 0%nat] o ->
  exists o',
    _broadcast_opt (List.length s) (others p (List.length s))
      (list_set p (nth p s 0%nat) (repeat 1%nat (List.length s))) o = Ok o'
    /\ opt_stretches o' s
    /\ forall idx dflt, in_bounds s idx ->
         opt_meet o' dflt idx = param_at o dflt [nth p idx 0%nat].
Proof.
  intros Hp Ho. destruct o as [t|]; cbn [_broadcast_opt].
  - destruct Ho as [Hw Hs].
    destruct (broadcast_single p s t Hp Hw Hs) as (t' & -> & Hw' & Hs' & Hg).
    cbn [bind]. exists (Some t'). split; [reflexivity|].
    split; [split; assumption|]. intros idx dflt Hi. now apply Hg.
  - exists None. split; [reflexivity|]. split; [exact I|]. reflexivity.
Qed.

Lemma single_axis_setup self p s :
  virtual_batch_size self = None -> axis self = AxisList [Z.of_nat p] ->
  (p < List.length s)%nat ->
  axis_list self = Ok [Z.of_nat p]
  /\ reduction_axes_of self [Z.of_nat p] (List.length s)
     = Ok (others p (List.length s))
  /\ broadcast_shape_of [Z.of_nat p] s
     = Ok (list_set p (nth p s 0%nat) (repeat 1%nat (List.length s))).
Proof.
  intros Hv Ha Hp. unfold axis_list, reduction_axes_of, broadcast_shape_of.
  rewrite Ha, Hv. cbn [is_some]. split; [reflexivity|].
  split; [reflexivity|].
  destruct (Z.ltb_spec (Z.of_nat p) 0) as [|_]; [lia|]. cbv iota.
  destruct (Z.ltb_spec (Z.of_nat p) 0) as [|_]; [lia|].
  destruct (Z.leb_spec (Z.of_nat (List.length s)) (Z.of_nat p)); [lia|].
  cbn [orb]. now rewrite Nat2Z.id.
Qed.

(** Inference with a single-axis layer on the generic path, as the
    docstring has it: [gamma * (x - moving_mean) / sqrt (moving_var +
    epsilon) + beta], the parameters and statistics taken at the channel of
    the entry; no variable changes. *)
Theorem inference_formula e self vars x training0 p :
  truthy (fused self) = false -> virtual_batch_size self = None ->
  axis self = AxisList [Z.of_nat p] -> (p < List.length (shape x))%nat ->
  _get_training_value e self training0 = TrainBool false ->
  let c := nth p (shape x) 0%nat in
  spans [c] (moving_mean vars) -> spans [c] (moving_variance vars) ->
  opt_spans [c] (gamma vars) -> opt_spans [c] (beta vars) ->
  exists out,
    call e self vars x training0 = Ok (out, vars, [])
    /\ shape out = shape x
    /\ forall idx, in_bounds (shape x) idx ->
         let k := nth p idx 0%nat in
         get out idx
         = param_at (gamma vars) 1 [k]
           * (get x idx - get (moving_mean vars) [k])
           / sqrt (get (moving_variance vars) [k] + epsilon self)
           + param_at (beta vars) 0 [k].
Proof.
  intros Hf Hv Ha Hp E0 c [Hwm Hsm] [Hwv Hsv] Hg Hb.
  set (s := shape x) in *.
  destruct (single_axis_setup self p s Hv Ha Hp) as (Eax & Era & Ebs).
  destruct (broadcast_opt_single p s (gamma vars) Hp Hg)
    as (scale0 & Esc & Hssc & Hgsc).
  destruct (broadcast_opt_single p s (beta vars) Hp Hb)
    as (offset0 & Eof & Hsof & Hgof).
  destruct (broadcast_single p s (moving_mean vars) Hp Hwm Hsm)
    as (mean_b & Emb & Hwmb & Hsmb & Hgmb).
  destruct (broadcast_single p s (moving_variance vars) Hp Hwv Hsv)
    as (var_b & Evb & Hwvb & Hsvb & Hgvb).
  destruct (batch_normalization_stretch x mean_b var_b offset0 scale0
              (epsilon self) Hwmb Hwvb Hsmb Hsvb Hssc Hsof)
    as (out & Eo & Hso & Hwo & Hgo).
  exists out. split; [|split; [exact Hso|]].
  - unfold call. rewrite E0. unfold virtual_batching, undo_virtual_batching.
    rewrite Hv, Hf. cbn [bind is_some]. fold s. rewrite Eax. cbn [bind].
    rewrite Era. cbn [bind]. rewrite Ebs. cbn [bind]. rewrite Esc.
    cbn [bind]. rewrite Eof. cbn [bind constant_value].
    rewrite Emb. cbn [bind]. rewrite Evb. cbn [bind]. rewrite Eo.
    cbn [bind]. rewrite Hso. fold s. rewrite same_shape_refl. reflexivity.
  - intros idx Hi k. rewrite (Hgo idx Hi). cbv zeta.
    rewrite (Hgsc idx 1 Hi), (Hgof idx 0 Hi), (Hgmb idx Hi), (Hgvb idx Hi).
    fold k. unfold Rdiv. ring.
Qed.

(** Inference with the dense layer, gamma [2; 3] and beta [5; 7]. *)
Lemma inference_formula_witness :
  exists out,
    call eager_env (dense_layer true) scaled_vars batch_2x2
      (Some (TrainBool false)) = Ok (out, scaled_vars, [])
    /\ shape out = [2; 2]%nat
    /\ forall idx, in_bounds [2; 2]%nat idx ->
         let k := nth 1 idx 0%nat in
         get out idx
         = param_at (gamma scaled_vars) 1 [k]
           * (get batch_2x2 idx - get (moving_mean scaled_vars) [k])
           / sqrt (get (moving_variance scaled_vars) [k] + 1 / 1000)
           + param_at (beta scaled_vars) 0 [k].
Proof.
  exact (inference_formula eager_env (dense_layer true) scaled_vars batch_2x2
           (Some (TrainBool false)) 1 eq_refl eq_refl eq_refl
           (Nat.lt_succ_diag_r 1) eq_refl
           (conj eq_refl eq_refl) (conj eq_refl eq_refl)
           (conj eq_refl eq_refl) (conj eq_refl eq_refl)).
Defined.

End InferenceFormulaFacts.

(** ** Facts on the statistics of a cell *)

Module CellFacts.
Import Tensor Reduce BatchNorm Broadcast BatchNormUse Examples Scenarios
  TensorFacts MovingAverageFacts ShapeFacts StatFacts TransformFacts
  GhostBatchFacts FusedFacts CallFacts BuildFacts AverageFacts
  TrainingValueFacts FusedStepFacts OutputShapeFacts StretchFacts
  StretchTransformFacts ChannelFacts InferenceFormulaFacts.
Local Open Scope R_scope.

Lemma nth_data_get t k :
  (k < size (shape t))%nat -> nth k (data t) 0 = get t (unravel (shape t) k).
Proof. intros H. unfold get. now rewrite ravel_unravel. Qed.

(** The cell of a reduction of a tensor that is, on that cell, the image
    of another tensor. *)
Lemma cell_map (F : R -> R) x y axes j :
  shape y = shape x ->
  (forall idx, in_bounds (shape x) idx -> mask 0 axes idx = j ->
     get y idx = F (get x idx)) ->
  cell y axes j = map F (cell x axes j).
Proof.
  intros Hs H. unfold cell. rewrite Hs, map_map. apply map_ext_in.
  intros k Hk. apply filter_In in Hk as [Hk Hm]. apply in_seq in Hk.
  apply idx_eqb_eq in Hm.
  rewrite (nth_data_get x) by lia.
  rewrite <- H; [|apply unravel_in_bounds; lia | exact Hm].
  rewrite <- Hs. apply nth_data_get. rewrite Hs. lia.
Qed.

Lemma rsum_affine a b l :
  rsum (map (fun v => a * v + b) l) = a * rsum l + b * INR (List.length l).
Proof.
  induction l as [|x l IH].
  - cbn. unfold rsum. cbn. ring.
  - cbn [map List.length]. change (rsum (?h :: ?t)) with (h + rsum t).
    rewrite IH, S_INR. change (rsum (x :: l)) with (x + rsum l). ring.
Qed.

Lemma mean_of_affine a b l :
  l <> [] -> mean_of (map (fun v => a * v + b) l) = a * mean_of l + b.
Proof.
  intros Hne. unfold mean_of. rewrite rsum_affine, length_map.
  field. destruct l; [contradiction|]. apply not_0_INR. discriminate.
Qed.

Lemma rsum_scale a l : rsum (map (fun v => a * v) l) = a * rsum l.
Proof.
  induction l as [|x l IH]; [unfold rsum; cbn; ring|].
  cbn [map]. change (rsum (?h :: ?t)) with (h + rsum t). rewrite IH.
  change (rsum (x :: l)) with (x + rsum l). ring.
Qed.

Lemma mean_of_scale a l : mean_of (map (fun v => a * v) l) = a * mean_of l.
Proof.
  unfold mean_of. rewrite rsum_scale, length_map. unfold Rdiv. ring.
Qed.

Lemma rsum_nonneg l : Forall (fun v => 0 <= v) l -> 0 <= rsum l.
Proof.
  induction 1 as [|x l Hx _ IH]; [unfold rsum; cbn; lra|].
  change (rsum (x :: l)) with (x + rsum l). lra.
Qed.

Lemma mean_of_nonneg l : Forall (fun v => 0 <= v) l -> 0 <= mean_of l.
Proof.
  intros H. unfold mean_of, Rdiv.
  destruct l as [|x l].
  - unfold rsum. cbn. lra.
  - apply Rmult_le_pos; [now apply rsum_nonneg|].
    apply Rlt_le, Rinv_0_lt_compat, lt_0_INR. cbn. lia.
Qed.

Lemma bpick_keep_shape axes s : forall i idx,
  in_bounds s idx -> bpick (keep_shape i axes s) idx = mask i axes idx.
Proof.
  induction s as [|d s IH]; intros i idx Hi;
    inversion Hi as [|x d' idx' s' Hlt Hi']; subst;
    cbn [keep_shape bpick mask]; [reflexivity|].
  rewrite (IH (S i) idx' Hi'). f_equal.
  destruct (in_axes axes i); [reflexivity|].
  destruct (Nat.eqb_spec d 1); [lia | reflexivity].
Qed.

Lemma in_bounds_pos s idx : in_bounds s idx -> Forall (lt 0%nat) s.
Proof. induction 1 as [|i d idx s Hlt _ IH]; constructor; [lia | exact IH]. Qed.

Lemma in_bounds_mask axes s : forall i idx,
  Forall (lt 0%nat) s -> in_bounds s idx ->
  in_bounds (keep_shape i axes s) (mask i axes idx).
Proof.
  induction s as [|d s IH]; intros i idx Hpos Hi;
    inversion Hi as [|x d' idx' s' Hlt Hi']; subst;
    cbn [keep_shape mask]; constructor.
  - destruct (in_axes axes i); lia.
  - apply IH; [now inversion Hpos | assumption].
Qed.

(** The batch statistics of [tf.nn.moments] with kept dimensions: the mean
    of every cell and the mean of the squared distances to it. *)
Lemma moments_of_cells x axes :
  in_range (List.length (shape x)) axes = true ->
  let ks := keep_shape 0 axes (shape x) in
  exists m v,
    nn_moments x axes true = Ok (m, v)
    /\ shape m = ks /\ shape v = ks /\ wf m /\ wf v
    /\ forall j, in_bounds ks j ->
         get m j = mean_of (cell x axes j)
         /\ get v j
            = mean_of (map (fun t => squared_difference t (get m j))
                           (cell x axes j))
         /\ 0 <= get v j.
Proof.
  intros Hr ks. pose proof (nn_moments_ok x axes Hr) as H. cbv zeta in H.
  fold ks in H.
  set (m := tabulate ks (fun idx => mean_of (cell x axes idx))) in *.
  set (sq := tabulate (shape x) _) in *.
  eexists. eexists. split; [exact H|].
  split; [reflexivity|]. split; [reflexivity|].
  split; [apply wf_tabulate|]. split; [apply wf_tabulate|].
  intros j Hj.
  assert (Em : get m j = mean_of (cell x axes j))
    by (unfold m; now rewrite get_tabulate).
  assert (Ec : cell sq axes j
               = map (fun t => squared_difference t (get m j)) (cell x axes j)).
  { apply cell_map; [reflexivity|]. intros idx Hi Hm. unfold sq.
    rewrite get_tabulate by exact Hi.
    unfold ks. now rewrite bpick_keep_shape, Hm by exact Hi. }
  split; [exact Em|].
  rewrite get_tabulate by exact Hj. rewrite Ec. split; [reflexivity|].
  apply mean_of_nonneg, Forall_map, Forall_forall. intros t _.
  cbv beta. unfold squared_difference. apply Rle_0_sqr.
Qed.

(** A tensor that is an affine image of [x] on a cell: its mean over the
    cell is the image of the mean, and its mean squared distance to that
    is the variance of [x] times the square of the slope. *)
Lemma affine_cell x y axes j a b :
  shape y = shape x ->
  cell x axes j <> [] ->
  (forall idx, in_bounds (shape x) idx -> mask 0 axes idx = j ->
     get y idx = a * get x idx + b) ->
  let mu := mean_of (cell x axes j) in
  mean_of (cell y axes j) = a * mu + b
  /\ mean_of (map (fun t => squared_difference t (a * mu + b))
                  (cell y axes j))
     = a * a * mean_of (map (fun t => squared_difference t mu)
                            (cell x axes j)).
Proof.
  intros Hs Hne H mu.
  rewrite (cell_map (fun v => a * v + b) x y axes j Hs H).
  split; [now apply mean_of_affine|].
  rewrite map_map, <- mean_of_scale, map_map. f_equal.
  apply map_ext. intros t. unfold squared_difference. ring.
Qed.

End CellFacts.

(** ** Facts on the squeezed moments of a single axis *)

Module SqueezeFacts.
Import Tensor Reduce BatchNorm Broadcast BatchNormUse Examples Scenarios
  TensorFacts MovingAverageFacts ShapeFacts StatFacts TransformFacts
  GhostBatchFacts FusedFacts CallFacts BuildFacts AverageFacts
  TrainingValueFacts FusedStepFacts OutputShapeFacts StretchFacts
  StretchTransformFacts ChannelFacts InferenceFormulaFacts CellFacts.

Lemma in_others p n i :
  in_axes (others p n) i = (i <? n) && negb (i =? p).
Proof.
  apply eq_true_iff_eq. rewrite in_axes_spec. unfold others.
  rewrite filter_In, in_seq, andb_true_iff, Nat.ltb_lt, !negb_true_iff.
  unfold zmem. cbn [existsb]. rewrite orb_false_r.
  rewrite Nat.eqb_neq, Z.eqb_neq. split; intros [H1 H2]; split; lia.
Qed.

Lemma keep_shape_after p n : forall s i,
  i + List.length s = n -> p < i ->
  keep_shape i (others p n) s = repeat 1 (List.length s)
  /\ squeeze_shape i (others p n) s = [].
Proof.
  induction s as [|d s IH]; intros i Hn Hp;
    cbn [keep_shape squeeze_shape List.length repeat]; [now split|].
  cbn [List.length] in Hn. rewrite in_others.
  destruct (Nat.ltb_spec i n) as [_|]; [|lia].
  destruct (Nat.eqb_spec i p); [lia|]. cbn [andb negb].
  destruct (IH (S i)) as [-> ->]; [lia | lia | now split].
Qed.

Lemma keep_shape_others p n : forall s i,
  i + List.length s = n -> i <= p -> p < n ->
  keep_shape i (others p n) s
  = list_set (p - i) (nth (p - i) s 0) (repeat 1 (List.length s))
  /\ squeeze_shape i (others p n) s = [nth (p - i) s 0].
Proof.
  induction s as [|d s IH]; intros i Hn Hi Hp;
    cbn [List.length] in Hn; [lia|].
  cbn [keep_shape squeeze_shape List.length repeat]. rewrite in_others.
  destruct (Nat.ltb_spec i n) as [_|]; [|lia]. cbn [andb].
  destruct (Nat.eqb_spec i p) as [->|Hne]; cbn [negb].
  - rewrite Nat.sub_diag. cbn [nth].
    destruct (keep_shape_after p n s (S p)) as [-> ->]; [lia | lia |].
    now split.
  - destruct (IH (S i)) as [-> ->]; [lia | lia | lia |].
    replace (p - i) with (S (p - S i)) by lia. cbn [nth].
    rewrite list_set_cons. now split.
Qed.

Lemma single_axis_shapes p s :
  p < List.length s ->
  keep_shape 0 (others p (List.length s)) s
  = list_set p (nth p s 0) (repeat 1 (List.length s))
  /\ squeeze_shape 0 (others p (List.length s)) s = [nth p s 0]
  /\ in_range (List.length s) (others p (List.length s)) = true.
Proof.
  intros Hp.
  destruct (keep_shape_others p (List.length s) s 0) as [-> ->];
    [reflexivity | lia | exact Hp |].
  rewrite Nat.sub_0_r. split; [reflexivity|]. split; [reflexivity|].
  apply in_range_filter_seq. lia.
Qed.

(** [tf.nn.moments] without kept dimensions holds the same entries under
    the squeezed shape. *)
Lemma nn_moments_squeezed x axes m v :
  nn_moments x axes true = Ok (m, v) ->
  nn_moments x axes false
  = Ok (mkTensor (squeeze_shape 0 axes (shape x)) (data m),
        mkTensor (squeeze_shape 0 axes (shape x)) (data v)).
Proof.
  unfold nn_moments. intros H.
  destruct (reduce_mean x axes true) as [m0|]; [|discriminate H].
  cbn [bind] in *.
  destruct (binop squared_difference x m0) as [sq|]; [|discriminate H].
  cbn [bind] in *.
  destruct (reduce_mean sq axes true) as [v0|]; [|discriminate H].
  cbn [bind] in *. now injection H as <- <-.
Qed.

(** The channel statistics of a single-axis layer: entry [i] of the
    squeezed statistic is the statistic of the cell of every position on
    channel [i]. *)
Lemma squeezed_entry p s t idx :
  p < List.length s -> in_bounds s idx ->
  shape t = keep_shape 0 (others p (List.length s)) s ->
  get (mkTensor [nth p s 0] (data t)) [nth p idx 0]
  = get t (mask 0 (others p (List.length s)) idx).
Proof.
  intros Hp Hi Hs.
  destruct (single_axis_shapes p s Hp) as (Ek & _ & _).
  rewrite (get_vector (nth p s 0)) by reflexivity. cbn [data].
  unfold get. rewrite Hs, <- (bpick_keep_shape _ s 0 idx Hi). rewrite Ek.
  rewrite onehot_ravel by (try apply in_bounds_length; assumption).
  pose proof (in_bounds_nth s idx p Hi Hp) as Hlt.
  destruct (Nat.eqb_spec (nth p s 0) 1); [f_equal; lia | reflexivity].
Qed.

End SqueezeFacts.

(** ** Training with a single axis *)

Module TrainingFacts.
Import Tensor Reduce BatchNorm Broadcast BatchNormUse Examples Scenarios
  TensorFacts MovingAverageFacts ShapeFacts StatFacts TransformFacts
  GhostBatchFacts FusedFacts CallFacts BuildFacts AverageFacts
  TrainingValueFacts FusedStepFacts OutputShapeFacts StretchFacts
  StretchTransformFacts ChannelFacts InferenceFormulaFacts CellFacts
  SqueezeFacts.
Local Open Scope R_scope.

(** One training step of a single-axis layer on the generic path. *)
Lemma training_step e self vars x training0 p :
  truthy (fused self) = false -> virtual_batch_size self = None ->
  axis self = AxisList [Z.of_nat p] -> (p < List.length (shape x))%nat ->
  renorm self = false -> adjustment self = None ->
  smart_cond (_get_training_value e self training0) = Ok true ->
  Forall (lt 0%nat) (shape x) ->
  let c := nth p (shape x) 0%nat in
  spans [c] (moving_mean vars) -> spans [c] (moving_variance vars) ->
  opt_spans [c] (gamma vars) -> opt_spans [c] (beta vars) ->
  let ra := others p (List.length (shape x)) in
  exists out vars' bm bv,
    call e self vars x training0
    = Ok (out, vars', [(MovingMean, bm); (MovingVariance, bv)])
    /\ shape out = shape x
    /\ gamma vars' = gamma vars /\ beta vars' = beta vars
    /\ forall idx, in_bounds (shape x) idx ->
         let i := nth p idx 0%nat in
         let j := mask 0 ra idx in
         let mu := mean_of (cell x ra j) in
         let var := mean_of (map (fun t => squared_difference t mu)
                                 (cell x ra j)) in
         get bm [i] = mu /\ get bv [i] = var
         /\ get out idx
            = param_at (gamma vars) 1 [i] * (get x idx - mu)
              / sqrt (var + epsilon self) + param_at (beta vars) 0 [i]
         /\ get (moving_mean vars') [i]
            = momentum self * get (moving_mean vars) [i]
              + (1 - momentum self) * mu
         /\ get (moving_variance vars') [i]
            = momentum self * get (moving_variance vars) [i]
              + (1 - momentum self) * var.
Proof.
  intros Hf Hv Ha Hp Hr Hadj Ht Hpos c [Hwmm Hsmm] [Hwmv Hsmv] Hg Hb ra.
  set (s := shape x) in *. set (n := List.length s) in *.
  destruct (single_axis_setup self p s Hv Ha Hp) as (Eax & Era & Ebs).
  destruct (single_axis_shapes p s Hp) as (Eks & Esq & Hrange).
  fold n in Eks, Esq, Hrange, Era, Ebs. fold ra in Eks, Esq, Hrange, Era.
  fold c in Eks, Esq, Ebs.
  destruct (broadcast_opt_single p s (gamma vars) Hp Hg)
    as (scale0 & Esc & Hssc & Hgsc).
  destruct (broadcast_opt_single p s (beta vars) Hp Hb)
    as (offset0 & Eof & Hsof & Hgof).
  fold n ra c in Esc, Eof.
  destruct (moments_of_cells x ra Hrange)
    as (m & v & Emv & Hsm & Hsv & Hwm & Hwv & Hmv).
  fold s in Hsm, Hsv, Hmv.
  pose proof (nn_moments_squeezed x ra m v Emv) as Esqz.
  fold s in Esqz. rewrite Esq in Esqz.
  set (bm := mkTensor [c] (data m)) in *.
  set (bv := mkTensor [c] (data v)) in *.
  assert (Hne : s <> [])
    by (intros E; unfold n in Hp; rewrite E in Hp; cbn in Hp; lia).
  assert (Hwbm : wf bm).
  { unfold wf, bm. cbn [data shape size]. unfold wf in Hwm.
    rewrite Hwm, Hsm, Eks. rewrite onehot_size by exact Hp. lia. }
  assert (Hwbv : wf bv).
  { unfold wf, bv. cbn [data shape size]. unfold wf in Hwv.
    rewrite Hwv, Hsv, Eks. rewrite onehot_size by exact Hp. lia. }
  destruct (batch_size_positive e x Hpos Hne) as (bs & Ebsz & Hbs).
  destruct (moving_average_moved (moving_mean vars) bm (momentum self) bs
              Hwmm (eq_sym Hsmm) Hbs) as (mm & Emm & Hsm' & Hwm' & Hgmm).
  destruct (moving_average_moved (moving_variance vars) bv (momentum self) bs
              Hwmv (eq_sym Hsmv) Hbs) as (mv & Emvv & Hsv' & Hwv' & Hgmv).
  destruct (broadcast_single p s bm Hp Hwbm eq_refl)
    as (mean_b & Emb & Hwmb & Hsmb & Hgmb).
  destruct (broadcast_single p s bv Hp Hwbv eq_refl)
    as (var_b & Evb & Hwvb & Hsvb & Hgvb).
  fold n ra c in Emb, Evb.
  destruct (batch_normalization_stretch x mean_b var_b offset0 scale0
              (epsilon self) Hwmb Hwvb Hsmb Hsvb Hssc Hsof)
    as (out & Eo & Hso & Hwo & Hgo).
  exists out, (set_moving_variance mv (set_moving_mean mm vars)), bm, bv.
  split; [|split; [exact Hso|split; [reflexivity|split; [reflexivity|]]]].
  - unfold call. cbv zeta.
    unfold virtual_batching, undo_virtual_batching.
    rewrite Hv, Hf. cbn [bind is_some]. fold s. fold n. rewrite Eax.
    cbn [bind]. rewrite Era. cbn [bind]. rewrite Ebs. cbn [bind].
    rewrite Esc. cbn [bind]. rewrite Eof. cbn [bind].
    assert (Hm : _moments 0 nn_moments e x ra
                   (false || (1 <? List.length [Z.of_nat p])%nat)
                 = Ok (bm, bv)).
    { destruct s as [|b rest] eqn:Es; [contradiction|].
      inversion Hpos; subst.
      rewrite (moments_nonzero_batch R 0 nn_moments e x ra _ b rest Es)
        by assumption.
      exact Esqz. }
    destruct (trained_constant _ Ht) as [Ec|Ec]; rewrite Ec; cbn [bind];
      rewrite Ht; cbn [bind]; rewrite Hadj; cbn [bind]; rewrite Hm;
      cbn [bind]; rewrite Ebsz; cbn [bind]; rewrite Hr; cbn [bind];
      rewrite Emm; cbn [bind moving_variance set_moving_mean];
      rewrite Emvv; cbn [bind]; rewrite Emb; cbn [bind]; rewrite Evb;
      cbn [bind]; rewrite Eo; cbn [bind]; rewrite Hso; fold s;
      rewrite same_shape_refl; reflexivity.
  - intros idx Hi i j mu var.
    assert (Hj : in_bounds (keep_shape 0 ra s) j)
      by (apply in_bounds_mask; assumption).
    destruct (Hmv j Hj) as (Em & Ev & _). fold mu in Em.
    rewrite Em in Ev. fold var in Ev.
    assert (Ebm : get bm [i] = mu).
    { unfold bm, c, i. rewrite (squeezed_entry p s m idx Hp Hi Hsm).
      exact Em. }
    assert (Ebv : get bv [i] = var).
    { unfold bv, c, i. rewrite (squeezed_entry p s v idx Hp Hi Hsv).
      exact Ev. }
    assert (Hin : in_bounds [c] [i]).
    { constructor; [|constructor]. now apply in_bounds_nth. }
    split; [exact Ebm|]. split; [exact Ebv|]. split; [|split].
    + rewrite (Hgo idx Hi). cbv zeta.
      rewrite (Hgsc idx 1 Hi), (Hgof idx 0 Hi), (Hgmb idx Hi), (Hgvb idx Hi).
      fold i. rewrite Ebm, Ebv. unfold Rdiv. ring.
    + cbn [moving_mean set_moving_variance set_moving_mean].
      rewrite Hgmm by (rewrite Hsmm; exact Hin). now rewrite Ebm.
    + cbn [moving_variance set_moving_variance].
      rewrite Hgmv by (rewrite Hsmv; exact Hin). now rewrite Ebv.
Qed.

Lemma channel_of_cell p n idx idx' :
  mask 0 (others p n) idx' = mask 0 (others p n) idx ->
  nth p idx' 0%nat = nth p idx 0%nat.
Proof.
  intros E.
  assert (H : in_axes (others p n) (0 + p) = false).
  { rewrite in_others. cbn [Nat.add]. rewrite Nat.eqb_refl.
    now rewrite andb_false_r. }
  rewrite <- (mask_keeps (others p n) idx' 0 p H).
  rewrite <- (mask_keeps (others p n) idx 0 p H). now rewrite E.
Qed.

(** Training with a single-axis layer on the generic path normalizes with
    the statistics of the batch: every entry is
    [gamma * (x - mean) / sqrt (var + epsilon) + beta] for the mean and
    variance of its channel over the batch, so that over the batch every
    channel of the output has mean [beta] and variance
    [gamma^2 * var / (var + epsilon)]. *)
Theorem training_normalizes_batch e self vars x training0 p :
  truthy (fused self) = false -> virtual_batch_size self = None ->
  axis self = AxisList [Z.of_nat p] -> (p < List.length (shape x))%nat ->
  renorm self = false -> adjustment self = None ->
  smart_cond (_get_training_value e self training0) = Ok true ->
  Forall (lt 0%nat) (shape x) -> 0 < epsilon self ->
  let c := nth p (shape x) 0%nat in
  spans [c] (moving_mean vars) -> spans [c] (moving_variance vars) ->
  opt_spans [c] (gamma vars) -> opt_spans [c] (beta vars) ->
  let ra := others p (List.length (shape x)) in
  exists out vars' log,
    call e self vars x training0 = Ok (out, vars', log)
    /\ shape out = shape x
    /\ forall idx, in_bounds (shape x) idx ->
         let i := nth p idx 0%nat in
         let j := mask 0 ra idx in
         let mu := mean_of (cell x ra j) in
         let var := mean_of (map (fun t => squared_difference t mu)
                                 (cell x ra j)) in
         get out idx
         = param_at (gamma vars) 1 [i] * (get x idx - mu)
           / sqrt (var + epsilon self) + param_at (beta vars) 0 [i]
         /\ mean_of (cell out ra j) = param_at (beta vars) 0 [i]
         /\ mean_of (map (fun t => squared_difference t
                                     (param_at (beta vars) 0 [i]))
                         (cell out ra j))
            = param_at (gamma vars) 1 [i] * param_at (gamma vars) 1 [i]
              * (var / (var + epsilon self)).
Proof.
  intros Hf Hv Ha Hp Hr Hadj Ht Hpos Heps c Hmm Hmv Hg Hb ra.
  destruct (training_step e self vars x training0 p Hf Hv Ha Hp Hr Hadj Ht
              Hpos Hmm Hmv Hg Hb)
    as (out & vars' & bm & bv & Ec & Hso & _ & _ & Hst).
  fold ra in Hst.
  exists out, vars', [(MovingMean, bm); (MovingVariance, bv)].
  split; [exact Ec|]. split; [exact Hso|].
  intros idx Hi i j mu var.
  destruct (Hst idx Hi) as (_ & _ & Hout & _). fold i j mu var in Hout.
  split; [exact Hout|].
  set (a := param_at (gamma vars) 1 [i] * / sqrt (var + epsilon self)).
  set (b := param_at (beta vars) 0 [i] - mu * a).
  assert (Hc : forall idx', in_bounds (shape x) idx' ->
            mask 0 ra idx' = j -> get out idx' = a * get x idx' + b).
  { intros idx' Hi' Hm. destruct (Hst idx' Hi') as (_ & _ & Hout' & _).
    rewrite Hout'. rewrite Hm. fold mu var.
    rewrite (channel_of_cell p _ idx idx' Hm). fold i.
    unfold b, a, Rdiv. ring. }
  assert (Hne : cell x ra j <> []).
  { apply cell_nonempty; [exact Hpos|]. now apply in_bounds_mask. }
  destruct (affine_cell x out ra j a b Hso Hne Hc) as [Hmean Hvar].
  fold mu in Hmean, Hvar. fold var in Hvar.
  replace (a * mu + b) with (param_at (beta vars) 0 [i]) in Hmean, Hvar
    by (unfold b, a; ring).
  split; [exact Hmean|]. rewrite Hvar. unfold a.
  assert (Hvar0 : 0 <= var).
  { apply mean_of_nonneg, Forall_map, Forall_forall. intros t _.
    cbv beta. unfold squared_difference. apply Rle_0_sqr. }
  rewrite <- (sqrt_sqrt (var + epsilon self)) at 3 by lra.
  field. apply Rgt_not_eq, sqrt_lt_R0. lra.
Qed.

(** A training step of the dense layer on a batch of two examples. *)
Lemma training_normalizes_batch_witness :
  exists out vars' log,
    call eager_env (dense_layer true) scaled_vars batch_2x2
      (Some (TrainBool true)) = Ok (out, vars', log)
    /\ shape out = [2; 2]%nat
    /\ forall idx, in_bounds [2; 2]%nat idx ->
         let j := mask 0 (others 1 2) idx in
         mean_of (cell out (others 1 2) j)
         = param_at (beta scaled_vars) 0 [nth 1 idx 0%nat].
Proof.
  assert (batch_2x2_positive : Forall (lt 0%nat) (shape batch_2x2))
    by (repeat constructor).
  assert (eps_positive : 0 < 1 / 1000) by lra.
  destruct (training_normalizes_batch eager_env (dense_layer true) scaled_vars
              batch_2x2 (Some (TrainBool true)) 1 eq_refl eq_refl eq_refl
              (Nat.lt_succ_diag_r 1) eq_refl eq_refl eq_refl
              batch_2x2_positive eps_positive
              (conj eq_refl eq_refl) (conj eq_refl eq_refl)
              (conj eq_refl eq_refl) (conj eq_refl eq_refl))
    as (out & vars' & log & E & Hs & H).
  exists out, vars', log. split; [exact E|]. split; [exact Hs|].
  intros idx Hi. exact (proj1 (proj2 (H idx Hi))).
Defined.

(** The same training step moves the moving statistics: the moving mean
    and the moving variance of every channel become
    [momentum * old + (1 - momentum) * batch statistic]; gamma and beta are
    left to the optimizer; the two updates are logged with the batch
    statistics. *)
Theorem training_moves_statistics e self vars x training0 p :
  truthy (fused self) = false -> virtual_batch_size self = None ->
  axis self = AxisList [Z.of_nat p] -> (p < List.length (shape x))%nat ->
  renorm self = false -> adjustment self = None ->
  smart_cond (_get_training_value e self training0) = Ok true ->
  Forall (lt 0%nat) (shape x) ->
  let c := nth p (shape x) 0%nat in
  spans [c] (moving_mean vars) -> spans [c] (moving_variance vars) ->
  opt_spans [c] (gamma vars) -> opt_spans [c] (beta vars) ->
  let ra := others p (List.length (shape x)) in
  exists out vars' bm bv,
    call e self vars x training0
    = Ok (out, vars', [(MovingMean, bm); (MovingVariance, bv)])
    /\ gamma vars' = gamma vars /\ beta vars' = beta vars
    /\ forall idx, in_bounds (shape x) idx ->
         let i := nth p idx 0%nat in
         let j := mask 0 ra idx in
         let mu := mean_of (cell x ra j) in
         let var := mean_of (map (fun t => squared_difference t mu)
                                 (cell x ra j)) in
         get bm [i] = mu /\ get bv [i] = var
         /\ get (moving_mean vars') [i]
            = momentum self * get (moving_mean vars) [i]
              + (1 - momentum self) * mu
         /\ get (moving_variance vars') [i]
            = momentum self * get (moving_variance vars) [i]
              + (1 - momentum self) * var.
Proof.
  intros Hf Hv Ha Hp Hr Hadj Ht Hpos c Hmm Hmv Hg Hb ra.
  destruct (training_step e self vars x training0 p Hf Hv Ha Hp Hr Hadj Ht
              Hpos Hmm Hmv Hg Hb)
    as (out & vars' & bm & bv & Ec & _ & Eg & Eb & Hst).
  fold ra in Hst. exists out, vars', bm, bv.
  split; [exact Ec|]. split; [exact Eg|]. split; [exact Eb|].
  intros idx Hi i j mu var.
  destruct (Hst idx Hi) as (H1 & H2 & _ & H3 & H4).
  repeat split; assumption.
Qed.

(** The same step: the moving mean of both channels moves by 1/100
    towards the batch mean. *)
Lemma training_moves_statistics_witness :
  exists out vars' bm bv,
    call eager_env (dense_layer true) scaled_vars batch_2x2
      (Some (TrainBool true))
    = Ok (out, vars', [(MovingMean, bm); (MovingVariance, bv)])
    /\ gamma vars' = gamma scaled_vars
    /\ forall idx, in_bounds [2; 2]%nat idx ->
         let i := nth 1 idx 0%nat in
         get (moving_mean vars') [i]
         = 99 / 100 * get (moving_mean scaled_vars) [i]
           + (1 - 99 / 100) * get bm [i].
Proof.
  assert (batch_2x2_positive : Forall (lt 0%nat) (shape batch_2x2))
    by (repeat constructor).
  destruct (training_moves_statistics eager_env (dense_layer true) scaled_vars
              batch_2x2 (Some (TrainBool true)) 1 eq_refl eq_refl eq_refl
              (Nat.lt_succ_diag_r 1) eq_refl eq_refl eq_refl
              batch_2x2_positive
              (conj eq_refl eq_refl) (conj eq_refl eq_refl)
              (conj eq_refl eq_refl) (conj eq_refl eq_refl))
    as (out & vars' & bm & bv & E & Hg & _ & H).
  exists out, vars', bm, bv. split; [exact E|]. split; [exact Hg|].
  intros idx Hi i. destruct (H idx Hi) as (E1 & _ & E3 & _).
  fold i in E1, E3. rewrite E1. exact E3.
Defined.

End TrainingFacts.

(** ** Facts on the renorm variables *)

Module RenormStepFacts.
Import Tensor Reduce BatchNorm Broadcast BatchNormUse Examples Scenarios
  TensorFacts MovingAverageFacts ShapeFacts StatFacts TransformFacts
  GhostBatchFacts FusedFacts CallFacts BuildFacts AverageFacts
  TrainingValueFacts FusedStepFacts OutputShapeFacts StretchFacts
  StretchTransformFacts ChannelFacts InferenceFormulaFacts CellFacts
  SqueezeFacts TrainingFacts.
Local Open Scope R_scope.

(** The renorm corrector feeds its two variables and nothing else: in
    training [renorm_mean] moves towards the batch mean and
    [renorm_stddev] towards [sqrt (variance + epsilon)] by
    [renorm_momentum]; outside training they keep their values. *)
Theorem renorm_variables_update self vars mean variance training bs rm rs t :
  renorm_mean vars = Some rm -> renorm_stddev vars = Some rs ->
  wf rm -> wf rs -> wf variance ->
  shape variance = shape mean -> shape rm = shape mean ->
  shape rs = shape mean ->
  smart_cond training = Ok t ->
  (bs = None \/ exists k, bs = Some k /\ (0 < k)%Z) ->
  exists r d rm' rs',
    _renorm_correction_and_moments self vars mean variance training bs
    = Ok (r, d, mean, variance, set_renorm_vars rm' rs' vars)
    /\ shape rm' = shape rm /\ shape rs' = shape rs
    /\ (t = false -> rm' = rm /\ rs' = rs)
    /\ (t = true ->
        forall idx, in_bounds (shape mean) idx ->
          get rm' idx
          = renorm_momentum self * get rm idx
            + (1 - renorm_momentum self) * get mean idx
          /\ get rs' idx
             = renorm_momentum self * get rs idx
               + (1 - renorm_momentum self)
                 * sqrt (get variance idx + epsilon self)).
Proof.
  intros Hrm Hrs Hwrm Hwrs Hwv Hsv Hsrm Hsrs Ht Hbs.
  unfold _renorm_correction_and_moments. rewrite Hrm, Hrs. cbn [attr bind].
  rewrite binop_pointwise by (cbn [tmap shape]; congruence).
  cbn [bind]. rewrite (binop_pointwise Rminus mean rm Hsrm). cbn [bind].
  rewrite binop_pointwise by (cbn [tmap shape tabulate]; congruence).
  cbn [bind]. rewrite Ht. cbn [bind].
  set (stddev := tmap (fun v => sqrt (v + epsilon self)) variance).
  destruct (moving_average_moved rm mean (renorm_momentum self) bs Hwrm
              (eq_sym Hsrm) Hbs) as (nm & Hnm & Hsnm & _ & Hgnm).
  destruct (moving_average_moved rs stddev (renorm_momentum self) bs Hwrs)
    as (ns & Hns & Hsns & _ & Hgns);
    [cbn [stddev tmap shape]; congruence | exact Hbs |].
  destruct t.
  - rewrite Hnm. cbn [bind]. rewrite Hns. cbn [bind].
    do 4 eexists. split; [reflexivity|]. split; [exact Hsnm|].
    split; [exact Hsns|]. split; [discriminate|]. intros _ idx Hi.
    rewrite Hgnm by (rewrite Hsrm; exact Hi).
    rewrite Hgns by (rewrite Hsrs; exact Hi).
    split; [reflexivity|]. f_equal. f_equal.
    unfold stddev. apply get_tmap; [exact Hwv|]. now rewrite Hsv.
  - cbn [bind]. do 4 eexists. split; [reflexivity|].
    split; [reflexivity|]. split; [reflexivity|].
    split; [now split | discriminate].
Qed.

(** The renorm layer in training: its two variables move by
    [renorm_momentum]. *)
Lemma renorm_variables_update_witness :
  let mean := mkTensor [2%nat] [1; 2] in
  let variance := mkTensor [2%nat] [4; 9] in
  exists r d rm' rs',
    _renorm_correction_and_moments renorm_layer renorm_vars mean variance
      (TrainBool true) None
    = Ok (r, d, mean, variance, set_renorm_vars rm' rs' renorm_vars)
    /\ forall idx, in_bounds [2%nat] idx ->
         get rm' idx
         = 99 / 100 * get (fill [2%nat] 0) idx + (1 - 99 / 100) * get mean idx.
Proof.
  intros mean variance.
  destruct (renorm_variables_update renorm_layer renorm_vars mean variance
              (TrainBool true) None (fill [2%nat] 0) (fill [2%nat] 1) true
              eq_refl eq_refl eq_refl eq_refl eq_refl eq_refl eq_refl eq_refl
              eq_refl (or_introl eq_refl))
    as (r & d & rm' & rs' & E & _ & _ & _ & H).
  exists r, d, rm', rs'. split; [exact E|].
  intros idx Hi. exact (proj1 (H eq_refl idx Hi)).
Defined.

Lemma relu_nonneg x : 0 <= relu x.
Proof. unfold relu. apply Rmax_r. Qed.

(** With renorm a training step of the generic path stores
    [relu (moving_stddev^2 - epsilon)] as the moving variance, which is
    therefore never negative. *)
Theorem renorm_moving_variance e self vars inputs training0 out vars' log :
  truthy (fused self) = false -> renorm self = true ->
  smart_cond (_get_training_value e self training0) = Ok true ->
  call e self vars inputs training0 = Ok (out, vars', log) ->
  exists sd,
    moving_stddev vars' = Some sd
    /\ moving_variance vars'
       = tmap (fun s => relu (s * s - epsilon self)) sd
    /\ Forall (fun v => 0 <= v) (data (moving_variance vars')).
Proof.
  intros Hf Hr Ht H. unfold call in H. cbv zeta in H. rewrite Hf in H.
  step_bind H as a eqn Ea.
  step_bind H as ax eqn Eax. step_bind H as ra eqn Era.
  step_bind H as bshape eqn Ebsh.
  step_bind H as scale0 eqn Esc. step_bind H as offset0 eqn Eof.
  assert (Hsd : forall sd, exists sd',
            Some sd = Some sd'
            /\ tmap (fun s => relu (s * s - epsilon self)) sd
               = tmap (fun s => relu (s * s - epsilon self)) sd'
            /\ Forall (fun v => 0 <= v)
                 (data (tmap (fun s => relu (s * s - epsilon self)) sd))).
  { intros sd. exists sd. split; [reflexivity|]. split; [reflexivity|].
    cbn [tmap data]. apply Forall_map, Forall_forall.
    intros s _. apply relu_nonneg. }
  destruct (trained_constant _ Ht) as [Ec|Ec]; rewrite Ec in H;
    cbn [bind] in H; rewrite Ht, Hr in H; cbn [bind] in H.
  all: step_bind H as [scale1 offset1] eqn Eadj.
  all: step_bind H as [mean variance] eqn Emo.
  all: step_bind H as [nm nv] eqn Env.
  all: step_bind H as bs eqn Ebs.
  all: step_bind H as [[[[r d] nm'] nv'] vars1] eqn Ern.
  all: step_bind H as rb eqn Erb.
  all: step_bind H as db eqn Edb.
  all: step_bind H as [s o] eqn Eco.
  all: step_bind H as mm eqn Emm.
  all: step_bind H as sd0 eqn Esd0.
  all: step_bind H as sd eqn Esd.
  all: step_bind H as mv eqn Emv.
  all: unfold _assign_new_value, assign in Emv.
  all: destruct (same_shape _ _) in Emv; [|discriminate Emv].
  all: injection Emv as <-.
  all: step_bind H as mean_b eqn Emb.
  all: step_bind H as variance_b eqn Evb.
  all: step_bind H as outputs eqn Eo.
  all: destruct (negb (same_shape (shape outputs) (shape a))) eqn:Es;
    [discriminate H|].
  all: step_bind H as out' eqn Eo'.
  all: injection H as _ <- _.
  all: exact (Hsd sd).
Qed.

(** A training step of the renorm layer. *)
Lemma renorm_moving_variance_witness :
  exists out vars' log,
    call eager_env renorm_layer renorm_vars batch_2x2 (Some (TrainBool true))
    = Ok (out, vars', log)
    /\ exists sd,
         moving_stddev vars' = Some sd
         /\ Forall (fun v => 0 <= v) (data (moving_variance vars')).
Proof.
  eexists. eexists. eexists. split; [reflexivity|].
  destruct (renorm_moving_variance eager_env renorm_layer renorm_vars
              batch_2x2 (Some (TrainBool true)) _ _ _ eq_refl eq_refl eq_refl
              eq_refl)
    as (sd & H1 & _ & H3).
  exists sd. split; [exact H1 | exact H3].
Defined.

End RenormStepFacts.

(** ** Facts on [LayerNormalization.call], generic path *)

Module LayerNormFacts.
Import Tensor Reduce Broadcast BatchNormUse LayerNorm Examples Scenarios
  TensorFacts MovingAverageFacts ShapeFacts StatFacts TransformFacts
  GhostBatchFacts BuildFacts AverageFacts TrainingValueFacts FusedStepFacts
  OutputShapeFacts StretchFacts StretchTransformFacts ChannelFacts
  InferenceFormulaFacts CellFacts SqueezeFacts TrainingFacts RenormStepFacts.
Local Open Scope R_scope.

Lemma moments_axes_valid n ax :
  valid_axes n ax ->
  moments_axes (Z.of_nat n) ax = Ok (map Z.to_nat ax)
  /\ in_range n (map Z.to_nat ax) = true.
Proof.
  induction 1 as [|a ax Ha _ [IH1 IH2]]; [split; reflexivity|].
  cbn [moments_axes map].
  destruct (Z.ltb_spec a 0) as [|_]; [lia|].
  destruct (Z.ltb_spec a 0) as [|_]; [lia|].
  destruct (Z.leb_spec (Z.of_nat n) a) as [|_]; [lia|].
  cbn [orb]. rewrite IH1. cbn [bind]. split; [reflexivity|].
  unfold in_range in *. cbn [forallb]. rewrite IH2.
  destruct (Nat.ltb_spec (Z.to_nat a) n); [reflexivity | lia].
Qed.

Lemma broadcast_shape_valid s ax : forall acc,
  valid_axes (List.length s) ax ->
  exists bs, broadcast_shape_of ax s acc = Ok bs.
Proof.
  induction ax as [|a ax IH]; intros acc H; cbn [broadcast_shape_of].
  - now exists acc.
  - inversion H as [|? ? Ha Hr]; subst.
    destruct (Z.ltb_spec a 0) as [|_]; [lia|].
    destruct (Z.ltb_spec a 0) as [|_]; [lia|].
    destruct (Z.leb_spec (Z.of_nat (List.length s)) a) as [|_]; [lia|].
    cbn [orb]. now apply IH.
Qed.

(** Without [gamma] and [beta] the generic path of [call] standardizes
    every example: over the normalized axes the output has mean 0, and
    its mean square is [var / (var + epsilon)] for the variance [var] of
    the example. *)
Theorem layer_norm_standardizes k self x ax :
  BatchNorm.truthy (_fused self) = false ->
  axis self = BatchNorm.AxisList ax ->
  valid_axes (List.length (shape x)) ax ->
  gamma self = None -> beta self = None -> 0 < epsilon self ->
  let axes := map Z.to_nat ax in
  exists out,
    call k self x = Ok out /\ shape out = shape x
    /\ forall idx, in_bounds (shape x) idx ->
         let j := mask 0 axes idx in
         let mu := mean_of (cell x axes j) in
         let var := mean_of (map (fun t => squared_difference t mu)
                                 (cell x axes j)) in
         get out idx = (get x idx - mu) / sqrt (var + epsilon self)
         /\ mean_of (cell out axes j) = 0
         /\ mean_of (map (fun t => t * t) (cell out axes j))
            = var / (var + epsilon self).
Proof.
  intros Hf Ha Hax Hg Hb Heps axes.
  set (s := shape x) in *.
  destruct (moments_axes_valid _ ax Hax) as [Ema Hr]. fold axes in Ema, Hr.
  destruct (broadcast_shape_valid s ax (repeat 1%nat (List.length s)) Hax)
    as (bs & Ebs).
  destruct (moments_of_cells x axes Hr)
    as (m & v & Emv & Hsm & Hsv & Hwm & Hwv & Hmv).
  fold s in Hsm, Hsv, Hmv.
  assert (Hfit : fits (shape m) (shape x))
    by (rewrite Hsm; apply fits_keep_shape).
  destruct (batch_normalization_spec x m v None None (epsilon self) Hwm Hwv
              (eq_trans Hsv (eq_sym Hsm)) Hfit I I)
    as (out & Eo & Hso & Hwo & Hgo).
  assert (Hout : forall idx, in_bounds s idx ->
            get out idx
            = / sqrt (get v (mask 0 axes idx) + epsilon self) * get x idx
              + - (get m (mask 0 axes idx)
                   * / sqrt (get v (mask 0 axes idx) + epsilon self))).
  { intros idx Hi. rewrite (Hgo idx Hi). cbv zeta. cbn [BatchNorm.opt_at].
    rewrite Hsm. unfold s. rewrite bpick_keep_shape by exact Hi. ring. }
  exists out. split; [|split; [exact Hso|]].
  - unfold call, iter_axis. rewrite Ha. cbn [bind]. fold s. rewrite Ebs.
    cbn [bind]. rewrite Hf. cbn [negb]. rewrite Ema. cbn [bind].
    rewrite Emv. cbn [bind]. rewrite Hg, Hb. cbn [_broadcast bind].
    rewrite Eo. cbn [bind]. rewrite Hso. fold s.
    now rewrite same_shape_refl.
  - intros idx Hi j mu var.
    pose proof (in_bounds_pos s idx Hi) as Hpos.
    assert (Hj : in_bounds (keep_shape 0 axes s) j)
      by (apply in_bounds_mask; assumption).
    destruct (Hmv j Hj) as (Em & Ev & Hv0). fold mu in Em.
    rewrite Em in Ev. fold var in Ev.
    assert (Hne : cell x axes j <> []) by now apply cell_nonempty.
    set (a := / sqrt (var + epsilon self)).
    assert (Hc : forall i, in_bounds (shape x) i -> mask 0 axes i = j ->
              get out i = a * get x i + - (mu * a)).
    { intros i Hi' Hm. rewrite (Hout i Hi'), Hm, Em, Ev. reflexivity. }
    destruct (affine_cell x out axes j a (- (mu * a)) Hso Hne Hc)
      as [Hmean Hvar].
    fold mu in Hmean, Hvar. fold var in Hvar.
    replace (a * mu + - (mu * a)) with 0 in Hmean, Hvar by ring.
    split; [|split; [exact Hmean|]].
    + rewrite (Hc idx Hi eq_refl). unfold a, Rdiv. ring.
    + transitivity (mean_of (map (fun t => squared_difference t 0)
                                 (cell out axes j))).
      { f_equal. apply map_ext. intros t. unfold squared_difference. ring. }
      rewrite Hvar. unfold a.
      assert (Hp : 0 < var + epsilon self) by (rewrite <- Ev; lra).
      rewrite <- (sqrt_sqrt (var + epsilon self)) at 3 by lra.
      field. apply Rgt_not_eq, sqrt_lt_R0. exact Hp.
Qed.

(** Two examples of two features, without parameters. *)
Lemma layer_norm_standardizes_witness :
  valid_axes 2 [1%Z]
  /\ exists out,
       call channel_normalizer (plain_layer_norm false) batch_2x2 = Ok out
       /\ shape out = [2; 2]%nat
       /\ forall idx, in_bounds [2; 2]%nat idx ->
            mean_of (cell out [1%nat] (mask 0 [1%nat] idx)) = 0.
Proof.
  assert (Hv : valid_axes 2 [1%Z]) by (repeat constructor; lia).
  assert (Heps : 0 < 1 / 1000) by lra.
  split; [exact Hv|].
  destruct (layer_norm_standardizes channel_normalizer
              (plain_layer_norm false) batch_2x2 [1%Z] eq_refl eq_refl Hv
              eq_refl eq_refl Heps)
    as (out & E & Hs & H).
  exists out. split; [exact E|]. split; [exact Hs|].
  intros idx Hi. exact (proj1 (proj2 (H idx Hi))).
Defined.

Lemma ln_broadcast_single p s o :
  (p < List.length s)%nat -> opt_spans [nth p s 0%nat] o ->
  exists o',
    _broadcast [Z.of_nat p] (List.length s)
      (BatchNorm.list_set p (nth p s 0%nat) (repeat 1%nat (List.length s))) o
    = Ok o'
    /\ opt_stretches o' s
    /\ forall idx dflt, in_bounds s idx ->
         opt_meet o' dflt idx = param_at o dflt [nth p idx 0%nat].
Proof.
  intros Hp Ho. destruct o as [t|]; cbn [_broadcast].
  2:{ exists None. split; [reflexivity|]. split; [exact I|]. reflexivity. }
  destruct Ho as [Hw Hs]. rewrite Hs. cbn [List.length zlist_eqb].
  destruct (negb (1 =? List.length s)%nat
            && negb ((Z.of_nat p =? Z.of_nat (List.length s) - 1)%Z && true))
    eqn:Eb.
  - destruct (vector_reshaped p s t Hp Hw Hs) as (t' & -> & Hw' & Hs' & Hg).
    cbn [bind]. exists (Some t'). split; [reflexivity|].
    split; [split; assumption|]. intros idx dflt Hi. now apply Hg.
  - exists (Some t). split; [reflexivity|].
    assert (Ep : p = (List.length s - 1)%nat).
    { apply andb_false_iff in Eb.
      destruct Eb as [E|E]; apply negb_false_iff in E.
      - apply Nat.eqb_eq in E. lia.
      - rewrite andb_true_r in E. apply Z.eqb_eq in E. lia. }
    destruct (vector_last p s t Hp Ep Hs) as [Hst Hg].
    split; [split; assumption|]. intros idx dflt Hi. now apply Hg.
Qed.

Lemma ln_single_axis_setup p s :
  (p < List.length s)%nat ->
  valid_axes (List.length s) [Z.of_nat p]
  /\ broadcast_shape_of [Z.of_nat p] s (repeat 1%nat (List.length s))
     = Ok (BatchNorm.list_set p (nth p s 0%nat)
             (repeat 1%nat (List.length s))).
Proof.
  intros Hp. split; [constructor; [lia | constructor]|].
  cbn [broadcast_shape_of].
  destruct (Z.ltb_spec (Z.of_nat p) 0) as [|_]; [lia|].
  destruct (Z.ltb_spec (Z.of_nat p) 0) as [|_]; [lia|].
  destruct (Z.leb_spec (Z.of_nat (List.length s)) (Z.of_nat p)) as [|_];
    [lia|].
  cbn [orb]. now rewrite Nat2Z.id.
Qed.

(** The generic path of [call] for a single axis, as the docstring has
    it: every entry is centred by the mean of its example, divided by
    [sqrt (var + epsilon)] for the variance of its example, multiplied by
    [gamma] and moved by [beta], both taken at the coordinate of the entry
    along the axis. *)
Theorem layer_norm_formula k self x p :
  BatchNorm.truthy (_fused self) = false ->
  axis self = BatchNorm.AxisList [Z.of_nat p] ->
  (p < List.length (shape x))%nat ->
  let c := nth p (shape x) 0%nat in
  opt_spans [c] (gamma self) -> opt_spans [c] (beta self) ->
  exists out,
    call k self x = Ok out /\ shape out = shape x
    /\ forall idx, in_bounds (shape x) idx ->
         let i := nth p idx 0%nat in
         let j := mask 0 [p] idx in
         let mu := mean_of (cell x [p] j) in
         let var := mean_of (map (fun t => squared_difference t mu)
                                 (cell x [p] j)) in
         get out idx
         = (get x idx - mu) / sqrt (var + epsilon self)
           * param_at (gamma self) 1 [i]
           + param_at (beta self) 0 [i].
Proof.
  intros Hf Ha Hp c Hg Hb. set (s := shape x) in *.
  destruct (ln_single_axis_setup p s Hp) as [Hax Ebs].
  destruct (moments_axes_valid _ _ Hax) as [Ema Hr].
  cbn [map] in Ema, Hr. rewrite Nat2Z.id in Ema, Hr.
  destruct (moments_of_cells x [p] Hr)
    as (m & v & Emv & Hsm & Hsv & Hwm & Hwv & Hmv).
  fold s in Hsm, Hsv, Hmv.
  destruct (ln_broadcast_single p s (gamma self) Hp Hg)
    as (scale0 & Esc & Hssc & Hgsc).
  destruct (ln_broadcast_single p s (beta self) Hp Hb)
    as (offset0 & Eof & Hsof & Hgof).
  assert (Hstm : stretches (shape m) (shape x))
    by (rewrite Hsm; apply fits_stretches, fits_keep_shape).
  assert (Hstv : stretches (shape v) (shape x))
    by (rewrite Hsv; apply fits_stretches, fits_keep_shape).
  destruct (batch_normalization_stretch x m v offset0 scale0 (epsilon self)
              Hwm Hwv Hstm Hstv Hssc Hsof)
    as (out & Eo & Hso & Hwo & Hgo).
  exists out. split; [|split; [exact Hso|]].
  - unfold call, iter_axis. rewrite Ha. cbn [bind]. fold s. rewrite Ebs.
    cbn [bind]. rewrite Hf. cbn [negb]. rewrite Ema. cbn [bind].
    rewrite Emv. cbn [bind]. rewrite Esc. cbn [bind]. rewrite Eof.
    cbn [bind]. rewrite Eo. cbn [bind]. rewrite Hso. fold s.
    now rewrite same_shape_refl.
  - intros idx Hi i j mu var. rewrite (Hgo idx Hi). cbv zeta.
    rewrite (Hgsc idx 1 Hi), (Hgof idx 0 Hi). fold i.
    assert (Hj : in_bounds (keep_shape 0 [p] s) j).
    { apply in_bounds_mask; [|exact Hi]. now apply (in_bounds_pos s idx). }
    assert (Emeet : forall t, shape t = keep_shape 0 [p] s ->
              meet t idx = get t j).
    { intros t Ht. unfold meet. rewrite bidx_same_rank.
      - rewrite Ht. now rewrite bpick_keep_shape.
      - rewrite Ht, keep_shape_length. now apply in_bounds_length. }
    rewrite (Emeet m Hsm), (Emeet v Hsv).
    destruct (Hmv j Hj) as (Em & Ev & _). fold mu in Em.
    rewrite Em in Ev. fold var in Ev. rewrite Em, Ev.
    unfold Rdiv. ring.
Qed.

(** The same examples with gamma [2; 3] and beta [5; 7], on the generic
    path. *)
Lemma layer_norm_formula_witness :
  exists out,
    call channel_normalizer (layer_norm false) batch_2x2 = Ok out
    /\ shape out = [2; 2]%nat
    /\ forall idx, in_bounds [2; 2]%nat idx ->
         let i := nth 1 idx 0%nat in
         let j := mask 0 [1%nat] idx in
         let mu := mean_of (cell batch_2x2 [1%nat] j) in
         let var := mean_of (map (fun t => squared_difference t mu)
                                 (cell batch_2x2 [1%nat] j)) in
         get out idx
         = (get batch_2x2 idx - mu) / sqrt (var + 1 / 1000)
           * param_at (gamma (layer_norm false)) 1 [i]
           + param_at (beta (layer_norm false)) 0 [i].
Proof.
  exact (layer_norm_formula channel_normalizer (layer_norm false) batch_2x2 1
           eq_refl eq_refl (Nat.lt_succ_diag_r 1)
           (conj eq_refl eq_refl) (conj eq_refl eq_refl)).
Defined.

End LayerNormFacts.

(** ** Facts on the sorted axes of [LayerNormalization] *)

Module SortFacts.
Import Tensor Reduce Broadcast BatchNormUse LayerNorm Examples Scenarios
  TensorFacts MovingAverageFacts ShapeFacts StatFacts TransformFacts
  GhostBatchFacts BuildFacts AverageFacts TrainingValueFacts FusedStepFacts
  OutputShapeFacts StretchFacts StretchTransformFacts ChannelFacts
  InferenceFormulaFacts CellFacts SqueezeFacts TrainingFacts RenormStepFacts
  LayerNormFacts.
Local Open Scope Z_scope.

Lemma insert_perm x l : Permutation (insert x l) (x :: l).
Proof.
  induction l as [|y l IH]; cbn [insert]; [reflexivity|].
  destruct (x <=? y); [reflexivity|].
  rewrite IH. apply perm_swap.
Qed.

Lemma sorted_perm l : Permutation (sorted l) l.
Proof.
  induction l as [|x l IH]; [reflexivity|].
  unfold sorted. cbn [fold_right]. fold (sorted l).
  rewrite insert_perm. now constructor.
Qed.

Lemma insert_ascending x l :
  StronglySorted Z.le l -> StronglySorted Z.le (insert x l).
Proof.
  induction 1 as [|y l Hl IH Hy]; cbn [insert].
  - repeat constructor.
  - destruct (Z.leb_spec x y).
    + constructor; [now constructor|]. constructor; [assumption|].
      eapply Forall_impl; [|exact Hy]. cbv beta. intros. lia.
    + constructor; [exact IH|].
      rewrite (insert_perm x l). constructor; [lia | exact Hy].
Qed.

Lemma sorted_ascending l : StronglySorted Z.le (sorted l).
Proof.
  induction l as [|x l IH]; [constructor|].
  unfold sorted. cbn [fold_right]. now apply insert_ascending.
Qed.

Lemma ascending_strict l :
  StronglySorted Z.le l -> NoDup l -> StronglySorted Z.lt l.
Proof.
  induction 1 as [|x l Hl IH Hx]; intros Hn; [constructor|].
  inversion Hn as [|? ? Hnin Hn']; subst. constructor; [now apply IH|].
  apply Forall_forall. intros y Hy.
  assert (x <= y) by (rewrite Forall_forall in Hx; now apply Hx).
  assert (x <> y) by (intros ->; contradiction). lia.
Qed.

Lemma sorted_strict l : NoDup l -> StronglySorted Z.lt (sorted l).
Proof.
  intros H. apply ascending_strict; [apply sorted_ascending|].
  apply (Permutation_NoDup (l := l)); [symmetry; apply sorted_perm | exact H].
Qed.

(** In a strictly ascending list of integers the last element is at least
    the first one plus the number of elements after it. *)
Lemma strict_gap rest : forall a0,
  StronglySorted Z.lt (a0 :: rest) ->
  Z.of_nat (List.length rest) <= last rest a0 - a0
  /\ forall d, In d (a0 :: rest) -> a0 <= d <= last rest a0.
Proof.
  induction rest as [|a1 rest IH]; intros a0 H.
  - cbn. split; [lia|]. intros d [<-|[]]. lia.
  - inversion H as [|? ? Hr Ha]; subst.
    inversion Ha as [|? ? Ha1 _]; subst.
    destruct (IH a1 Hr) as [Hg Hin].
    assert (El : last (a1 :: rest) a0 = last rest a1).
    { clear. revert a1. induction rest as [|b rest IH]; intros a1;
        [reflexivity|]. cbn [last] in *. destruct rest; [reflexivity|].
      apply IH. }
    rewrite El. cbn [List.length]. split; [lia|].
    intros d [<-|Hd]; [lia|]. specialize (Hin d Hd). lia.
Qed.

Lemma strict_tight rest : forall a0,
  StronglySorted Z.lt (a0 :: rest) ->
  last rest a0 - a0 = Z.of_nat (List.length rest) ->
  forall d, a0 <= d <= last rest a0 -> In d (a0 :: rest).
Proof.
  induction rest as [|a1 rest IH]; intros a0 H E d Hd.
  - cbn in *. left. lia.
  - inversion H as [|? ? Hr Ha]; subst.
    inversion Ha as [|? ? Ha1 _]; subst.
    destruct (strict_gap rest a1 Hr) as [Hg _].
    assert (El : last (a1 :: rest) a0 = last rest a1).
    { clear. revert a1. induction rest as [|b rest IH]; intros a1;
        [reflexivity|]. cbn [last] in *. destruct rest; [reflexivity|].
      apply IH. }
    rewrite El in *. cbn [List.length] in E.
    destruct (Z.eq_dec d a0) as [->|Hn]; [now left|]. right.
    apply IH; [exact Hr | lia | lia].
Qed.

Lemma sorted_length l : List.length (sorted l) = List.length l.
Proof. apply Permutation_length, sorted_perm. Qed.

Lemma last_in (rest : list Z) : forall a0, In (last rest a0) (a0 :: rest).
Proof.
  induction rest as [|a1 rest IH]; intros a0; [now left|].
  right. replace (last (a1 :: rest) a0) with (last rest a1); [apply IH|].
  clear. revert a1. induction rest as [|b rest IH]; intros a1; [reflexivity|].
  cbn [last] in *. destruct rest; [reflexivity|]. apply IH.
Qed.

(** [_fused_can_be_used] on distinct axes: the fused path is chosen
    exactly when the axes are the last dimensions of the input, epsilon is
    at least 1.001e-5 and the dtype is float32. *)
Lemma fused_iff_trailing_axes self ndims ax :
  axis self = BatchNorm.AxisList ax -> ax <> [] -> NoDup ax ->
  exists b,
    _fused_can_be_used self ndims = Ok b
    /\ (b = true <->
        trailing_axes ndims ax
        /\ (1001 / 100000000 <= epsilon self)%R
        /\ dtype self = BatchNorm.float32).
Proof.
  intros Ha Hne Hnd. unfold _fused_can_be_used, iter_axis. rewrite Ha.
  cbn [bind].
  pose proof (sorted_perm ax) as Hp. pose proof (sorted_strict ax Hnd) as Hs.
  pose proof (sorted_length ax) as Hl.
  destruct (sorted ax) as [|a0 rest] eqn:Es.
  { destruct ax; [contradiction | discriminate Hl]. }
  eexists. split; [reflexivity|].
  destruct (strict_gap rest a0 Hs) as [Hgap Hin].
  pose proof (last_in rest a0) as Hlast.
  set (a_last := last rest a0) in *.
  assert (Hcan : (a_last =? ndims - 1)
                 && (a_last - a0 =? Z.of_nat (List.length (a0 :: rest)) - 1)
                 = true <-> trailing_axes ndims ax).
  { rewrite andb_true_iff, !Z.eqb_eq. cbn [List.length] in *.
    unfold trailing_axes. rewrite <- Hl. split.
    - intros [E1 E2] d. split.
      + intros Hd. apply (Permutation_in _ (Permutation_sym Hp)) in Hd.
        specialize (Hin d Hd). lia.
      + intros Hd. apply (Permutation_in _ Hp).
        apply (strict_tight rest a0 Hs); fold a_last; lia.
    - intros H.
      assert (H0 : ndims - Z.of_nat (S (List.length rest)) <= a0 < ndims).
      { apply H, (Permutation_in _ Hp). now left. }
      assert (H1 : ndims - Z.of_nat (S (List.length rest)) <= a_last < ndims).
      { apply H, (Permutation_in _ Hp). exact Hlast. }
      lia. }
  destruct (Rlt_dec (epsilon self) (1001 / 100000000)) as [Hlt|Hge].
  { split; [discriminate|]. intros (_ & He & _). lra. }
  destruct (dtype self); cbn [is_float32 negb];
    try (split; [discriminate | intros (_ & _ & Hd); discriminate Hd]).
  rewrite Hcan. split.
  - intros H. split; [exact H|]. split; [lra | reflexivity].
  - now intros (H & _).
Qed.

End SortFacts.

(** ** Facts on [LayerNormalization.build] *)

Module LayerNormBuildFacts.
Import Tensor Reduce Broadcast BatchNormUse LayerNorm Examples Scenarios
  TensorFacts MovingAverageFacts ShapeFacts StatFacts TransformFacts
  GhostBatchFacts BuildFacts AverageFacts TrainingValueFacts FusedStepFacts
  OutputShapeFacts StretchFacts StretchTransformFacts ChannelFacts
  InferenceFormulaFacts CellFacts SqueezeFacts TrainingFacts RenormStepFacts
  LayerNormFacts SortFacts.
Local Open Scope Z_scope.

(** Whenever [build] succeeds the resolved axes are not empty, lie within
    the rank without repetition and are stored in the layer; [gamma] and
    [beta] span the dimensions of the input at the axes; and the fused
    path is chosen exactly when the axes are the last dimensions of the
    input, epsilon is at least 1.001e-5 and the dtype is float32. *)
Theorem layer_norm_build_spec self input_shape self' :
  build self input_shape = Ok self' ->
  exists ax0,
    axis_list self = Ok ax0
    /\ let n := Z.of_nat (List.length input_shape) in
       let ax := BatchNorm.resolve_axis n ax0 in
       let param_shape := map (fun x => nth (Z.to_nat x) input_shape None) ax in
       ax <> [] /\ Forall (fun x => 0 <= x < n) ax /\ NoDup ax
       /\ axis self' = BatchNorm.AxisList ax
       /\ (scale self = true ->
           exists ps, defined_shape param_shape = Some ps
                      /\ gamma self' = Some (gamma_initializer self ps))
       /\ (center self = true ->
           exists ps, defined_shape param_shape = Some ps
                      /\ beta self' = Some (beta_initializer self ps))
       /\ exists f,
            _fused self' = Some f
            /\ (f = true <->
                trailing_axes n ax
                /\ (1001 / 100000000 <= epsilon self)%R
                /\ dtype self = BatchNorm.float32).
Proof.
  unfold build. intros H.
  destruct (axis_list self) as [ax0|] eqn:Eax; [|discriminate H].
  cbn [bind] in H. exists ax0. split; [reflexivity|]. cbv zeta.
  set (n := Z.of_nat (List.length input_shape)) in *.
  set (ax := BatchNorm.resolve_axis n ax0) in *.
  set (param_shape := map _ ax) in *.
  destruct (existsb _ ax) eqn:E1; [discriminate H|].
  destruct (BatchNorm.has_dup ax) eqn:E2; [discriminate H|].
  apply out_of_range_spec in E1. apply has_dup_spec in E2.
  destruct (if scale self then _ else _) as [g|] eqn:Eg; [|discriminate H].
  cbn [bind] in H.
  destruct (if center self then _ else _) as [b|] eqn:Eb; [|discriminate H].
  cbn [bind] in H.
  destruct (_fused_can_be_used _ n) as [f|] eqn:Ef; [|discriminate H].
  cbn [bind] in H. injection H as <-.
  cbn [axis gamma beta _fused set_weights].
  assert (Hne : ax <> []).
  { intros E. unfold _fused_can_be_used, iter_axis in Ef.
    cbn [axis set_weights bind] in Ef. rewrite E in Ef. discriminate Ef. }
  split; [exact Hne|]. split; [exact E1|]. split; [exact E2|].
  split; [reflexivity|]. split; [|split].
  - intros Hs. rewrite Hs in Eg. unfold add_weight in Eg.
    destruct (defined_shape param_shape) as [ps|]; [|discriminate Eg].
    cbn [bind] in Eg. injection Eg as <-. now exists ps.
  - intros Hc. rewrite Hc in Eb. unfold add_weight in Eb.
    destruct (defined_shape param_shape) as [ps|]; [|discriminate Eb].
    cbn [bind] in Eb. injection Eb as <-. now exists ps.
  - exists f. split; [reflexivity|].
    destruct (fused_iff_trailing_axes
                (set_weights ax g b (_fused self) self) n ax eq_refl Hne E2)
      as (f' & Ef' & Hiff).
    rewrite Ef in Ef'. injection Ef' as <-. exact Hiff.
Qed.

(** The axes given as [-1] on inputs of rank 2. *)
Lemma layer_norm_build_spec_witness :
  exists self',
    build (unbuilt_layer_norm (BatchNorm.AxisInt (-1))) [None; Some 2%nat]
    = Ok self'
    /\ axis self' = BatchNorm.AxisList [1]
    /\ gamma self' = Some (fill [2%nat] 1%R).
Proof.
  eexists. split; [reflexivity|].
  destruct (layer_norm_build_spec
              (unbuilt_layer_norm (BatchNorm.AxisInt (-1)))
              [None; Some 2%nat] _ eq_refl)
    as (ax0 & Eax & _ & _ & _ & Ha & Hg & _).
  injection Eax as <-. split; [exact Ha|].
  destruct (Hg eq_refl) as (ps & Eps & E). injection Eps as <-. exact E.
Defined.

(** [build] rejects an axis outside the rank and a repeated axis with a
    ValueError; an empty list of axes gets as far as the choice of the
    fused path and ends in an IndexError. *)
Theorem layer_norm_build_rejects self input_shape ax0 :
  axis_list self = Ok ax0 ->
  let n := Z.of_nat (List.length input_shape) in
  let ax := BatchNorm.resolve_axis n ax0 in
  (~ Forall (fun x => 0 <= x < n) ax \/ ~ NoDup ax ->
   build self input_shape = Raise ValueError)
  /\ (ax0 = [] -> build self input_shape = Raise IndexError).
Proof.
  intros Hax n ax. unfold build. rewrite Hax. cbn [bind]. fold n. fold ax.
  split.
  - intros H.
    destruct (existsb _ ax) eqn:E1; [reflexivity|].
    destruct (BatchNorm.has_dup ax) eqn:E2; [reflexivity|].
    apply out_of_range_spec in E1. apply has_dup_spec in E2.
    destruct H; contradiction.
  - intros E. unfold ax. rewrite E. cbn [BatchNorm.resolve_axis map existsb
      BatchNorm.has_dup]. unfold add_weight. cbn [defined_shape].
    destruct (scale self), (center self); reflexivity.
Qed.

(** An axis beyond the rank, and no axis at all. *)
Lemma layer_norm_build_rejects_witness :
  build (unbuilt_layer_norm (BatchNorm.AxisInt 2)) [None; Some 2%nat]
  = Raise ValueError
  /\ build (unbuilt_layer_norm (BatchNorm.AxisList [])) [None; Some 2%nat]
     = Raise IndexError.
Proof.
  split.
  - apply (proj1 (layer_norm_build_rejects
                    (unbuilt_layer_norm (BatchNorm.AxisInt 2))
                    [None; Some 2%nat] [2] eq_refl)).
    left. intros H. inversion H as [|? ? Hx _]. cbn in Hx. lia.
  - exact (proj2 (layer_norm_build_rejects
                    (unbuilt_layer_norm (BatchNorm.AxisList []))
                    [None; Some 2%nat] [] eq_refl) eq_refl).
Defined.

End LayerNormBuildFacts.

(** ** Facts on trailing axes: blocks of the data *)

Module BlockFacts.
Import Tensor Reduce Broadcast BatchNormUse LayerNorm Examples Scenarios
  TensorFacts MovingAverageFacts ShapeFacts StatFacts TransformFacts
  GhostBatchFacts BuildFacts AverageFacts TrainingValueFacts FusedStepFacts
  OutputShapeFacts StretchFacts StretchTransformFacts ChannelFacts
  InferenceFormulaFacts CellFacts SqueezeFacts TrainingFacts RenormStepFacts
  LayerNormFacts SortFacts LayerNormBuildFacts.

Lemma in_bounds_app s1 s2 i1 i2 :
  in_bounds s1 i1 -> in_bounds s2 i2 -> in_bounds (s1 ++ s2) (i1 ++ i2).
Proof. intros H1 H2. now apply Forall2_app. Qed.

Lemma ravel_app s1 s2 : forall i1 i2,
  List.length i1 = List.length s1 ->
  ravel (s1 ++ s2) (i1 ++ i2) = ravel s1 i1 * size s2 + ravel s2 i2.
Proof.
  induction s1 as [|d s1 IH]; intros [|i i1] i2 H; try discriminate.
  - cbn. lia.
  - cbn [app ravel]. rewrite IH by (now injection H). rewrite size_app. lia.
Qed.

Lemma unravel_app s1 s2 : forall k,
  k < size (s1 ++ s2) ->
  unravel (s1 ++ s2) k = unravel s1 (k / size s2) ++ unravel s2 (k mod size s2).
Proof.
  induction s1 as [|d s1 IH]; intros k Hk.
  - cbn [app unravel size] in *. now rewrite Nat.mod_small.
  - cbn [app unravel]. cbn [app] in Hk.
    change (size (d :: s1 ++ s2)) with (d * size (s1 ++ s2)) in Hk.
    change (size (d :: s1)) with (d * size s1).
    rewrite IH by (apply Nat.mod_upper_bound; destruct (size (s1 ++ s2)); lia).
    rewrite (size_app s1 s2) in *.
    assert (H1 : 0 < size s1) by nia. assert (H2 : 0 < size s2) by nia.
    assert (Em : k mod (size s1 * size s2)
                 = k mod size s2 + size s2 * ((k / size s2) mod size s1))
      by (rewrite (Nat.mul_comm (size s1)); apply Nat.Div0.mod_mul_r).
    assert (Hlt : k mod size s2 < size s2) by (apply Nat.mod_upper_bound; lia).
    f_equal; [|f_equal].
    + rewrite (Nat.mul_comm (size s1)). symmetry. apply Nat.Div0.div_div.
    + f_equal. rewrite Em, Nat.mul_comm, Nat.div_add by lia.
      rewrite (Nat.div_small _ _ Hlt). lia.
    + f_equal. rewrite Em, Nat.mul_comm, Nat.Div0.mod_add.
      now apply Nat.mod_small.
Qed.

Lemma mask_before axes : forall idx i,
  (forall q, i <= q < i + List.length idx -> in_axes axes q = false) ->
  mask i axes idx = idx.
Proof.
  induction idx as [|x idx IH]; intros i H; cbn [mask]; [reflexivity|].
  rewrite (H i) by (cbn [List.length]; lia). f_equal. apply IH.
  intros q Hq. apply H. cbn [List.length]. lia.
Qed.

Lemma mask_all axes : forall idx i,
  (forall q, i <= q < i + List.length idx -> in_axes axes q = true) ->
  mask i axes idx = repeat 0 (List.length idx).
Proof.
  induction idx as [|x idx IH]; intros i H; cbn [mask List.length repeat];
    [reflexivity|].
  rewrite (H i) by (cbn [List.length]; lia). f_equal. apply IH.
  intros q Hq. apply H. cbn [List.length]. lia.
Qed.

Lemma mask_app axes : forall a b i,
  mask i axes (a ++ b) = mask i axes a ++ mask (i + List.length a) axes b.
Proof.
  induction a as [|x a IH]; intros b i; cbn [app mask List.length].
  - now rewrite Nat.add_0_r.
  - rewrite IH. do 2 f_equal. f_equal. lia.
Qed.

(** Under axes that are exactly the last dimensions of a shape, the
    coordinates before them survive [mask] and the others are set to 0. *)
Lemma mask_trailing axes a b :
  (forall i, In i axes
             <-> List.length a <= i < List.length a + List.length b) ->
  mask 0 axes (a ++ b) = a ++ repeat 0 (List.length b).
Proof.
  intros H. rewrite mask_app. f_equal.
  - apply mask_before. intros q Hq.
    destruct (in_axes axes q) eqn:E; [|reflexivity].
    apply in_axes_spec, H in E. lia.
  - apply mask_all. intros q Hq. apply in_axes_spec, H. lia.
Qed.

(** The cell of a position under trailing axes is a block of the data:
    the entries whose flat position divided by the size of the block is
    the flat position of the leading coordinates. *)
Lemma cell_trailing x axes s1 s2 i1 i2 :
  shape x = s1 ++ s2 ->
  (forall i, In i axes
             <-> List.length s1 <= i < List.length s1 + List.length s2) ->
  in_bounds s1 i1 -> List.length i2 = List.length s2 ->
  cell x axes (mask 0 axes (i1 ++ i2))
  = map (fun k => nth k (data x) 0%R)
        (filter (fun k => k / size s2 =? ravel s1 i1)
                (seq 0 (size (s1 ++ s2)))).
Proof.
  intros Hs Ht Hi1 Hl2. unfold cell. rewrite Hs. f_equal.
  apply filter_ext_in. intros k Hk. apply in_seq in Hk.
  pose proof (in_bounds_length _ _ Hi1) as Hl1.
  rewrite unravel_app by lia.
  assert (Hp2 : 0 < size s2).
  { rewrite size_app in Hk. destruct (size s2); lia. }
  assert (Hq : k / size s2 < size s1).
  { apply Nat.Div0.div_lt_upper_bound. rewrite size_app in Hk. lia. }
  pose proof (unravel_in_bounds s1 _ Hq) as Hu1.
  assert (Hn2 : size s2 <> 0) by lia.
  pose proof (unravel_in_bounds s2 (k mod size s2)
                (Nat.mod_upper_bound k (size s2) Hn2)) as Hu2.
  rewrite !mask_trailing.
  2:{ now rewrite Hl1, Hl2. }
  2:{ now rewrite (in_bounds_length _ _ Hu1), (in_bounds_length _ _ Hu2). }
  rewrite (in_bounds_length _ _ Hu2), Hl2.
  destruct (Nat.eqb_spec (k / size s2) (ravel s1 i1)) as [E|N].
  - rewrite E, unravel_ravel by exact Hi1. apply idx_eqb_refl.
  - destruct (idx_eqb _ _) eqn:Eb; [|reflexivity].
    apply idx_eqb_eq in Eb. apply app_inv_tail in Eb.
    exfalso. apply N. rewrite <- (ravel_unravel s1 (k / size s2) Hq).
    now rewrite Eb.
Qed.

Lemma zmem_zseq d a m :
  BatchNorm.zmem d (zseq a m) = true
  <-> (Z.of_nat a <= d < Z.of_nat a + Z.of_nat m)%Z.
Proof.
  rewrite zmem_spec. unfold zseq. rewrite in_map_iff. split.
  - intros (i & <- & Hi). apply in_seq in Hi. lia.
  - intros H. exists (Z.to_nat d). split; [lia|]. apply in_seq. lia.
Qed.

Lemma sorted_zseq m : forall a, sorted (zseq a m) = zseq a m.
Proof.
  induction m as [|m IH]; intros a; [reflexivity|].
  unfold zseq, sorted in *. cbn [seq map fold_right].
  specialize (IH (S a)). cbn [seq map] in IH. rewrite IH.
  destruct m as [|m]; [reflexivity|]. cbn [seq map insert].
  destruct (Z.leb_spec (Z.of_nat a) (Z.of_nat (S a))); [reflexivity | lia].
Qed.

Lemma collapse_in sa a0 rest : forall dims dim p q,
  sa = a0 :: rest -> (a0 <= dim)%Z ->
  (forall d, (dim <= d < dim + Z.of_nat (List.length dims))%Z ->
             BatchNorm.zmem d sa = true) ->
  collapse dims dim sa p q = Ok (p, q * size dims).
Proof.
  induction dims as [|d dims IH]; intros dim p q Hsa Hge Hin;
    cbn [collapse size].
  - f_equal. f_equal. lia.
  - rewrite Hsa. destruct (Z.ltb_spec dim a0); [lia|]. rewrite <- Hsa.
    rewrite Hin by (cbn [List.length]; lia).
    rewrite IH; [f_equal; f_equal; lia | exact Hsa | lia |].
    intros d' Hd'. apply Hin. cbn [List.length]. lia.
Qed.

Lemma collapse_pre sa a0 rest s2 : forall s1 dim p q,
  sa = a0 :: rest -> (dim + Z.of_nat (List.length s1) = a0)%Z ->
  collapse (s1 ++ s2) dim sa p q = collapse s2 a0 sa (p * size s1) q.
Proof.
  induction s1 as [|d s1 IH]; intros dim p q Hsa Hd; cbn [app size].
  - cbn [List.length] in Hd. replace dim with a0 by lia.
    now rewrite Nat.mul_1_r.
  - cbn [collapse List.length] in *. rewrite Hsa.
    destruct (Z.ltb_spec dim a0); [|lia]. rewrite <- Hsa.
    rewrite IH by (try exact Hsa; lia). f_equal. lia.
Qed.

(** The loop of the fused path on axes that are the last dimensions:
    [pre_dim] is the number of examples and [in_dim] the size of one. *)
Lemma collapse_trailing s1 s2 :
  s2 <> [] ->
  collapse (s1 ++ s2) 0 (sorted (zseq (List.length s1) (List.length s2))) 1 1
  = Ok (size s1, size s2).
Proof.
  intros Hne. rewrite sorted_zseq.
  destruct s2 as [|d2 s2']; [contradiction|].
  set (s2 := d2 :: s2') in *.
  assert (Hsa : zseq (List.length s1) (List.length s2)
                = Z.of_nat (List.length s1)
                  :: map Z.of_nat (seq (S (List.length s1))
                                       (List.length s2'))) by reflexivity.
  rewrite (collapse_pre _ _ _ s2 s1 0%Z 1 1 Hsa) by lia.
  rewrite (collapse_in _ _ _ s2 _ _ _ Hsa); [f_equal; f_equal; lia | lia |].
  intros d Hd. apply zmem_zseq. lia.
Qed.

Lemma list_set_length (A : Type) p (x : A) l :
  p < List.length l -> List.length (BatchNorm.list_set p x l) = List.length l.
Proof.
  intros H. unfold BatchNorm.list_set.
  rewrite length_app, length_firstn. cbn [List.length].
  rewrite length_skipn. lia.
Qed.

Lemma list_set_nth (A : Type) p (x d : A) l i :
  p < List.length l ->
  nth i (BatchNorm.list_set p x l) d = if i =? p then x else nth i l d.
Proof.
  intros H. unfold BatchNorm.list_set.
  assert (Hf : List.length (firstn p l) = p) by (rewrite length_firstn; lia).
  destruct (Nat.eqb_spec i p) as [->|Hn].
  - rewrite app_nth2 by lia. now rewrite Hf, Nat.sub_diag.
  - destruct (Nat.lt_ge_cases i p) as [Hlt|Hge].
    + rewrite app_nth1 by lia. rewrite <- (firstn_skipn p l) at 2.
      now rewrite app_nth1 by lia.
    + rewrite app_nth2 by lia. rewrite Hf.
      replace (i - p) with (S (i - S p)) by lia. cbn [nth].
      rewrite <- (firstn_skipn (S p) l) at 2.
      rewrite app_nth2 by (rewrite length_firstn; lia).
      rewrite length_firstn. f_equal. lia.
Qed.

Lemma ravel_ones_app k s j :
  ravel (repeat 1 k ++ s) (repeat 0 k ++ j) = ravel s j.
Proof. induction k as [|k IH]; cbn [repeat app ravel]; [reflexivity|]. lia. Qed.

Lemma broadcast_shape_zseq s m : forall a acc,
  List.length acc = List.length s -> a + m <= List.length s ->
  exists bs,
    broadcast_shape_of (zseq a m) s acc = Ok bs
    /\ List.length bs = List.length s
    /\ forall i, nth i bs 0
                 = if (a <=? i) && (i <? a + m) then nth i s 0
                   else nth i acc 0.
Proof.
  induction m as [|m IH]; intros a acc Hl Ha.
  - exists acc. split; [reflexivity|]. split; [exact Hl|]. intros i.
    destruct (Nat.leb_spec a i), (Nat.ltb_spec i (a + 0)); cbn [andb];
      try reflexivity. lia.
  - unfold zseq. cbn [seq map broadcast_shape_of]. fold (zseq (S a) m).
    destruct (Z.ltb_spec (Z.of_nat a) 0) as [|_]; [lia|].
    destruct (Z.ltb_spec (Z.of_nat a) 0) as [|_]; [lia|].
    destruct (Z.leb_spec (Z.of_nat (List.length s)) (Z.of_nat a)) as [|_];
      [lia|].
    cbn [orb]. rewrite Nat2Z.id.
    destruct (IH (S a) (BatchNorm.list_set a (nth a s 0) acc))
      as (bs & E & Hlb & Hn).
    { rewrite list_set_length; lia. }
    { lia. }
    exists bs. split; [exact E|]. split; [exact Hlb|]. intros i.
    rewrite Hn, list_set_nth by lia.
    destruct (Nat.leb_spec (S a) i), (Nat.ltb_spec i (S a + m)),
      (Nat.leb_spec a i), (Nat.ltb_spec i (a + S m)), (Nat.eqb_spec i a);
      cbn [andb]; try reflexivity; try lia. now subst.
Qed.

Lemma broadcast_shape_trailing s1 s2 :
  broadcast_shape_of (zseq (List.length s1) (List.length s2)) (s1 ++ s2)
    (repeat 1 (List.length (s1 ++ s2)))
  = Ok (repeat 1 (List.length s1) ++ s2).
Proof.
  destruct (broadcast_shape_zseq (s1 ++ s2) (List.length s2) (List.length s1)
              (repeat 1 (List.length (s1 ++ s2))))
    as (bs & E & Hl & Hn).
  { apply repeat_length. }
  { rewrite length_app. lia. }
  rewrite E. f_equal. apply (nth_ext _ _ 0 0).
  - rewrite Hl, !length_app, repeat_length. reflexivity.
  - intros i Hi. rewrite Hn. rewrite Hl, length_app in Hi.
    destruct (Nat.leb_spec (List.length s1) i); cbn [andb].
    + destruct (Nat.ltb_spec i (List.length s1 + List.length s2)); [|lia].
      rewrite !app_nth2 by (rewrite ?repeat_length; lia).
      now rewrite repeat_length.
    + rewrite app_nth1 by (rewrite repeat_length; lia).
      rewrite !nth_repeat_lt by (rewrite ?length_app; lia). reflexivity.
Qed.

(** [_broadcast] on a parameter that spans the last dimensions of the
    input: the entry that meets a position is the entry at the
    coordinates of the position along these dimensions. *)
Lemma broadcast_trailing s1 s2 t :
  wf t -> shape t = s2 ->
  exists t',
    _broadcast (zseq (List.length s1) (List.length s2))
      (List.length (s1 ++ s2)) (repeat 1 (List.length s1) ++ s2) (Some t)
    = Ok (Some t')
    /\ wf t' /\ stretches (shape t') (s1 ++ s2)
    /\ forall idx, in_bounds (s1 ++ s2) idx ->
         meet t' idx = get t (skipn (List.length s1) idx).
Proof.
  intros Hw Hs. cbn [_broadcast].
  assert (Hsk : forall idx, in_bounds (s1 ++ s2) idx ->
            in_bounds s2 (skipn (List.length s1) idx)).
  { intros idx Hi. apply (in_bounds_skipn _ _ (List.length s1)) in Hi.
    now rewrite skipn_app, skipn_all, Nat.sub_diag in Hi. }
  match goal with |- context [if ?c then _ else _] => destruct c end.
  - rewrite reshape_exact.
    2:{ rewrite size_app, size_ones. unfold wf in Hw. rewrite Hw, Hs. lia. }
    cbn [bind]. eexists. split; [reflexivity|]. split.
    { unfold wf. cbn [data shape]. rewrite size_app, size_ones.
      unfold wf in Hw. rewrite Hw, Hs. lia. }
    split.
    { cbn [shape]. apply fits_stretches, fits_app; [|apply fits_refl].
      apply fits_ones. reflexivity. }
    intros idx Hi. pose proof (in_bounds_length _ _ Hi) as Hl.
    unfold meet. cbn [shape]. rewrite bidx_same_rank
      by (rewrite Hl, !length_app, repeat_length; reflexivity).
    rewrite bpick_ones by (rewrite Hl, length_app; lia).
    unfold get at 1. cbn [shape data]. rewrite ravel_ones_app.
    rewrite bpick_id by (apply Hsk; exact Hi).
    unfold get. now rewrite Hs.
  - exists t. split; [reflexivity|]. split; [exact Hw|].
    assert (Hst : stretches (shape t) (s1 ++ s2)).
    { rewrite Hs. split; [rewrite length_app; lia|].
      rewrite length_app.
      replace (List.length s1 + List.length s2 - List.length s2)
        with (List.length s1) by lia.
      rewrite skipn_app, skipn_all, Nat.sub_diag. apply fits_refl. }
    split; [exact Hst|]. intros idx Hi.
    pose proof (in_bounds_length _ _ Hi) as Hl.
    unfold meet, bidx. rewrite Hs, Hl, length_app.
    replace (List.length s1 + List.length s2 - List.length s2)
      with (List.length s1) by lia.
    now rewrite bpick_id by (apply Hsk; exact Hi).
Qed.

End BlockFacts.

(** ** Facts on [LayerNormalization.call], fused path *)

Module LayerNormFusedFacts.
Import Tensor Reduce Broadcast BatchNormUse LayerNorm Examples Scenarios
  TensorFacts MovingAverageFacts ShapeFacts StatFacts TransformFacts
  GhostBatchFacts BuildFacts AverageFacts TrainingValueFacts FusedStepFacts
  OutputShapeFacts StretchFacts StretchTransformFacts ChannelFacts
  InferenceFormulaFacts CellFacts SqueezeFacts TrainingFacts RenormStepFacts
  LayerNormFacts SortFacts LayerNormBuildFacts BlockFacts.
Local Open Scope R_scope.

Lemma cell_nchw x pre_dim in_dim c :
  shape x = [1; pre_dim; in_dim; 1]%nat ->
  cell x [0; 2; 3]%nat [0; c; 0; 0]%nat
  = map (fun k => nth k (data x) 0)
        (filter (fun k => (k / in_dim =? c)%nat)
                (seq 0 (pre_dim * in_dim))).
Proof.
  intros Hs. unfold cell. rewrite Hs.
  replace (size [1; pre_dim; in_dim; 1]%nat) with (pre_dim * in_dim)%nat
    by (cbn [size]; lia).
  f_equal. apply filter_ext_in. intros k Hk. apply in_seq in Hk.
  cbn [unravel size mask in_axes existsb Nat.eqb orb idx_eqb andb].
  replace (in_dim * (1 * 1))%nat with in_dim by lia.
  rewrite (Nat.mod_small k) by lia.
  now rewrite andb_true_r.
Qed.

Lemma broadcast_opt_trailing s1 s2 o :
  opt_spans s2 o ->
  exists o',
    _broadcast (zseq (List.length s1) (List.length s2))
      (List.length (s1 ++ s2)) (repeat 1%nat (List.length s1) ++ s2) o
    = Ok o'
    /\ opt_stretches o' (s1 ++ s2)
    /\ forall idx dflt, in_bounds (s1 ++ s2) idx ->
         opt_meet o' dflt idx
         = param_at o dflt (skipn (List.length s1) idx).
Proof.
  intros Ho. destruct o as [t|].
  - destruct Ho as [Hw Hs].
    destruct (broadcast_trailing s1 s2 t Hw Hs) as (t' & E & Hw' & Hs' & Hg).
    exists (Some t'). split; [exact E|]. split; [split; assumption|].
    intros idx dflt Hi. now apply Hg.
  - exists None. split; [reflexivity|]. split; [exact I|]. reflexivity.
Qed.

Lemma in_bounds_app_inv s1 s2 : forall idx,
  in_bounds (s1 ++ s2) idx ->
  exists i1 i2, idx = i1 ++ i2 /\ in_bounds s1 i1 /\ in_bounds s2 i2.
Proof.
  induction s1 as [|d s1 IH]; intros idx H.
  - exists [], idx. split; [reflexivity|]. split; [constructor | exact H].
  - cbn [app] in H. inversion H as [|i d' idx' s' Hlt Hr]; subst.
    destruct (IH idx' Hr) as (i1 & i2 & -> & H1 & H2).
    exists (i :: i1), i2. split; [reflexivity|].
    split; [now constructor | exact H2].
Qed.

Lemma skipn_exact (A : Type) (l1 l2 : list A) n :
  List.length l1 = n -> skipn n (l1 ++ l2) = l2.
Proof.
  intros <-. rewrite skipn_app, skipn_all, Nat.sub_diag. reflexivity.
Qed.

(** The stand-in kernel meets what [call] relies on. *)
Lemma channel_normalizer_normalizes x pre_dim eps :
  List.length (shape x) = 4%nat ->
  normalizes_channels channel_normalizer x pre_dim eps.
Proof.
  intros Hrank. unfold normalizes_channels, channel_normalizer.
  assert (Hr : in_range (List.length (shape x)) [0; 2; 3]%nat = true)
    by (rewrite Hrank; reflexivity).
  destruct (moments_of_cells x [0; 2; 3]%nat Hr)
    as (m & v & Emv & Hsm & Hsv & Hwm & Hwv & Hmv).
  assert (Hfit : fits (shape m) (shape x))
    by (rewrite Hsm; apply fits_keep_shape).
  destruct (batch_normalization_spec x m v None None eps Hwm Hwv
              (eq_trans Hsv (eq_sym Hsm)) Hfit I I)
    as (out & Eo & Hso & Hwo & Hgo).
  exists out, m, v. rewrite Emv. cbn [bind]. rewrite Eo. cbn [bind].
  split; [reflexivity|]. split; [exact Hso|]. split; [exact Hwo|].
  intros idx Hi.
  set (j := mask 0 [0; 2; 3]%nat idx).
  set (mu := mean_of (cell x [0; 2; 3]%nat j)).
  set (var := mean_of (map (fun t => squared_difference t mu)
                           (cell x [0; 2; 3]%nat j))).
  rewrite (Hgo idx Hi). cbv zeta.
  cbn [BatchNorm.opt_at]. rewrite Hsm, bpick_keep_shape by exact Hi.
  fold j.
  assert (Hj : in_bounds (keep_shape 0 [0; 2; 3]%nat (shape x)) j).
  { apply in_bounds_mask; [|exact Hi]. now apply (in_bounds_pos _ idx). }
  destruct (Hmv j Hj) as (Em & Ev & _). fold mu in Em.
  rewrite Em in Ev. fold var in Ev. rewrite Em, Ev. unfold Rdiv. ring.
Qed.

(** The fused path on axes that are the last dimensions of the input, in
    ascending order, with a kernel that normalizes channels: every entry
    is centred by the mean of its example, divided by
    [sqrt (var + epsilon)] for the variance of its example, multiplied by
    [gamma] and moved by [beta], both taken at the coordinates of the
    entry along the axes. This is what the generic path returns. *)
Theorem layer_norm_fused_formula k self x s1 s2 :
  BatchNorm.truthy (_fused self) = true ->
  shape x = s1 ++ s2 -> s2 <> [] -> wf x ->
  axis self = BatchNorm.AxisList (zseq (List.length s1) (List.length s2)) ->
  opt_spans s2 (gamma self) -> opt_spans s2 (beta self) ->
  normalizes_channels k
    (mkTensor [1; size s1; size s2; 1]%nat (data x)) (size s1)
    (epsilon self) ->
  let axes := seq (List.length s1) (List.length s2) in
  exists out,
    call k self x = Ok out /\ shape out = shape x
    /\ forall idx, in_bounds (shape x) idx ->
         let i := skipn (List.length s1) idx in
         let j := mask 0 axes idx in
         let mu := mean_of (cell x axes j) in
         let var := mean_of (map (fun t => squared_difference t mu)
                                 (cell x axes j)) in
         get out idx
         = (get x idx - mu) / sqrt (var + epsilon self)
           * param_at (gamma self) 1 i
           + param_at (beta self) 0 i.
Proof.
  intros Hf Hs Hne Hw Ha Hg Hb HK axes.
  set (pre := size s1) in *. set (inn := size s2) in *.
  set (x' := mkTensor [1; pre; inn; 1]%nat (data x)) in *.
  destruct HK as (out' & bm & bv & EK & Hso' & Hwo' & Hgo').
  assert (Hlen : List.length (data x) = (pre * inn)%nat).
  { unfold wf in Hw. rewrite Hw, Hs, size_app. reflexivity. }
  assert (Ex' : reshape x (map Z.of_nat [1; pre; inn; 1]%nat) = Ok x').
  { apply reshape_exact. rewrite Hlen. cbn [size]. lia. }
  assert (Hlo : List.length (data out') = size (s1 ++ s2)).
  { unfold wf in Hwo'. rewrite Hwo', Hso'. cbn [shape x' size].
    rewrite size_app. fold pre inn. lia. }
  set (nrm := mkTensor (s1 ++ s2) (data out')).
  assert (Enrm : reshape out' (map Z.of_nat (s1 ++ s2)) = Ok nrm)
    by (apply reshape_exact; exact Hlo).
  destruct (broadcast_opt_trailing s1 s2 (gamma self) Hg)
    as (scale0 & Esc & Hssc & Hgsc).
  destruct (broadcast_opt_trailing s1 s2 (beta self) Hb)
    as (offset0 & Eof & Hsof & Hgof).
  (* the normalized tensor, entry by entry *)
  assert (Hnrm : forall idx, in_bounds (s1 ++ s2) idx ->
            let j := mask 0 axes idx in
            let mu := mean_of (cell x axes j) in
            let var := mean_of (map (fun t => squared_difference t mu)
                                    (cell x axes j)) in
            get nrm idx = (get x idx - mu) / sqrt (var + epsilon self)).
  { intros idx Hi j mu var.
    destruct (in_bounds_app_inv s1 s2 idx Hi) as (i1 & i2 & E & H1 & H2).
    pose proof (in_bounds_length _ _ H1) as L1.
    pose proof (in_bounds_length _ _ H2) as L2.
    pose proof (ravel_lt _ _ H1) as Hc. pose proof (ravel_lt _ _ H2) as Hh.
    fold pre in Hc. fold inn in Hh.
    set (c := ravel s1 i1) in *. set (h := ravel s2 i2) in *.
    assert (Hflat : ravel (s1 ++ s2) idx = (c * inn + h)%nat)
      by (rewrite E; apply ravel_app; exact L1).
    assert (Hflat' : ravel [1; pre; inn; 1]%nat [0; c; h; 0]%nat
                     = (c * inn + h)%nat) by (cbn [ravel size]; lia).
    assert (Hi' : in_bounds (shape x') [0; c; h; 0]%nat).
    { cbn [shape x']. repeat constructor; lia. }
    specialize (Hgo' _ Hi'). cbv zeta in Hgo'.
    change (mask 0 [0; 2; 3]%nat [0; c; h; 0]%nat) with [0; c; 0; 0]%nat
      in Hgo'.
    rewrite (cell_nchw x' pre inn c eq_refl) in Hgo'.
    assert (Ecell : cell x axes j
                    = map (fun q => nth q (data x') 0)
                          (filter (fun q => (q / inn =? c)%nat)
                                  (seq 0 (pre * inn)))).
    { unfold j. rewrite E.
      rewrite (cell_trailing x axes s1 s2 i1 i2 Hs); try assumption.
      - rewrite size_app. reflexivity.
      - intros q. unfold axes. rewrite in_seq. lia. }
    rewrite <- Ecell in Hgo'. fold mu in Hgo'. fold var in Hgo'.
    transitivity (get out' [0; c; h; 0]%nat).
    { unfold get. cbn [shape data nrm]. rewrite Hso'. cbn [shape x'].
      now rewrite Hflat, Hflat'. }
    rewrite Hgo'. do 2 f_equal.
    unfold get. cbn [shape data x']. rewrite Hs. now rewrite Hflat, Hflat'. }
  (* scale and offset *)
  assert (Hsn : stretches (shape nrm) (s1 ++ s2)) by apply stretches_refl.
  assert (Hscaled : exists y,
            match scale0 with
            | Some s => binop Rmult nrm s
            | None => Ok nrm
            end = Ok y
            /\ shape y = s1 ++ s2
            /\ forall idx, in_bounds (s1 ++ s2) idx ->
                 get y idx = get nrm idx * opt_meet scale0 1 idx).
  { destruct scale0 as [sc|].
    - destruct Hssc as [_ Hst].
      destruct (binop_stretch Rmult nrm sc (s1 ++ s2) Hsn Hst)
        as (y & Ey & _ & _ & Hsy & Hgy).
      specialize (Hsy eq_refl).
      exists y. split; [exact Ey|]. split; [exact Hsy|].
      intros idx Hi. specialize (Hgy idx Hi).
      rewrite (meet_same_shape y) in Hgy by (rewrite Hsy; exact Hi).
      rewrite (meet_same_shape nrm) in Hgy by exact Hi.
      exact Hgy.
    - exists nrm. split; [reflexivity|]. split; [reflexivity|].
      intros idx _. cbn [opt_meet]. ring. }
  destruct Hscaled as (y & Ey & Hsy & Hgy).
  assert (Hshifted : exists z,
            match offset0 with
            | Some o => binop Rplus y o
            | None => Ok y
            end = Ok z
            /\ shape z = s1 ++ s2
            /\ forall idx, in_bounds (s1 ++ s2) idx ->
                 get z idx = get y idx + opt_meet offset0 0 idx).
  { destruct offset0 as [o|].
    - destruct Hsof as [_ Hst].
      assert (Hsy' : stretches (shape y) (s1 ++ s2))
        by (rewrite Hsy; apply stretches_refl).
      destruct (binop_stretch Rplus y o (s1 ++ s2) Hsy' Hst)
        as (z & Ez & _ & _ & Hsz & Hgz).
      specialize (Hsz Hsy).
      exists z. split; [exact Ez|]. split; [exact Hsz|].
      intros idx Hi. specialize (Hgz idx Hi).
      rewrite (meet_same_shape z) in Hgz by (rewrite Hsz; exact Hi).
      rewrite (meet_same_shape y) in Hgz by (rewrite Hsy; exact Hi).
      exact Hgz.
    - exists y. split; [reflexivity|]. split; [exact Hsy|].
      intros idx _. cbn [opt_meet]. ring. }
  destruct Hshifted as (z & Ez & Hsz & Hgz).
  exists z. split; [|split; [now rewrite Hs|]].
  - unfold call, iter_axis. rewrite Ha. cbn [bind]. rewrite Hs.
    rewrite broadcast_shape_trailing. cbn [bind]. rewrite Hf. cbn [negb].
    rewrite (collapse_trailing s1 s2 Hne). cbn [bind]. fold pre inn.
    rewrite Ex'. cbn [bind]. rewrite EK. cbn [bind]. rewrite Enrm.
    cbn [bind]. rewrite Esc. cbn [bind]. rewrite Eof. cbn [bind].
    rewrite Ey. cbn [bind]. rewrite Ez. cbn [bind]. rewrite Hsz.
    now rewrite same_shape_refl.
  - rewrite Hs. intros idx Hi i j mu var.
    rewrite (Hgz idx Hi), (Hgy idx Hi), (Hnrm idx Hi).
    fold j mu var. rewrite (Hgsc idx 1 Hi), (Hgof idx 0 Hi). reflexivity.
Qed.

(** And on the fused path. *)
Lemma layer_norm_fused_formula_witness :
  normalizes_channels channel_normalizer
    (mkTensor [1; 2; 2; 1]%nat (data batch_2x2)) 2 (1 / 1000)
  /\ exists out,
       call channel_normalizer (layer_norm true) batch_2x2 = Ok out
       /\ shape out = [2; 2]%nat
       /\ forall idx, in_bounds [2; 2]%nat idx ->
            let i := skipn 1 idx in
            let j := mask 0 [1%nat] idx in
            let mu := mean_of (cell batch_2x2 [1%nat] j) in
            let var := mean_of (map (fun t => squared_difference t mu)
                                    (cell batch_2x2 [1%nat] j)) in
            get out idx
            = (get batch_2x2 idx - mu) / sqrt (var + 1 / 1000)
              * param_at (gamma (layer_norm true)) 1 i
              + param_at (beta (layer_norm true)) 0 i.
Proof.
  assert (HK : normalizes_channels channel_normalizer
                 (mkTensor [1; 2; 2; 1]%nat (data batch_2x2)) 2 (1 / 1000))
    by (apply channel_normalizer_normalizes; reflexivity).
  split; [exact HK|].
  refine (layer_norm_fused_formula channel_normalizer (layer_norm true)
            batch_2x2 [2%nat] [2%nat] eq_refl eq_refl _ eq_refl eq_refl
            (conj eq_refl eq_refl) (conj eq_refl eq_refl) HK).
  discriminate.
Defined.

End LayerNormFusedFacts.
